(** * compute_metrics_reloaded: per-subject, per-label evaluation pipeline

    A shallow embedding of [src/compute_metrics/compute_metrics_reloaded.py]
    (functions [load_nifti_image], [get_images_in_folder],
    [compute_metrics_single_subject], [build_output_dataframe] and [main])
    together with the properties the specification states about them, and of
    the functions [get_subject_info], [write_json] and [separate_labels] of
    [src/dataset_conversion/nnunetV2_to_bids.py].  The two argument parsers
    and the folder walk of the converter's [main], which is all file-system
    traffic, are not modelled.

    Modelling decisions, all visible in the definitions below:
    - a label volume is an [ndarray]: a shape and the flat voxel data.  A
      voxel is a [float64], as [get_fdata] returns it: a number or NaN.  The
      program only compares voxels ([==], [!= 0], the order [np.unique]
      sorts in and [>] inside [max]), so a number is represented by an
      integer (a class identifier is one, and float64 holds it exactly; any
      other number behaves like the integer that ranks it around 0), while
      NaN, the one value that is not equal to itself, is a value of its own;
    - a Python [dict] is an insertion-ordered association list with
      first-match lookup and in-place overwrite ([dict_get], [dict_set],
      [dict_update]);
    - exceptions are the [Err] results of an error monad; the external metric
      engine (MetricsReloaded's [BinaryPairwiseMeasures]) is a section
      variable that threads a hidden state [World], so that "the engine was
      not invoked" and "the engine is deterministic" are statable;
    - [numpy.unique], boolean indexing, [numpy.concatenate] and
      [pandas.DataFrame] are modelled after their documented behaviour. *)

From Stdlib Require Import ZArith List String Ascii Bool Lia Sorted Permutation.
From Stdlib Require Import DecimalString DecimalZ.
Import ListNotations.

Local Open Scope string_scope.
Local Open Scope list_scope.
Local Open Scope Z_scope.

Set Implicit Arguments.
Set Warnings "-register-all,-notation-for-abbreviation".

(* ------------------------------------------------------------------ *)
(** ** Voxel values *)

Module Float64.

(** A float64: a number, or NaN.  [Num z] is the number of rank [z] in the
    order of the numbers, with 0.0 at rank 0; the class identifiers of a
    segmentation are the integers themselves. *)
Inductive float64 : Type :=
| Num (z : Z)
| NaN.

Coercion Num : Z >-> float64.

(** [a == b]: NaN is equal to nothing, not even to itself. *)
Definition float_eqb (a b : float64) : bool :=
  match a, b with
  | Num x, Num y => x =? y
  | _, _ => false
  end.

(** [a > b]: false as soon as a side is NaN. *)
Definition float_gtb (a b : float64) : bool :=
  match a, b with
  | Num x, Num y => x >? y
  | _, _ => false
  end.

(** The order in which [np.unique] sorts: the numbers ascending, NaN after
    every number. *)
Definition sorts_before (a b : float64) : bool :=
  match a, b with
  | Num x, Num y => x <? y
  | Num _, NaN => true
  | NaN, _ => false
  end.

(** The values [np.unique] keeps once: equal numbers, and NaN with NaN (its
    default [equal_nan=True]). *)
Definition same_value (a b : float64) : bool :=
  match a, b with
  | Num x, Num y => x =? y
  | NaN, NaN => true
  | _, _ => false
  end.

Definition is_nan (a : float64) : bool :=
  match a with
  | NaN => true
  | Num _ => false
  end.

End Float64.
Export Float64.

(* ------------------------------------------------------------------ *)
(** ** Python dictionaries *)

Module PyDict.

(** Dictionary keys of the program: field names and labels.  A string never
    compares equal to a number.  A dictionary finds a key that is the very
    object it stores before it asks [==], so the NaN label, which the program
    stores once and only looks up through the dictionary's own keys, is found
    again although it is not equal to itself.  A dictionary with two NaN
    keys, which Python keeps apart as two objects, is outside the model. *)
Inductive Key : Type :=
| KStr (s : string)
| KNum (x : float64).

Definition key_eqb (a b : Key) : bool :=
  match a, b with
  | KStr s, KStr t => String.eqb s t
  | KNum x, KNum y => same_value x y
  | _, _ => false
  end.

Section Ops.
Variable V : Type.

(** [d[k]] *)
Fixpoint dict_get (k : Key) (d : list (Key * V)) : option V :=
  match d with
  | [] => None
  | (k', v) :: t => if key_eqb k k' then Some v else dict_get k t
  end.

(** [d[k] = v]: an existing key keeps its position, a new key goes last. *)
Fixpoint dict_set (k : Key) (v : V) (d : list (Key * V)) : list (Key * V) :=
  match d with
  | [] => [(k, v)]
  | (k', v') :: t =>
      if key_eqb k k' then (k', v) :: t else (k', v') :: dict_set k v t
  end.

(** [d.keys()] *)
Definition dict_keys (d : list (Key * V)) : list Key := map fst d.

(** [d.update(other)] *)
Definition dict_update (d other : list (Key * V)) : list (Key * V) :=
  fold_left (fun acc kv => dict_set (fst kv) (snd kv) acc) other d.

(** [k in ks] for a list of keys *)
Definition key_in (k : Key) (ks : list Key) : bool := existsb (key_eqb k) ks.
End Ops.

End PyDict.
Export PyDict.

(* ------------------------------------------------------------------ *)
(** ** Arrays *)

Module Numpy.

Record ndarray : Type := mk_ndarray { shape : list nat; data : list float64 }.

Definition shape_eqb (s t : list nat) : bool :=
  if list_eq_dec Nat.eq_dec s t then true else false.

(** Insertion of a value into a sorted duplicate-free list. *)
Fixpoint insert_unique (x : float64) (l : list float64) : list float64 :=
  match l with
  | [] => [x]
  | y :: t =>
      if sorts_before x y then x :: l
      else if same_value x y then l
      else y :: insert_unique x t
  end.

(** [np.unique(a)]: the sorted distinct values of the flattened array, a
    single NaN last when the array holds NaN (NumPy 1.21 and later, where
    [equal_nan] defaults to [True]). *)
Definition np_unique (a : list float64) : list float64 :=
  fold_right insert_unique [] a.

(** [u[u != 0]]: NaN is different from 0 and stays. *)
Definition remove_background (u : list float64) : list float64 :=
  filter (fun x => negb (float_eqb x 0)) u.

(** [np.array(a == label, dtype=float)]: 1 where the voxel equals the
    label, 0 elsewhere, on the same grid. *)
Definition eq_mask (a : ndarray) (label : float64) : ndarray :=
  {| shape := shape a;
     data := map (fun x => if float_eqb x label then Num 1 else Num 0) (data a) |}.

(** Python's builtin [max] over a sequence ([None] stands for the
    [ValueError] on an empty one): the first item, replaced by every later
    item that is [>] the current one. *)
Definition py_max (l : list float64) : option float64 :=
  match l with
  | [] => None
  | x :: t => Some (fold_left (fun m y => if float_gtb y m then y else m) t x)
  end.

(** [repr] of a shape tuple, as an f-string prints it. *)
Definition repr_nat (n : nat) : string :=
  NilEmpty.string_of_uint (Nat.to_uint n).

Definition repr_shape (s : list nat) : string :=
  match s with
  | [] => "()"
  | [n] => ("(" ++ repr_nat n ++ ",)")%string
  | _ => ("(" ++ String.concat ", " (map repr_nat s) ++ ")")%string
  end.

End Numpy.
Export Numpy.

(* ------------------------------------------------------------------ *)
(** ** Errors and the evaluation monad *)

Inductive PyError : Type :=
| FileNotFoundError (msg : string)
| ValueError (msg : string)
| KeyError (k : Key)
| TypeError (msg : string).

Inductive Result (A : Type) : Type :=
| Ok (a : A)
| Err (e : PyError).
Arguments Ok {A} a.
Arguments Err {A} e.

(* ------------------------------------------------------------------ *)
(** ** Python strings, paths and sorting *)

Module PyStr.

(** [s.endswith(suffix)]: some tail of [s] is [suffix]. *)
Fixpoint endswith (s suffix : string) : bool :=
  if String.eqb s suffix then true
  else match s with
       | EmptyString => false
       | String _ t => endswith t suffix
       end.

(** [s.startswith(prefix)] *)
Fixpoint startswith (s prefix : string) : bool :=
  match prefix with
  | EmptyString => true
  | String p prefix' =>
      match s with
      | EmptyString => false
      | String a s' => (Ascii.eqb a p && startswith s' prefix')%bool
      end
  end.

(** [os.path.join(a, b)] of [posixpath], for two components: an absolute
    [b] replaces [a], otherwise the two are joined with one separator. *)
Definition path_join (a b : string) : string :=
  if startswith b "/" then b
  else if (String.eqb a "" || endswith a "/")%bool then (a ++ b)%string
  else (a ++ "/" ++ b)%string.

(** What [os.path.join(a, _)] puts in front of a relative second component. *)
Definition dir_prefix (a : string) : string :=
  if (String.eqb a "" || endswith a "/")%bool then a else (a ++ "/")%string.

(** [l.sort()] on a list of strings: ascending in the order of [<=] on
    strings (bytewise, which on UTF-8 is the order of the code points). *)
Fixpoint insert_sorted (x : string) (l : list string) : list string :=
  match l with
  | [] => [x]
  | y :: t => if String.leb x y then x :: l else y :: insert_sorted x t
  end.

Definition py_sort (l : list string) : list string := fold_right insert_sorted [] l.

(** [s.split(sep)] for a separator of one character: the fields between the
    occurrences of [sep], at least one field. *)
Fixpoint split_char (sep : ascii) (s : string) : list string :=
  match s with
  | EmptyString => [EmptyString]
  | String c t =>
      if Ascii.eqb c sep then EmptyString :: split_char sep t
      else match split_char sep t with
           | [] => [String c EmptyString]
           | field :: fields => String c field :: fields
           end
  end.

(** [c in s] for one character [c]. *)
Fixpoint contains_char (c : ascii) (s : string) : bool :=
  match s with
  | EmptyString => false
  | String a t => (Ascii.eqb a c || contains_char c t)%bool
  end.

(** [s.lstrip(c)] for one character [c]. *)
Fixpoint lstrip_char (c : ascii) (s : string) : string :=
  match s with
  | EmptyString => EmptyString
  | String a t => if Ascii.eqb a c then lstrip_char c t else s
  end.

End PyStr.
Export PyStr.

(* ------------------------------------------------------------------ *)
(** ** nnUNetV2_to_bids.py

    The functions [get_subject_info], [write_json] and [separate_labels] of
    [src/dataset_conversion/nnunetV2_to_bids.py].  What the conversion does
    to the disk is a log of events, in the order of the calls; the clock that
    [write_json] reads is a function of what happened before.  Writing is
    taken to succeed (the caller creates the folders first). *)

Module Bids.

Inductive PyExc : Type :=
| IndexError (msg : string)
| KeyError (key : string)
| TypeError (msg : string)
| FileNotFoundError (msg : string).

Inductive Outcome (A : Type) : Type :=
| Return (a : A)
| Raise (e : PyExc).
Arguments Return {A} a.
Arguments Raise {A} e.

(** *** get_subject_info *)

(** [contrast_dict] is the [channel_names] object of [dataset.json], a
    dictionary with string keys. *)
Definition get_subject_info {V : Type} (file_name : string)
  (contrast_dict : list (Key * V))
  : Outcome (string * option string * string * string * V) :=
  let name := hd EmptyString (split_char "." file_name) in
  let info := split_char "_" name in
  match nth_error (rev info) 1 with
  | None => Raise (IndexError "list index out of range")
  | Some bids_nb =>
      let contrast := hd EmptyString (rev info) in
      let ses_info :=
        if Nat.eqb (List.length info) 4
        then (nth_error info 1, firstn 1 info ++ skipn 2 info)
        else (None, info) in
      let ses := fst ses_info in
      let info := snd ses_info in
      let sub_name := String.concat "_" (firstn (List.length info - 2) info) in
      let contrast := lstrip_char "0" contrast in
      let contrast := if String.eqb contrast "" then "0"%string else contrast in
      match dict_get (KStr contrast) contrast_dict with
      | None => Raise (KeyError contrast)
      | Some contrast_bids =>
          Return (sub_name, ses, bids_nb, contrast, contrast_bids)
      end
  end.

(** *** separate_labels and write_json *)

(** A value of the [labels] object of [dataset.json]: an integer, or a list
    of integers for a region. *)
Inductive LabelValue : Type :=
| LInt (z : Z)
| LList (l : list Z).

Definition label_value_eqb (a b : LabelValue) : bool :=
  match a, b with
  | LInt x, LInt y => x =? y
  | LList x, LList y => if list_eq_dec Z.eq_dec x y then true else false
  | _, _ => false
  end.

Definition repr_Z (z : Z) : string := NilZero.string_of_int (Z.to_int z).

Definition repr_label_value (v : LabelValue) : string :=
  match v with
  | LInt z => repr_Z z
  | LList l => ("[" ++ String.concat ", " (map repr_Z l) ++ "]")%string
  end.

Inductive FsEvent : Type :=
| NiftiSave (path : string) (voxel_val : ndarray) (header_of : string)
| JsonDump (path : string) (content : list (string * string))
| Copy2 (src dst : string).

(** [d[value] = name] and [d[value]] on a dictionary keyed by label values. *)
Fixpoint value_label_set (value : LabelValue) (name : string)
  (d : list (LabelValue * string)) : list (LabelValue * string) :=
  match d with
  | [] => [(value, name)]
  | (value', name') :: t =>
      if label_value_eqb value value' then (value', name) :: t
      else (value', name') :: value_label_set value name t
  end.

Fixpoint value_label_get (value : LabelValue) (d : list (LabelValue * string))
  : option string :=
  match d with
  | [] => None
  | (value', name) :: t =>
      if label_value_eqb value value' then Some name else value_label_get value t
  end.

(** Line 44, [{v: k for k, v in dataset_label.items()}]: a list is not
    hashable and cannot be a key. *)
Fixpoint invert_labels (items : list (string * LabelValue))
  (value_label : list (LabelValue * string))
  : Outcome (list (LabelValue * string)) :=
  match items with
  | [] => Return value_label
  | (k, v) :: rest =>
      match v with
      | LList _ => Raise (TypeError "unhashable type: 'list'")
      | LInt _ => invert_labels rest (value_label_set v k value_label)
      end
  end.

(** [voxel_val[data == value] = 1] *)
Definition set_where (data : list float64) (value : Z) (voxel_val : list float64)
  : list float64 :=
  map (fun dv => if float_eqb (fst dv) value then Num 1 else snd dv)
      (combine data voxel_val).

(** Lines 50-55: the volume of zeros with 1 at the voxels of the value. *)
Definition label_mask (img : ndarray) (value : LabelValue) : ndarray :=
  let voxel_val := map (fun _ => Num 0) (data img) in
  let voxel_val :=
    match value with
    | LList sub_vals =>
        fold_left (fun voxel_val sub_val => set_where (data img) sub_val voxel_val)
                  sub_vals voxel_val
    | LInt value => set_where (data img) value voxel_val
    end in
  {| shape := shape img; data := voxel_val |}.

(** [value != 0] *)
Definition is_nonzero (value : LabelValue) : bool :=
  match value with
  | LInt z => negb (z =? 0)
  | LList _ => true
  end.

Section Convert.

(** [nib.load(path).get_fdata()], [None] when there is no such file, and
    [datetime.datetime.now().strftime(...)] after the given events. *)
Variable nib_files : string -> option ndarray.
Variable now : list FsEvent -> string.

Definition write_json (filename dataset_name : string) (fs : list FsEvent)
  : list FsEvent :=
  let data :=
    [("Author"%string,
      ("nnUNetV2_to_bids.py from nnUNet dataset " ++ dataset_name)%string);
     ("Date"%string, now fs);
     ("Reviewer"%string, "NAME"%string);
     ("Review_Date"%string, "YYYY-MM-DD, HH:MM:SS"%string)] in
  fs ++ [JsonDump filename data].

(** Lines 47-60: the loop over the keys of [value_label]. *)
Fixpoint separate_loop (label_file original_label label_new_dir dataset_name : string)
  (img : ndarray) (value_label : list (LabelValue * string))
  (values : list LabelValue) (fs : list FsEvent) : Outcome unit * list FsEvent :=
  match values with
  | [] => (Return tt, fs)
  | value :: rest =>
      if is_nonzero value then
        match value_label_get value value_label with
        | None => (Raise (KeyError (repr_label_value value)), fs)
        | Some seg_name =>
            let voxel_val := label_mask img value in
            let path_to_label :=
              path_join label_new_dir
                        (label_file ++ "-" ++ seg_name ++ "_seg.nii.gz")%string in
            let fs := fs ++ [NiftiSave path_to_label voxel_val original_label] in
            let json_name := (label_file ++ "-" ++ seg_name ++ "_seg.json")%string in
            let fs := write_json (path_join label_new_dir json_name) dataset_name fs in
            separate_loop label_file original_label label_new_dir dataset_name
                          img value_label rest fs
        end
      else
        separate_loop label_file original_label label_new_dir dataset_name
                      img value_label rest fs
  end.

Definition separate_labels
  (label_file original_label : string) (dataset_label : list (string * LabelValue))
  (label_new_dir dataset_name : string) (fs : list FsEvent)
  : Outcome unit * list FsEvent :=
  match invert_labels dataset_label [] with
  | Raise e => (Raise e, fs)
  | Return value_label =>
      match nib_files original_label with
      | None =>
          (Raise (FileNotFoundError
                    ("No such file or no access: '" ++ original_label ++ "'")%string),
           fs)
      | Some img =>
          match separate_loop label_file original_label label_new_dir dataset_name
                              img value_label (map fst value_label) fs with
          | (Raise e, fs) => (Raise e, fs)
          | (Return _, fs) =>
              let path_to_label :=
                path_join label_new_dir (label_file ++ "-softseg.nii.gz")%string in
              let fs := fs ++ [Copy2 original_label path_to_label] in
              let json_name := (label_file ++ "-softseg.json")%string in
              (Return tt,
               write_json (path_join label_new_dir json_name) dataset_name fs)
          end
      end
  end.

End Convert.

(** The files a log saves as NIfTI images, in order. *)
Definition saved_masks (fs : list FsEvent) : list (string * ndarray) :=
  flat_map (fun e => match e with
                     | NiftiSave path voxel_val _ => [(path, voxel_val)]
                     | _ => []
                     end) fs.

(** A dataset with one image, for the examples. *)
Definition demo_contrasts : list (Key * string) :=
  [(KStr "0", "T2w"%string); (KStr "1", "T1w"%string)].

Definition demo_labels : list (string * LabelValue) :=
  [("background"%string, LInt 0); ("cord"%string, LInt 1);
   ("lesion"%string, LInt 2); ("sc"%string, LInt 1)].

Definition demo_region_labels : list (string * LabelValue) :=
  [("background"%string, LInt 0); ("cord"%string, LList [1; 2]);
   ("lesion"%string, LInt 2)].

Definition demo_label_files (p : string) : option ndarray :=
  if String.eqb p "labelsTr/sub-01_003.nii.gz"
  then Some {| shape := [2; 2]%nat; data := [Num 0; Num 1; Num 2; Num 1] |}
  else None.

Definition demo_now (fs : list FsEvent) : string := "2024-01-01 00:00:00".

End Bids.

(** Python values that occur in the program's dictionaries; [Scalar] is the
    type of the number a metric evaluates to. *)
Inductive PyVal (Scalar : Type) : Type :=
| PStr (s : string)
| PNum (x : float64)
| PFloat (x : Scalar)
| PBool (b : bool)
| PDict (d : list (Key * PyVal Scalar)).
Arguments PStr {Scalar} s.
Arguments PNum {Scalar} x.
Arguments PFloat {Scalar} x.
Arguments PBool {Scalar} b.
Arguments PDict {Scalar} d.

Definition Dict (Scalar : Type) : Type := list (Key * PyVal Scalar).

(** What the program reads off a [BinaryPairwiseMeasures] object: the result
    of [to_dict_meas()] and the two attributes [flag_empty_ref] and
    [flag_empty_pred]. *)
Record BPMObj (Scalar : Type) : Type := mk_bpm {
  to_dict_meas : Dict Scalar;
  flag_empty_ref : bool;
  flag_empty_pred : bool
}.

Section Metrics.

(** The scalar a metric evaluates to, and the hidden state of the engine. *)
Variable Scalar : Type.
Variable World : Type.

Local Notation Dict := (Dict Scalar).
Local Notation PyVal := (PyVal Scalar).

(** A computation that may raise and may use the engine. *)
Definition M (A : Type) : Type := World -> Result A * World.

Definition ret {A} (a : A) : M A := fun w => (Ok a, w).
Definition raise {A} (e : PyError) : M A := fun w => (Err e, w).
Definition bind {A B} (m : M A) (f : A -> M B) : M B :=
  fun w =>
    match m w with
    | (Ok a, w') => f a w'
    | (Err e, w') => (Err e, w')
    end.
Definition lift {A} (r : Result A) : M A := fun w => (r, w).

Notation "x <- m ;; k" := (bind m (fun x => k))
  (at level 100, m at next level, right associativity).

(** *** External collaborators *)

(** [os.path.abspath (os.path.expanduser p)] and the NIfTI files on disk:
    [nib_files p] is the decoded volume of the file at absolute path [p],
    [None] when no such file exists. *)
Variable abspath : string -> string.
Variable nib_files : string -> option ndarray.

(** [BPM(pred, ref, measures=metrics)] followed by the reads of the object:
    prediction first, reference second.  The engine is total on the metric
    names it is given (an unrecognised name is outside this model). *)
Variable BPM : ndarray -> ndarray -> list string -> World -> BPMObj Scalar * World.

Definition call_BPM (p r : ndarray) (metrics : list string) : M (BPMObj Scalar) :=
  fun w => let (o, w') := BPM p r metrics w in (Ok o, w').

(** *** load_nifti_image *)

Definition load_nifti_image (file_path : string) : M ndarray :=
  let file_path := abspath file_path in
  match nib_files file_path with
  | None => raise (FileNotFoundError ("File " ++ file_path ++ " does not exist.")%string)
  | Some nifti_image => ret nifti_image
  end.

(** *** compute_metrics_single_subject *)

Definition shape_mismatch_message (prediction_data reference_data : ndarray) : string :=
  ("The prediction and reference (ground truth) images must have the same shape. "
   ++ "The prediction image has shape " ++ repr_shape (shape prediction_data)
   ++ " and the ground truth image has "
   ++ "shape " ++ repr_shape (shape reference_data) ++ ".")%string.

(** Lines 121-127: the labels present in the reference OR the prediction. *)
Definition unique_labels (reference_data prediction_data : ndarray) : list float64 :=
  let unique_labels_reference := np_unique (data reference_data) in
  let unique_labels_reference := remove_background unique_labels_reference in
  let unique_labels_prediction := np_unique (data prediction_data) in
  let unique_labels_prediction := remove_background unique_labels_prediction in
  np_unique (unique_labels_reference ++ unique_labels_prediction).

(** Lines 140-143: the metric record read off the engine object. *)
Definition dict_seg_of (bpm : BPMObj Scalar) : Dict :=
  let dict_seg := to_dict_meas bpm in
  let dict_seg := dict_set (KStr "EmptyRef") (PBool (flag_empty_ref bpm)) dict_seg in
  let dict_seg := dict_set (KStr "EmptyPred") (PBool (flag_empty_pred bpm)) dict_seg in
  dict_seg.

Section Subject.
Variables prediction_data reference_data : ndarray.
Variable metrics : list string.

(** Lines 133-148: the [for] loop over [labels], the remaining part of
    [all_labels].  The boolean tells whether the loop was left through
    [break]; when it is [false] the [else] block runs. *)
Fixpoint for_labels (all_labels labels : list float64) (metrics_dict : Dict)
  : M (Dict * bool) :=
  match labels with
  | [] => ret (metrics_dict, false)
  | label :: rest =>
      let prediction_data_label := eq_mask prediction_data label in
      let reference_data_label := eq_mask reference_data label in
      bpm <- call_BPM prediction_data_label reference_data_label metrics ;;
      let metrics_dict := dict_set (KNum label) (PDict (dict_seg_of bpm)) metrics_dict in
      match py_max all_labels with
      | None => raise (ValueError "max() arg is an empty sequence")
      | Some m =>
          if float_eqb label m then ret (metrics_dict, true)
          else for_labels all_labels rest metrics_dict
      end
  end.

(** Lines 150-160: the [else] block of the loop. *)
Definition for_else (metrics_dict : Dict) : M Dict :=
  let label := Num 0 in
  bpm <- call_BPM prediction_data reference_data metrics ;;
  ret (dict_set (KNum label) (PDict (dict_seg_of bpm)) metrics_dict).
End Subject.

Definition compute_metrics_single_subject
  (prediction reference : string) (metrics : list string) : M Dict :=
  prediction_data <- load_nifti_image prediction ;;
  reference_data <- load_nifti_image reference ;;
  if negb (shape_eqb (shape prediction_data) (shape reference_data)) then
    raise (ValueError (shape_mismatch_message prediction_data reference_data))
  else
    let unique_labels := unique_labels reference_data prediction_data in
    let metrics_dict :=
      [(KStr "reference", PStr reference); (KStr "prediction", PStr prediction)] in
    r <- for_labels prediction_data reference_data metrics
           unique_labels unique_labels metrics_dict ;;
    let (metrics_dict, broke) := (r : Dict * bool) in
    if broke then ret metrics_dict
    else for_else prediction_data reference_data metrics metrics_dict.

(** *** build_output_dataframe *)

(** A key used as a cell value ([ "label": label ]). *)
Definition value_of_key (k : Key) : PyVal :=
  match k with
  | KStr s => PStr s
  | KNum x => PNum x
  end.

(** [row.update(metrics)] for whatever value [metrics] is: a dictionary is
    merged, the empty string is an empty iterable, any other string fails on
    its first character and a number or boolean is not iterable (the
    message names the type of the value: a number stored in an item is an
    [int], a metric value a [float]). *)
Definition row_update (row : Dict) (metrics : PyVal) : Result Dict :=
  match metrics with
  | PDict metrics => Ok (dict_update row metrics)
  | PStr EmptyString => Ok row
  | PStr _ =>
      Err (ValueError "dictionary update sequence element #0 has length 1; 2 is required")
  | PNum _ => Err (TypeError "'int' object is not iterable")
  | PFloat _ => Err (TypeError "'float' object is not iterable")
  | PBool _ => Err (TypeError "'bool' object is not iterable")
  end.

(** Lines 176-184: the row of one label of one item. *)
Definition build_row (item : Dict) (label : Key) : Result Dict :=
  match dict_get label item with
  | None => Err (KeyError label)
  | Some metrics =>
      match dict_get (KStr "reference") item with
      | None => Err (KeyError (KStr "reference"))
      | Some reference =>
          match dict_get (KStr "prediction") item with
          | None => Err (KeyError (KStr "prediction"))
          | Some prediction =>
              let row := [(KStr "reference", reference);
                          (KStr "prediction", prediction);
                          (KStr "label", value_of_key label)] in
              row_update row metrics
          end
      end
  end.

(** Line 174: the keys of an item that are labels. *)
Definition item_labels (item : Dict) : list Key :=
  filter (fun key => negb (key_in key [KStr "reference"; KStr "prediction"]))
         (dict_keys item).

(** Lines 175-185: the inner loop, appending to [rows]. *)
Fixpoint rows_of_item (item : Dict) (labels : list Key) (rows : list Dict)
  : Result (list Dict) :=
  match labels with
  | [] => Ok rows
  | label :: rest =>
      match build_row item label with
      | Err e => Err e
      | Ok row => rows_of_item item rest (rows ++ [row])
      end
  end.

(** Lines 172-185: the outer loop. *)
Fixpoint build_rows (output_list : list Dict) (rows : list Dict)
  : Result (list Dict) :=
  match output_list with
  | [] => Ok rows
  | item :: rest =>
      match rows_of_item item (item_labels item) rows with
      | Err e => Err e
      | Ok rows => build_rows rest rows
      end
  end.

(** A table: its column names and, per row, one cell per column; [None] is
    the missing-value marker (NaN) of pandas. *)
Record DataFrame : Type := mk_df {
  columns : list Key;
  values : list (list (option PyVal))
}.

(** The columns a row adds to those seen so far, in the row's key order. *)
Definition add_columns (cols : list Key) (row : Dict) : list Key :=
  fold_left (fun cols k => if key_in k cols then cols else cols ++ [k])
            (dict_keys row) cols.

(** [pd.DataFrame(rows)] for a list of dictionaries: the columns are the keys
    in order of first appearance, a row has the missing marker where it lacks
    a column. *)
Definition pd_DataFrame (rows : list Dict) : DataFrame :=
  let columns := fold_left add_columns rows [] in
  {| columns := columns;
     values := map (fun row => map (fun c => dict_get c row) columns) rows |}.

Definition build_output_dataframe (output_list : list Dict) : Result DataFrame :=
  match build_rows output_list [] with
  | Err e => Err e
  | Ok rows => Ok (pd_DataFrame rows)
  end.

(** *** main *)

(** Lines 206-216: the subjects are the pairs
    [(prediction_files[i], reference_files[i])] of the two sorted folders, or
    the single pair of the command line. *)
Fixpoint main_loop (subjects : list (string * string)) (metrics : list string)
  (output_list : list Dict) : M (list Dict) :=
  match subjects with
  | [] => ret output_list
  | (prediction, reference) :: rest =>
      metrics_dict <- compute_metrics_single_subject prediction reference metrics ;;
      main_loop rest metrics (output_list ++ [metrics_dict])
  end.

(** Lines 199-223: the run; its value is the table handed to [to_csv]. *)
Definition main (subjects : list (string * string)) (metrics : list string)
  : M DataFrame :=
  output_list <- main_loop subjects metrics [] ;;
  df <- lift (build_output_dataframe output_list) ;;
  ret df.

(** *** get_images_in_folder *)

(** [os.path.isdir] and [os.listdir] on the folders of a run: [listdir p] is
    the names in the directory [p], in the arbitrary order the system lists
    them.  [get_images_in_folder] is only called on two paths for which
    [isdir] holds (line 202). *)
Variable isdir : string -> bool.
Variable listdir : string -> list string.

Definition count_mismatch_message (prediction_files reference_files : list string)
  : string :=
  ("The number of files in the directories is different. "
   ++ "Prediction files: " ++ repr_nat (List.length prediction_files)
   ++ ", Reference files: " ++ repr_nat (List.length reference_files))%string.

Definition get_images_in_folder (prediction reference : string)
  : Result (list string * list string) :=
  let prediction_files :=
    map (fun f => path_join prediction f)
        (filter (fun f => endswith f ".nii.gz") (listdir prediction)) in
  let reference_files :=
    map (fun f => path_join reference f)
        (filter (fun f => endswith f ".nii.gz") (listdir reference)) in
  if negb (Nat.eqb (List.length prediction_files) (List.length reference_files)) then
    Err (ValueError (count_mismatch_message prediction_files reference_files))
  else
    Ok (py_sort prediction_files, py_sort reference_files).

(** The names of a folder that the listing keeps. *)
Definition nii_gz_files (folder : string) : list string :=
  filter (fun f => endswith f ".nii.gz") (listdir folder).

(** The order of [l.sort()] on strings. *)
Definition str_le (a b : string) : Prop := String.leb a b = true.

(** *** main, from the command-line arguments *)

(** Lines 199-223 with the dispatch of line 202: two folders are listed and
    their files paired by position, [range(len(prediction_files))] indexing
    both lists, which have the same length when [get_images_in_folder]
    returns; anything else is one pair of files. *)
Definition main_args (prediction reference : string) (metrics : list string)
  : M DataFrame :=
  if (isdir prediction && isdir reference)%bool then
    files <- lift (get_images_in_folder prediction reference) ;;
    let (prediction_files, reference_files) := (files : list string * list string) in
    main (combine prediction_files reference_files) metrics
  else
    main [(prediction, reference)] metrics.

(* ------------------------------------------------------------------ *)
(** ** The specification's formulations *)

(** Specification 4.4, steps 3 and 4 as an explicit conditional: every label
    of the discovered set is evaluated in order, without a sentinel. *)
Fixpoint evaluate_each_label (prediction_data reference_data : ndarray)
  (metrics : list string) (labels : list float64) (result : Dict) : M Dict :=
  match labels with
  | [] => ret result
  | label :: rest =>
      bpm <- call_BPM (eq_mask prediction_data label)
                      (eq_mask reference_data label) metrics ;;
      evaluate_each_label prediction_data reference_data metrics rest
        (dict_set (KNum label) (PDict (dict_seg_of bpm)) result)
  end.

Definition evaluate_subject_explicit
  (prediction reference : string) (metrics : list string) : M Dict :=
  prediction_data <- load_nifti_image prediction ;;
  reference_data <- load_nifti_image reference ;;
  if negb (shape_eqb (shape prediction_data) (shape reference_data)) then
    raise (ValueError (shape_mismatch_message prediction_data reference_data))
  else
    let L := unique_labels reference_data prediction_data in
    let tagged :=
      [(KStr "reference", PStr reference); (KStr "prediction", PStr prediction)] in
    match L with
    | [] =>
        bpm <- call_BPM prediction_data reference_data metrics ;;
        ret (dict_set (KNum 0) (PDict (dict_seg_of bpm)) tagged)
    | _ => evaluate_each_label prediction_data reference_data metrics L tagged
    end.

(** The entries the labels of a subject contribute, engine state threaded
    from left to right. *)
Fixpoint label_entries (prediction_data reference_data : ndarray)
  (metrics : list string) (labels : list float64) (w : World) : Dict * World :=
  match labels with
  | [] => ([], w)
  | label :: rest =>
      let (bpm, w1) := BPM (eq_mask prediction_data label)
                           (eq_mask reference_data label) metrics w in
      let (es, w2) := label_entries prediction_data reference_data metrics rest w1 in
      ((KNum label, PDict (dict_seg_of bpm)) :: es, w2)
  end.

(** The numbers of a list of labels. *)
Definition numbers (labels : list float64) : list float64 :=
  filter (fun x => negb (is_nan x)) labels.

(** The labels hold a number. *)
Definition has_number (labels : list float64) : bool :=
  existsb (fun x => negb (is_nan x)) labels.

(** The label keys of a subject's result: the discovered labels, or the
    reserved key 0 when there is none. *)
Definition result_labels (reference_data prediction_data : ndarray) : list float64 :=
  match unique_labels reference_data prediction_data with
  | [] => [Num 0]
  | L => L
  end.

(** Ascending order of labels: numbers by value, NaN after every number. *)
Definition float_lt (a b : float64) : Prop := sorts_before a b = true.

(** A volume without NaN voxels. *)
Definition nan_free (V : ndarray) : Prop := ~ In NaN (data V).

(** Specification 8, round trip: a volume of background in which the voxels
    selected by a mask are assigned a label. *)
Definition assign_where (mask : list float64) (label : float64) (acc : list float64)
  : list float64 :=
  map (fun mv => if float_eqb (fst mv) 0 then snd mv else label) (combine mask acc).

Definition reconstruct (V : ndarray) (labels : list float64) : list float64 :=
  fold_left (fun acc label => assign_where (data (eq_mask V label)) label acc)
            labels (map (fun _ => Num 0) (data V)).

(** The label keys a run produces for a subject given by its two paths. *)
Definition subject_labels (prediction reference : string) : list float64 :=
  match nib_files (abspath reference), nib_files (abspath prediction) with
  | Some reference_data, Some prediction_data =>
      result_labels reference_data prediction_data
  | _, _ => []
  end.

(** Specification 3, data model: a subject whose two volumes exist and
    agree in shape. *)
Definition same_shaped (subject : string * string) : Prop :=
  exists pv rv : ndarray,
    nib_files (abspath (fst subject)) = Some pv
    /\ nib_files (abspath (snd subject)) = Some rv
    /\ shape pv = shape rv.

(** A subject none of whose volumes holds a NaN voxel. *)
Definition nan_free_subject (subject : string * string) : Prop :=
  forall V : ndarray,
    nib_files (abspath (fst subject)) = Some V
    \/ nib_files (abspath (snd subject)) = Some V ->
    nan_free V.

(** Specification 3, data model: the identifying fields of a table row. *)
Definition reserved_fields : list Key :=
  [KStr "reference"; KStr "prediction"; KStr "label"].

(** Specification 3, data model: a Metric Record is a mapping of metric names
    followed by the two flags [EmptyRef] and [EmptyPred]; being a mapping,
    its field names are distinct, and none is an identifying field. *)
Definition MetricRecord (record : Dict) : Prop :=
  exists (fields : Dict) (empty_ref empty_pred : bool),
    record = fields ++ [(KStr "EmptyRef", PBool empty_ref);
                        (KStr "EmptyPred", PBool empty_pred)]
    /\ NoDup (dict_keys record)
    /\ (forall k, In k (dict_keys record) -> ~ In k reserved_fields).

(** Specification 3, data model: a Subject Result is tagged with the two file
    identities and maps distinct label keys to Metric Records. *)
Definition SubjectResult (item : Dict) : Prop :=
  exists (reference prediction : string) (entries : list (float64 * Dict)),
    item = (KStr "reference", PStr reference)
           :: (KStr "prediction", PStr prediction)
           :: map (fun e => (KNum (fst e), PDict (snd e))) entries
    /\ NoDup (map fst entries)
    /\ Forall (fun e => MetricRecord (snd e)) entries.

(** Specification 4.5: the row of a label of a Subject Result combines
    reference, prediction and label with the fields of the label's record. *)
Definition field_of (item : Dict) (k : Key) : PyVal :=
  match dict_get k item with
  | Some v => v
  | None => PStr ""
  end.

Definition record_of (item : Dict) (label : Key) : Dict :=
  match dict_get label item with
  | Some (PDict record) => record
  | _ => []
  end.

Definition table_row (item : Dict) (label : Key) : Dict :=
  [(KStr "reference", field_of item (KStr "reference"));
   (KStr "prediction", field_of item (KStr "prediction"));
   (KStr "label", value_of_key label)] ++ record_of item label.

Definition table_rows (output_list : list Dict) : list Dict :=
  flat_map (fun item => map (table_row item) (item_labels item)) output_list.

(** Specification 3 and 4.5, with the content of the Subject Results spelled
    out: a Subject Result is given by its reference, its prediction and its
    entries, label by label in the order it holds them; the table has, for
    every subject and every entry, the row of reference, prediction and label
    followed by the fields of the entry's record. *)
Definition subject_result (content : string * string * list (float64 * Dict)) : Dict :=
  let '(reference, prediction, entries) := content in
  (KStr "reference", PStr reference)
  :: (KStr "prediction", PStr prediction)
  :: map (fun e => (KNum (fst e), PDict (snd e))) entries.

Definition well_formed (content : string * string * list (float64 * Dict)) : Prop :=
  NoDup (map fst (snd content))
  /\ Forall (fun e => MetricRecord (snd e)) (snd content).

Definition expected_rows (contents : list (string * string * list (float64 * Dict)))
  : list Dict :=
  flat_map (fun content =>
              let '(reference, prediction, entries) := content in
              map (fun e => (KStr "reference", PStr reference)
                            :: (KStr "prediction", PStr prediction)
                            :: (KStr "label", PNum (fst e))
                            :: snd e)
                  entries)
           contents.

(** [df[c].tolist()]: the cells of a column, top to bottom. *)
Fixpoint index_of (c : Key) (cols : list Key) : option nat :=
  match cols with
  | [] => None
  | c' :: rest =>
      if key_eqb c c' then Some O
      else match index_of c rest with
           | Some j => Some (S j)
           | None => None
           end
  end.

Definition df_column (df : DataFrame) (c : Key) : list (option PyVal) :=
  match index_of c (columns df) with
  | Some j => map (fun cells => nth j cells None) (values df)
  | None => []
  end.

(** Specification 3, data model: a volume is all background. *)
Definition all_background (V : ndarray) : Prop :=
  Forall (fun x => x = Num 0) (data V).

(** Specification 3: the mask of a label contains no true voxel. *)
Definition empty_mask (mask : ndarray) : bool :=
  forallb (fun x => float_eqb x 0) (data mask).

(* ------------------------------------------------------------------ *)
(** ** A concrete engine and file store

    Used to run the program on the scenarios of the specification: the engine
    state counts the invocations, the engine knows the metrics [dsc] and
    [nsd] and answers those that are requested, each with the number of
    voxels set in both masks, and the flags tell an all-zero mask. *)

Definition demo_overlap (p r : ndarray) : Z :=
  Z.of_nat (List.length (filter (fun pr => negb (float_eqb (fst pr) 0)
                                           && negb (float_eqb (snd pr) 0))
                                (combine (data p) (data r)))).

Definition demo_BPM (p r : ndarray) (metrics : list string) (calls : nat)
  : BPMObj Z * nat :=
  ({| to_dict_meas :=
        map (fun name => (KStr name, PFloat (demo_overlap p r)))
            (filter (fun name => existsb (String.eqb name) metrics) ["dsc"; "nsd"]);
      flag_empty_ref := empty_mask r;
      flag_empty_pred := empty_mask p |}, S calls).

Definition demo_abspath (p : string) : string := ("/data/" ++ p)%string.

Definition demo_A_ref : ndarray := {| shape := [2; 2; 1]%nat; data := [Num 1; Num 2; Num 0; Num 1] |}.
Definition demo_A_pred : ndarray := {| shape := [2; 2; 1]%nat; data := [Num 1; Num 0; Num 3; Num 1] |}.
Definition demo_B_ref : ndarray :=
  {| shape := [4; 4; 4]%nat; data := repeat (Num 0) 64 |}.
Definition demo_B_pred : ndarray :=
  {| shape := [4; 4; 4]%nat; data := repeat (Num 0) 64 |}.
Definition demo_C_ref : ndarray :=
  {| shape := [4; 4; 4]%nat; data := repeat (Num 0) 64 |}.
Definition demo_C_pred : ndarray :=
  {| shape := [4; 4; 5]%nat; data := repeat (Num 0) 80 |}.
(** Volumes with a NaN voxel: NaN alone, and NaN beside the label 1. *)
Definition demo_N_ref : ndarray := {| shape := [2; 2]%nat; data := [NaN; Num 0; Num 0; Num 0] |}.
Definition demo_N_pred : ndarray := {| shape := [2; 2]%nat; data := [Num 0; Num 0; Num 0; Num 0] |}.
Definition demo_M_ref : ndarray := {| shape := [2; 2]%nat; data := [NaN; Num 1; Num 0; Num 0] |}.
Definition demo_M_pred : ndarray := {| shape := [2; 2]%nat; data := [Num 0; Num 0; Num 0; Num 0] |}.

Definition demo_files (p : string) : option ndarray :=
  if String.eqb p "/data/A_ref.nii.gz" then Some demo_A_ref
  else if String.eqb p "/data/A_pred.nii.gz" then Some demo_A_pred
  else if String.eqb p "/data/B_ref.nii.gz" then Some demo_B_ref
  else if String.eqb p "/data/B_pred.nii.gz" then Some demo_B_pred
  else if String.eqb p "/data/C_ref.nii.gz" then Some demo_C_ref
  else if String.eqb p "/data/C_pred.nii.gz" then Some demo_C_pred
  else if String.eqb p "/data/N_ref.nii.gz" then Some demo_N_ref
  else if String.eqb p "/data/N_pred.nii.gz" then Some demo_N_pred
  else if String.eqb p "/data/M_ref.nii.gz" then Some demo_M_ref
  else if String.eqb p "/data/M_pred.nii.gz" then Some demo_M_pred
  else None.

Definition demo_metrics : list string := ["dsc"; "nsd"].

(** Scenario A: reference labels 1 and 2, prediction labels 1 and 3. *)
Definition demo_A : string * string := ("A_pred.nii.gz", "A_ref.nii.gz").
(** Scenario B: both volumes all background. *)
Definition demo_B : string * string := ("B_pred.nii.gz", "B_ref.nii.gz").
(** Scenario C: shapes (4, 4, 5) and (4, 4, 4). *)
Definition demo_C : string * string := ("C_pred.nii.gz", "C_ref.nii.gz").
(** A reference whose only non-zero voxel is NaN, and one that also holds the
    label 1; the predictions are all background. *)
Definition demo_N : string * string := ("N_pred.nii.gz", "N_ref.nii.gz").
Definition demo_M : string * string := ("M_pred.nii.gz", "M_ref.nii.gz").

(** The Subject Results of scenarios A and B. *)
Definition demo_output_list :=
  [ [(KStr "reference", PStr "A_ref.nii.gz");
     (KStr "prediction", PStr "A_pred.nii.gz");
     (KNum 1, PDict [(KStr "dsc", PFloat 2%Z); (KStr "nsd", PFloat 2%Z);
                     (KStr "EmptyRef", PBool false);
                     (KStr "EmptyPred", PBool false)]);
     (KNum 2, PDict [(KStr "dsc", PFloat 0%Z); (KStr "nsd", PFloat 0%Z);
                     (KStr "EmptyRef", PBool false);
                     (KStr "EmptyPred", PBool true)]);
     (KNum 3, PDict [(KStr "dsc", PFloat 0%Z); (KStr "nsd", PFloat 0%Z);
                     (KStr "EmptyRef", PBool true);
                     (KStr "EmptyPred", PBool false)])];
    [(KStr "reference", PStr "B_ref.nii.gz");
     (KStr "prediction", PStr "B_pred.nii.gz");
     (KNum 0, PDict [(KStr "dsc", PFloat 0%Z); (KStr "nsd", PFloat 0%Z);
                     (KStr "EmptyRef", PBool true);
                     (KStr "EmptyPred", PBool true)])] ].

(** Two Subject Results whose records carry different metric names. *)
Definition demo_heterogeneous :=
  [ [(KStr "reference", PStr "A_ref.nii.gz");
     (KStr "prediction", PStr "A_pred.nii.gz");
     (KNum 1, PDict [(KStr "dsc", PFloat 2%Z);
                     (KStr "EmptyRef", PBool false);
                     (KStr "EmptyPred", PBool false)])];
    [(KStr "reference", PStr "B_ref.nii.gz");
     (KStr "prediction", PStr "B_pred.nii.gz");
     (KNum 0, PDict [(KStr "nsd", PFloat 0%Z);
                     (KStr "EmptyRef", PBool true);
                     (KStr "EmptyPred", PBool true)])] ].

(** The content of a Subject Result that holds the label 2 before the
    label 1. *)
Definition demo_unsorted :=
  ("A_ref.nii.gz"%string, "A_pred.nii.gz"%string,
   [(Num 2, [(KStr "dsc", PFloat 0%Z);
             (KStr "EmptyRef", PBool false); (KStr "EmptyPred", PBool true)]);
    (Num 1, [(KStr "dsc", PFloat 2%Z);
             (KStr "EmptyRef", PBool false); (KStr "EmptyPred", PBool false)])]).

(** The contents of the Subject Results of scenarios A and B. *)
Definition demo_contents :=
  [ ("A_ref.nii.gz"%string, "A_pred.nii.gz"%string,
     [(Num 1, [(KStr "dsc", PFloat 2%Z); (KStr "nsd", PFloat 2%Z);
               (KStr "EmptyRef", PBool false); (KStr "EmptyPred", PBool false)]);
      (Num 2, [(KStr "dsc", PFloat 0%Z); (KStr "nsd", PFloat 0%Z);
               (KStr "EmptyRef", PBool false); (KStr "EmptyPred", PBool true)]);
      (Num 3, [(KStr "dsc", PFloat 0%Z); (KStr "nsd", PFloat 0%Z);
               (KStr "EmptyRef", PBool true); (KStr "EmptyPred", PBool false)])]);
    ("B_ref.nii.gz"%string, "B_pred.nii.gz"%string,
     [(Num 0, [(KStr "dsc", PFloat 0%Z); (KStr "nsd", PFloat 0%Z);
               (KStr "EmptyRef", PBool true); (KStr "EmptyPred", PBool true)])]) ].

(** Three folders: predictions, references listed in another order, and a
    reference folder that misses a file. *)
Definition demo_isdir (p : string) : bool :=
  (String.eqb p "preds" || String.eqb p "refs" || String.eqb p "refs_short")%bool.

Definition demo_listdir (p : string) : list string :=
  if String.eqb p "preds" then ["sub-02.nii.gz"; "notes.txt"; "sub-01.nii.gz"]
  else if String.eqb p "refs" then ["sub-01.nii.gz"; "sub-02.nii.gz"; "README"]
  else if String.eqb p "refs_short" then ["sub-01.nii.gz"]
  else [].

(** A Subject Result that lost its reference tag, and a record that has a
    field called label. *)
Definition demo_untagged :=
  [(KStr "prediction", PStr "A_pred.nii.gz");
   (KNum 1, PDict [(KStr "dsc", PFloat 2%Z)])].

Definition demo_label_field :=
  [(KStr "reference", PStr "A_ref.nii.gz");
   (KStr "prediction", PStr "A_pred.nii.gz");
   (KNum 1, PDict [(KStr "dsc", PFloat 2%Z); (KStr "label", PStr "cord")])].

(* ------------------------------------------------------------------ *)
(** ** Facts about dictionaries *)

Unset Implicit Arguments.
Set Default Proof Using "Type".

Lemma same_value_eq (a b : float64) : same_value a b = true <-> a = b.
Proof.
  destruct a as [x|], b as [y|]; simpl; split; intro H;
    try discriminate; try reflexivity.
  - apply Z.eqb_eq in H. now subst.
  - inversion H. apply Z.eqb_refl.
Qed.

Lemma key_eqb_eq (a b : Key) : key_eqb a b = true <-> a = b.
Proof.
  destruct a as [s|x], b as [t|y]; simpl; split; intro H; try discriminate.
  - apply String.eqb_eq in H. now subst.
  - inversion H. apply String.eqb_refl.
  - apply same_value_eq in H. now subst.
  - inversion H. now apply same_value_eq.
Qed.

Lemma key_eqb_refl (a : Key) : key_eqb a a = true.
Proof. now apply key_eqb_eq. Qed.

Lemma key_eqb_neq (a b : Key) : key_eqb a b = false <-> a <> b.
Proof.
  rewrite <- key_eqb_eq. destruct (key_eqb a b); split; congruence.
Qed.

Lemma key_in_In (k : Key) (ks : list Key) : key_in k ks = true <-> In k ks.
Proof.
  unfold key_in. rewrite existsb_exists. split.
  - intros [x [Hin Hx]]. apply key_eqb_eq in Hx. now subst.
  - intro Hin. exists k. split; [assumption | apply key_eqb_refl].
Qed.

Lemma key_in_false (k : Key) (ks : list Key) : key_in k ks = false <-> ~ In k ks.
Proof.
  rewrite <- key_in_In. destruct (key_in k ks); split; congruence.
Qed.

Section DictFacts.
Variable V : Type.
Implicit Types (d : list (Key * V)) (k : Key) (v : V).

Lemma dict_set_fresh k v d :
  ~ In k (dict_keys d) -> dict_set k v d = d ++ [(k, v)].
Proof.
  induction d as [|[k' v'] t IH]; simpl; intro Hk; [reflexivity|].
  destruct (key_eqb k k') eqn:E.
  - apply key_eqb_eq in E. subst. exfalso. apply Hk. now left.
  - rewrite IH; [reflexivity|]. intro Hin. apply Hk. now right.
Qed.

Lemma dict_keys_app d1 d2 : dict_keys (d1 ++ d2) = dict_keys d1 ++ dict_keys d2.
Proof. unfold dict_keys. apply map_app. Qed.

Lemma dict_get_set_same k v d : dict_get k (dict_set k v d) = Some v.
Proof.
  induction d as [|[k' v'] t IH]; simpl.
  - now rewrite key_eqb_refl.
  - destruct (key_eqb k k') eqn:E; simpl; rewrite E; [reflexivity | exact IH].
Qed.

Lemma dict_get_set_other k k' v d :
  k <> k' -> dict_get k (dict_set k' v d) = dict_get k d.
Proof.
  intro Hne. induction d as [|[k0 v0] t IH]; simpl.
  - apply key_eqb_neq in Hne. now rewrite Hne.
  - destruct (key_eqb k' k0) eqn:E; simpl.
    + apply key_eqb_eq in E. subst k0.
      apply key_eqb_neq in Hne. now rewrite Hne.
    + now rewrite IH.
Qed.

Lemma dict_get_None k d : ~ In k (dict_keys d) -> dict_get k d = None.
Proof.
  induction d as [|[k' v'] t IH]; simpl; intro Hk; [reflexivity|].
  destruct (key_eqb k k') eqn:E.
  - apply key_eqb_eq in E. subst. exfalso. apply Hk. now left.
  - apply IH. intro Hin. apply Hk. now right.
Qed.

Lemma dict_get_In k d v :
  NoDup (dict_keys d) -> In (k, v) d -> dict_get k d = Some v.
Proof.
  induction d as [|[k' v'] t IH]; simpl; intros Hnd Hin; [contradiction|].
  inversion Hnd as [|? ? Hnotin Hnd']; subst.
  destruct Hin as [Heq | Hin].
  - inversion Heq; subst. now rewrite key_eqb_refl.
  - destruct (key_eqb k k') eqn:E.
    + apply key_eqb_eq in E. subst. exfalso. apply Hnotin.
      change (In (fst (k', v)) (map fst t)). now apply in_map.
    + now apply IH.
Qed.

(** Merging a dictionary whose keys are new and pairwise distinct appends it. *)
Lemma dict_update_fresh d other :
  NoDup (dict_keys other) ->
  (forall k, In k (dict_keys other) -> ~ In k (dict_keys d)) ->
  dict_update d other = d ++ other.
Proof.
  unfold dict_update. revert d.
  induction other as [|[k v] t IH]; simpl; intros d Hnd Hfresh.
  - now rewrite app_nil_r.
  - inversion Hnd as [|? ? Hnotin Hnd']; subst.
    rewrite dict_set_fresh by (apply Hfresh; now left).
    rewrite IH; [now rewrite <- app_assoc | assumption |].
    intros k' Hk' Hin. rewrite dict_keys_app in Hin. apply in_app_or in Hin.
    destruct Hin as [Hin | [Heq | []]].
    + apply (Hfresh k'); [now right | assumption].
    + subst k'. now apply Hnotin.
Qed.

End DictFacts.

(* ------------------------------------------------------------------ *)
(** ** Facts about [np_unique], [remove_background] and [py_max] *)

Lemma float_lt_trans (a b c : float64) : float_lt a b -> float_lt b c -> float_lt a c.
Proof.
  unfold float_lt. destruct a, b, c; simpl; try discriminate; try reflexivity.
  rewrite !Z.ltb_lt. lia.
Qed.

Lemma float_lt_irrefl (a : float64) : ~ float_lt a a.
Proof.
  unfold float_lt. destruct a; simpl; [rewrite Z.ltb_irrefl|]; discriminate.
Qed.

Lemma float_lt_asym (a b : float64) : float_lt a b -> float_lt b a -> False.
Proof. intros H1 H2. apply (float_lt_irrefl a). now apply (float_lt_trans a b a). Qed.

Lemma float_lt_total (a b : float64) :
  sorts_before a b = false -> same_value a b = false -> float_lt b a.
Proof.
  unfold float_lt. destruct a, b; simpl; try discriminate; try reflexivity.
  rewrite Z.ltb_ge, Z.eqb_neq, Z.ltb_lt. lia.
Qed.

Lemma float_lt_Num (x y : Z) : float_lt (Num x) (Num y) <-> x < y.
Proof. unfold float_lt. simpl. apply Z.ltb_lt. Qed.

Lemma float_lt_NaN (a : float64) : ~ float_lt NaN a.
Proof. unfold float_lt. simpl. discriminate. Qed.

Lemma float_eqb_eq (a b : float64) : float_eqb a b = true <-> a = b /\ a <> NaN.
Proof.
  destruct a as [x|], b as [y|]; simpl; split; try discriminate.
  - intro H. apply Z.eqb_eq in H. subst. split; [reflexivity | discriminate].
  - intros [H _]. inversion H. apply Z.eqb_refl.
  - intros [H _]. discriminate.
  - intros [_ H]. now contradiction H.
  - intros [_ H]. now contradiction H.
Qed.

Lemma float_eqb_zero (a : float64) : float_eqb a 0 = false <-> a <> Num 0.
Proof.
  destruct a as [x|]; simpl.
  - rewrite Z.eqb_neq. split; intro H; [intro E; inversion E; contradiction | intro E; subst; now apply H].
  - split; [discriminate | reflexivity].
Qed.

Lemma insert_unique_In (x y : float64) (l : list float64) :
  In y (insert_unique x l) <-> y = x \/ In y l.
Proof.
  induction l as [|a t IH]; simpl.
  - intuition.
  - destruct (sorts_before x a) eqn:Hlt; [simpl; intuition|].
    destruct (same_value x a) eqn:Heq.
    + apply same_value_eq in Heq. subst. simpl. intuition.
    + simpl. rewrite IH. intuition.
Qed.

Lemma insert_unique_HdRel (x a : float64) (l : list float64) :
  float_lt a x -> HdRel float_lt a l -> HdRel float_lt a (insert_unique x l).
Proof.
  intros Hax Hhd. destruct l as [|b t]; simpl.
  - now constructor.
  - inversion Hhd; subst.
    destruct (sorts_before x b); [now constructor|].
    destruct (same_value x b); now constructor.
Qed.

Lemma insert_unique_Sorted (x : float64) (l : list float64) :
  Sorted float_lt l -> Sorted float_lt (insert_unique x l).
Proof.
  induction l as [|a t IH]; simpl; intro Hs.
  - repeat constructor.
  - inversion Hs as [|? ? Hs' Hhd]; subst.
    destruct (sorts_before x a) eqn:Hlt.
    + constructor; [assumption | now constructor].
    + destruct (same_value x a) eqn:Heq; [assumption|].
      constructor; [now apply IH|].
      apply insert_unique_HdRel; [now apply float_lt_total | assumption].
Qed.

Lemma np_unique_In (x : float64) (a : list float64) : In x (np_unique a) <-> In x a.
Proof.
  induction a as [|y t IH]; simpl; [reflexivity|].
  rewrite insert_unique_In, IH. intuition.
Qed.

Lemma np_unique_sorted (a : list float64) : StronglySorted float_lt (np_unique a).
Proof.
  apply Sorted_StronglySorted; [intros x y z; apply float_lt_trans|].
  induction a as [|y t IH]; simpl; [constructor|].
  now apply insert_unique_Sorted.
Qed.

Lemma StronglySorted_lt_NoDup (l : list float64) : StronglySorted float_lt l -> NoDup l.
Proof.
  induction 1 as [|a t Hs IH Hall]; constructor; [|assumption].
  intro Hin. rewrite Forall_forall in Hall. specialize (Hall a Hin).
  now apply (float_lt_irrefl a).
Qed.

(** A sorted duplicate-free list is determined by its elements. *)
Lemma StronglySorted_lt_ext (l1 l2 : list float64) :
  StronglySorted float_lt l1 -> StronglySorted float_lt l2 ->
  (forall x, In x l1 <-> In x l2) -> l1 = l2.
Proof.
  intro H1. revert l2.
  induction H1 as [|a t1 Hs1 IH Hall1]; intros l2 H2 Hext.
  - destruct l2 as [|b t2]; [reflexivity|].
    exfalso. apply (proj2 (Hext b)). now left.
  - destruct l2 as [|b t2].
    + exfalso. apply (proj1 (Hext a)). now left.
    + inversion H2 as [|? ? Hs2 Hall2]; subst.
      rewrite Forall_forall in Hall1, Hall2.
      assert (a = b) as ->.
      { destruct (proj1 (Hext a) (or_introl eq_refl)) as [Hba | Hin2];
          [now symmetry|].
        destruct (proj2 (Hext b) (or_introl eq_refl)) as [Hab | Hin1];
          [assumption|].
        exfalso. apply (float_lt_asym a b); [now apply Hall1 | now apply Hall2]. }
      f_equal. apply IH; [assumption|].
      intro x. split; intro Hin.
      * destruct (proj1 (Hext x) (or_intror Hin)) as [Heq | Hin2]; [|assumption].
        subst x. exfalso. apply (float_lt_irrefl b). now apply Hall1.
      * destruct (proj2 (Hext x) (or_intror Hin)) as [Heq | Hin1]; [|assumption].
        subst x. exfalso. apply (float_lt_irrefl b). now apply Hall2.
Qed.

Lemma remove_background_In (x : float64) (u : list float64) :
  In x (remove_background u) <-> In x u /\ x <> 0.
Proof.
  unfold remove_background. rewrite filter_In.
  rewrite negb_true_iff, float_eqb_zero. reflexivity.
Qed.

Lemma remove_background_sorted (u : list float64) :
  StronglySorted float_lt u -> StronglySorted float_lt (remove_background u).
Proof.
  induction 1 as [|a t Hs IH Hall]; simpl; [constructor|].
  destruct (negb (float_eqb a 0)); [|assumption].
  constructor; [assumption|].
  rewrite Forall_forall in *. intros x Hx.
  apply remove_background_In in Hx. now apply Hall.
Qed.

Lemma unique_labels_In (R P : ndarray) (x : float64) :
  In x (unique_labels R P) <-> x <> 0 /\ (In x (data R) \/ In x (data P)).
Proof.
  unfold unique_labels. rewrite np_unique_In, in_app_iff.
  rewrite !remove_background_In, !np_unique_In.
  split.
  - intros [[H Hx] | [H Hx]]; split; auto.
  - intros [Hx [H | H]]; [left | right]; split; assumption.
Qed.

Lemma unique_labels_sorted (R P : ndarray) : StronglySorted float_lt (unique_labels R P).
Proof. apply np_unique_sorted. Qed.

Lemma unique_labels_nan_free (R P : ndarray) :
  nan_free R -> nan_free P -> ~ In NaN (unique_labels R P).
Proof.
  intros HR HP Hin. apply unique_labels_In in Hin.
  destruct Hin as [_ [Hin | Hin]]; [now apply HR | now apply HP].
Qed.

(** [max] started on a number keeps a number: a NaN met later is not [>]
    anything. *)
Lemma fold_max_num (t : list float64) :
  forall x : Z,
    exists M : Z,
      fold_left (fun m y => if float_gtb y m then y else m) t (Num x) = Num M
      /\ (M = x \/ In (Num M) t) /\ x <= M
      /\ (forall y : Z, In (Num y) t -> y <= M).
Proof.
  induction t as [|a t IH]; intro x; simpl.
  - exists x. repeat split; [now left | lia | intros y []].
  - destruct a as [z|]; simpl.
    + destruct (z >? x) eqn:Hgt.
      * apply Z.gtb_lt in Hgt. destruct (IH z) as [M [HM [Hin [Hle Hall]]]].
        exists M. split; [exact HM|]. split; [|split; [lia|]].
        -- right. destruct Hin as [-> | Hin]; [now left | now right].
        -- intros y [Hy | Hy]; [inversion Hy; subst; assumption | now apply Hall].
      * assert (z <= x) by (rewrite Z.gtb_ltb in Hgt; now apply Z.ltb_ge in Hgt).
        destruct (IH x) as [M [HM [Hin [Hle Hall]]]].
        exists M. split; [exact HM|]. split; [|split; [assumption|]].
        -- destruct Hin as [-> | Hin]; [now left | right; now right].
        -- intros y [Hy | Hy]; [inversion Hy; subst; lia | now apply Hall].
    + destruct (IH x) as [M [HM [Hin [Hle Hall]]]].
      exists M. split; [exact HM|]. split; [|split; [assumption|]].
      * destruct Hin as [-> | Hin]; [now left | right; now right].
      * intros y [Hy | Hy]; [discriminate | now apply Hall].
Qed.

Lemma sorted_NaN_last (t : list float64) : StronglySorted float_lt (NaN :: t) -> t = [].
Proof.
  intro Hs. inversion Hs as [|? ? _ Hall]; subst.
  destruct t as [|b t]; [reflexivity|].
  inversion Hall as [|? ? Hb _]; subst. now apply float_lt_NaN in Hb.
Qed.

(** On the sorted labels, as soon as they hold a number, [max] is the
    largest number. *)
Lemma py_max_sorted (l : list float64) :
  StronglySorted float_lt l -> (exists m : Z, In (Num m) l) ->
  exists M : Z,
    py_max l = Some (Num M) /\ In (Num M) l /\ (forall y : Z, In (Num y) l -> y <= M).
Proof.
  intros Hs [m Hm]. destruct l as [|a t]; [contradiction|].
  destruct a as [x|].
  - destruct (fold_max_num t x) as [M [HM [Hin [Hle Hall]]]].
    exists M. split; [simpl; now rewrite HM|]. split.
    + destruct Hin as [-> | Hin]; [now left | now right].
    + intros y [Hy | Hy]; [inversion Hy; subst; assumption | now apply Hall].
  - exfalso. rewrite (sorted_NaN_last t Hs) in Hm.
    destruct Hm as [Hm | []]. discriminate.
Qed.

Lemma has_number_In (l : list float64) :
  has_number l = true <-> exists m : Z, In (Num m) l.
Proof.
  unfold has_number. rewrite existsb_exists. split.
  - intros [x [Hin Hx]]. destruct x as [m|]; [now exists m | discriminate].
  - intros [m Hm]. now exists (Num m).
Qed.

Lemma numbers_In (l : list float64) (x : float64) :
  In x (numbers l) <-> In x l /\ x <> NaN.
Proof.
  unfold numbers. rewrite filter_In. destruct x; simpl; split; intros [H1 H2];
    split; try assumption; try discriminate; try reflexivity.
  now contradiction H2.
Qed.

Lemma numbers_nan_free (l : list float64) : ~ In NaN l -> numbers l = l.
Proof.
  unfold numbers. induction l as [|a t IH]; simpl; intro H; [reflexivity|].
  destruct a as [z|]; simpl.
  - f_equal. apply IH. intro Hin. apply H. now right.
  - exfalso. apply H. now left.
Qed.

Lemma has_number_nan_free (l : list float64) :
  ~ In NaN l -> has_number l = match l with [] => false | _ => true end.
Proof.
  destruct l as [|a t]; [reflexivity|]. intro H.
  destruct a as [z|]; [reflexivity|]. exfalso. apply H. now left.
Qed.

Lemma sorted_without_numbers (l : list float64) :
  StronglySorted float_lt l -> has_number l = false -> l = [] \/ l = [NaN].
Proof.
  intros Hs Hnone. destruct l as [|a t]; [now left|]. right.
  destruct a as [z|]; [discriminate|].
  now rewrite (sorted_NaN_last t Hs).
Qed.

(* ------------------------------------------------------------------ *)
(** ** The label loop *)

Lemma StronglySorted_lt_split (pre rest : list float64) (x : float64) :
  StronglySorted float_lt (pre ++ x :: rest) ->
  (forall y, In y pre -> float_lt y x) /\ (forall y, In y rest -> float_lt x y).
Proof.
  induction pre as [|a pre IH]; simpl; intro Hs.
  - inversion Hs as [|? ? _ Hall]; subst. rewrite Forall_forall in Hall.
    split; [contradiction | exact Hall].
  - inversion Hs as [|? ? Hs' Hall]; subst. rewrite Forall_forall in Hall.
    destruct (IH Hs') as [Hpre Hrest]. split; [|assumption].
    intros y [<- | Hy]; [|now apply Hpre].
    apply Hall. apply in_or_app. right. now left.
Qed.

Lemma numbers_after_max (M : Z) (rest : list float64) :
  (forall y, In y rest -> float_lt (Num M) y) ->
  (forall y : Z, In (Num y) rest -> y <= M) ->
  numbers rest = [].
Proof.
  intros Hgt Hle. unfold numbers.
  induction rest as [|a t IH]; simpl; [reflexivity|].
  destruct a as [z|]; simpl.
  - exfalso. assert (float_lt (Num M) (Num z)) as H1 by (apply Hgt; now left).
    apply float_lt_Num in H1. assert (z <= M) by (apply Hle; now left). lia.
  - apply IH; intros y Hy; [apply Hgt | apply Hle]; now right.
Qed.

Section LoopFacts.
Variables prediction_data reference_data : ndarray.
Variable metrics : list string.

Local Notation each_label := (evaluate_each_label prediction_data reference_data metrics).
Local Notation entries := (label_entries prediction_data reference_data metrics).

(** When the sorted duplicate-free labels hold a number, the sentinel fires
    exactly at the largest number: the loop evaluates the remaining numbers
    and leaves through [break], before a NaN that may follow. *)
Lemma for_labels_numbers (rest : list float64) :
  forall (pre : list float64) (d : Dict) (w : World),
    StronglySorted float_lt (pre ++ rest) ->
    (exists m : Z, In (Num m) rest) ->
    for_labels prediction_data reference_data metrics (pre ++ rest) rest d w
    = match each_label (numbers rest) d w with
      | (Ok d', w') => (Ok (d', true), w')
      | (Err e, w') => (Err e, w')
      end.
Proof.
  induction rest as [|label rest IH]; intros pre d w Hs [m Hm]; [contradiction|].
  destruct (py_max_sorted (pre ++ label :: rest) Hs) as [M [Hmax [HinM HallM]]].
  { exists m. apply in_or_app. now right. }
  destruct (StronglySorted_lt_split _ _ _ Hs) as [Hpre Hrest].
  destruct label as [l|].
  2:{ exfalso. destruct Hm as [Hm | Hm]; [discriminate|].
      apply (float_lt_NaN _ (Hrest _ Hm)). }
  change (numbers (Num l :: rest)) with (Num l :: numbers rest).
  cbn [for_labels evaluate_each_label]. unfold bind, call_BPM.
  destruct (BPM (eq_mask prediction_data l) (eq_mask reference_data l)
              metrics w) as [bpm w1].
  rewrite Hmax. cbn [float_eqb].
  destruct (Z.eq_dec l M) as [-> | Hneq].
  - rewrite Z.eqb_refl.
    rewrite (numbers_after_max M rest Hrest)
      by (intros y Hy; apply HallM; apply in_or_app; right; now right).
    reflexivity.
  - apply Z.eqb_neq in Hneq as Hneqb. rewrite Hneqb.
    replace (pre ++ Num l :: rest) with ((pre ++ [Num l]) ++ rest)
      by (now rewrite <- app_assoc).
    apply IH; [now rewrite <- app_assoc|].
    exists M. apply in_app_or in HinM. destruct HinM as [Hin | [Heq | Hin]].
    + exfalso. apply Hpre in Hin. apply float_lt_Num in Hin.
      assert (l <= M) by (apply HallM; apply in_or_app; right; now left). lia.
    + inversion Heq. contradiction.
    + assumption.
Qed.

(** The loop in closed form: it evaluates the numbers and leaves through
    [break] when the labels hold a number; otherwise -- no label, or NaN
    alone, which is not equal to the maximum, itself -- it runs to its end. *)
Lemma for_labels_closed (L : list float64) (d : Dict) (w : World) :
  StronglySorted float_lt L ->
  for_labels prediction_data reference_data metrics L L d w
  = match each_label (if has_number L then numbers L else L) d w with
    | (Ok d', w') => (Ok (d', has_number L), w')
    | (Err e, w') => (Err e, w')
    end.
Proof.
  intro Hs. destruct (has_number L) eqn:E.
  - apply has_number_In in E. apply (for_labels_numbers L [] d w Hs E).
  - destruct (sorted_without_numbers L Hs E) as [-> | ->]; [reflexivity|].
    simpl. unfold bind, call_BPM.
    now destruct (BPM (eq_mask prediction_data NaN) (eq_mask reference_data NaN)
                    metrics w).
Qed.

(** Evaluating distinct labels that are not yet keys appends one entry per
    label, in order. *)
Lemma evaluate_each_label_entries (labels : list float64) :
  forall (d : Dict) (w : World),
    NoDup labels ->
    (forall l, In l labels -> ~ In (KNum l) (dict_keys d)) ->
    each_label labels d w = (Ok (d ++ fst (entries labels w)), snd (entries labels w)).
Proof.
  induction labels as [|label rest IH]; intros d w Hnd Hfresh; simpl.
  - unfold ret. now rewrite app_nil_r.
  - inversion Hnd as [|? ? Hnotin Hnd']; subst.
    unfold bind, call_BPM.
    destruct (BPM (eq_mask prediction_data label) (eq_mask reference_data label)
                metrics w) as [bpm w1].
    rewrite dict_set_fresh by (apply Hfresh; now left).
    rewrite IH; [|assumption|].
    + destruct (entries rest w1) as [es w2]. simpl. now rewrite <- app_assoc.
    + intros l Hl Hin. rewrite dict_keys_app in Hin. apply in_app_or in Hin.
      destruct Hin as [Hin | [Heq | []]].
      * apply (Hfresh l); [now right | assumption].
      * inversion Heq; subst. contradiction.
Qed.

Lemma label_entries_keys (labels : list float64) (w : World) :
  dict_keys (fst (entries labels w)) = map KNum labels.
Proof.
  revert w. induction labels as [|label rest IH]; intro w; simpl; [reflexivity|].
  destruct (BPM _ _ _ w) as [bpm w1]. specialize (IH w1).
  destruct (entries rest w1) as [es w2]. simpl in *. now rewrite IH.
Qed.

End LoopFacts.

(* ------------------------------------------------------------------ *)
(** ** The subject evaluator *)

Lemma unique_labels_background (R P : ndarray) :
  all_background R -> all_background P -> unique_labels R P = [].
Proof.
  unfold all_background. rewrite !Forall_forall. intros HR HP.
  destruct (unique_labels R P) as [|x t] eqn:E; [reflexivity|].
  assert (In x (unique_labels R P)) as Hin by (rewrite E; now left).
  apply unique_labels_In in Hin. destruct Hin as [Hx [Hin | Hin]].
  - now apply HR in Hin.
  - now apply HP in Hin.
Qed.

Lemma bind_ext {A B : Type} (m : M A) (f g : A -> M B) (w : World) :
  (forall a w', m w = (Ok a, w') -> f a w' = g a w') ->
  bind m f w = bind m g w.
Proof.
  intro H. unfold bind. destruct (m w) as [[a|e] w']; [now apply H | reflexivity].
Qed.

Lemma bind_Ok {A B : Type} (m : M A) (f : A -> M B) (w w' : World) (a : A) :
  m w = (Ok a, w') -> bind m f w = f a w'.
Proof. intro H. unfold bind. now rewrite H. Qed.

Lemma NoDup_numbers (l : list float64) : NoDup l -> NoDup (numbers l).
Proof. intro H. unfold numbers. now apply NoDup_filter. Qed.

(** On volumes without NaN the sentinel loop computes what the explicit
    conditional computes. *)
Lemma sentinel_loop_explicit (prediction reference : string)
  (metrics : list string) (w : World) :
  nan_free_subject (prediction, reference) ->
  compute_metrics_single_subject prediction reference metrics w
  = evaluate_subject_explicit prediction reference metrics w.
Proof.
  intro Hfree.
  unfold compute_metrics_single_subject, evaluate_subject_explicit.
  apply bind_ext. intros pv w1 Hpv. apply bind_ext. intros rv w2 Hrv.
  destruct (negb (shape_eqb (shape pv) (shape rv))); [reflexivity|].
  assert (~ In NaN (unique_labels rv pv)) as Hnan.
  { unfold load_nifti_image in Hpv, Hrv.
    destruct (nib_files (abspath prediction)) as [pv'|] eqn:Ep; [|discriminate].
    destruct (nib_files (abspath reference)) as [rv'|] eqn:Er; [|discriminate].
    inversion Hpv; inversion Hrv; subst.
    apply unique_labels_nan_free; apply Hfree; simpl; auto. }
  pose proof (unique_labels_sorted rv pv) as Hs.
  unfold bind at 1. rewrite (for_labels_closed pv rv metrics _ _ w2 Hs).
  rewrite (numbers_nan_free _ Hnan), (has_number_nan_free _ Hnan).
  destruct (unique_labels rv pv) as [|l L] eqn:E.
  - reflexivity.
  - now destruct (evaluate_each_label pv rv metrics (l :: L) _ w2) as [[d'|e] w3].
Qed.

Lemma load_nifti_image_Some (file_path : string) (V : ndarray) (w : World) :
  nib_files (abspath file_path) = Some V ->
  load_nifti_image file_path w = (Ok V, w).
Proof. unfold load_nifti_image. now intros ->. Qed.

Lemma shape_eqb_eq (s t : list nat) : shape_eqb s t = true <-> s = t.
Proof.
  unfold shape_eqb. destruct (list_eq_dec Nat.eq_dec s t); split; congruence.
Qed.

Lemma filter_key_once (k : Key) (ks : list Key) :
  NoDup ks -> In k ks -> List.length (filter (key_eqb k) ks) = 1%nat.
Proof.
  induction 1 as [|a t Ha Hnd IH]; simpl; intro Hin; [contradiction|].
  destruct (key_eqb k a) eqn:E.
  - apply key_eqb_eq in E. subst a. simpl. f_equal.
    assert (filter (key_eqb k) t = []) as ->; [|reflexivity].
    destruct (filter (key_eqb k) t) as [|b u] eqn:F; [reflexivity|].
    exfalso. assert (In b (filter (key_eqb k) t)) as Hb by (rewrite F; now left).
    apply filter_In in Hb. destruct Hb as [Hb Hkb].
    apply key_eqb_eq in Hkb. subst b. contradiction.
  - destruct Hin as [-> | Hin]; [now rewrite key_eqb_refl in E | now apply IH].
Qed.

(** The mask of a number is empty exactly when the number does not occur. *)
Lemma empty_mask_eq_mask (V : ndarray) (label : Z) :
  empty_mask (eq_mask V label) = true <-> ~ In (Num label) (data V).
Proof.
  unfold empty_mask, eq_mask. simpl. rewrite forallb_forall. split.
  - intros H Hin.
    specialize (H (Num 1)).
    assert (In (Num 1) (map (fun x => if float_eqb x label then Num 1 else Num 0)
                            (data V))) as H1.
    { apply in_map_iff. exists (Num label). simpl. now rewrite Z.eqb_refl. }
    apply H in H1. discriminate.
  - intros Hnot x Hx. apply in_map_iff in Hx. destruct Hx as [y [Hy Hin]].
    destruct (float_eqb y label) eqn:E.
    + apply float_eqb_eq in E. destruct E as [E _]. subst y. contradiction.
    + now subst x.
Qed.

Lemma dict_seg_of_flags (bpm : BPMObj Scalar) :
  dict_get (KStr "EmptyRef") (dict_seg_of bpm) = Some (PBool (flag_empty_ref bpm))
  /\ dict_get (KStr "EmptyPred") (dict_seg_of bpm) = Some (PBool (flag_empty_pred bpm)).
Proof.
  unfold dict_seg_of. split.
  - rewrite dict_get_set_other by discriminate. apply dict_get_set_same.
  - apply dict_get_set_same.
Qed.

Section OneSubject.
Variables prediction reference : string.
Variable metrics : list string.
Variables prediction_data reference_data : ndarray.
Hypothesis prediction_loaded : nib_files (abspath prediction) = Some prediction_data.
Hypothesis reference_loaded : nib_files (abspath reference) = Some reference_data.

Local Notation tagged :=
  [(KStr "reference", PStr reference); (KStr "prediction", PStr prediction)].
Local Notation entries := (label_entries prediction_data reference_data metrics).

(** The result of a same-shaped pair, in closed form: when the discovered
    labels hold a number, one entry per number; otherwise one entry per
    label -- there is none, or NaN alone -- and the entry of the [else]
    block under key 0. *)
Lemma compute_metrics_single_subject_ok (w : World) :
  shape prediction_data = shape reference_data ->
  compute_metrics_single_subject prediction reference metrics w
  = let L := unique_labels reference_data prediction_data in
    if has_number L then
      (Ok (tagged ++ fst (entries (numbers L) w)), snd (entries (numbers L) w))
    else
      (Ok (tagged ++ fst (entries L w)
             ++ [(KNum 0, PDict (dict_seg_of
                    (fst (BPM prediction_data reference_data metrics
                              (snd (entries L w))))))]),
       snd (BPM prediction_data reference_data metrics (snd (entries L w)))).
Proof using Type reference_loaded prediction_loaded.
  intro Hshape. unfold compute_metrics_single_subject.
  rewrite (bind_Ok _ _ _ _ _ (load_nifti_image_Some _ _ w prediction_loaded)).
  rewrite (bind_Ok _ _ _ _ _ (load_nifti_image_Some _ _ w reference_loaded)).
  apply shape_eqb_eq in Hshape. rewrite Hshape. cbn [negb].
  pose proof (unique_labels_sorted reference_data prediction_data) as Hs.
  pose proof (StronglySorted_lt_NoDup _ Hs) as Hnd.
  assert (~ In (Num 0) (unique_labels reference_data prediction_data)) as Hzero
    by (intro H; apply unique_labels_In in H; now destruct H).
  cbv zeta. unfold bind at 1.
  rewrite (for_labels_closed prediction_data reference_data metrics _ _ w Hs).
  set (L := unique_labels reference_data prediction_data) in *.
  destruct (has_number L) eqn:E.
  - rewrite evaluate_each_label_entries.
    + reflexivity.
    + now apply NoDup_numbers.
    + simpl. intros x _ [Hx | [Hx | []]]; discriminate.
  - rewrite evaluate_each_label_entries.
    + unfold for_else, bind, call_BPM, ret.
      destruct (BPM prediction_data reference_data metrics (snd (entries L w)))
        as [bpm w2].
      rewrite dict_set_fresh; [now rewrite <- app_assoc|].
      rewrite dict_keys_app, label_entries_keys. simpl.
      intros [H | [H | H]]; try discriminate.
      apply in_map_iff in H. destruct H as [x [Hx Hin]].
      inversion Hx; subst. contradiction.
    + assumption.
    + simpl. intros x _ [Hx | [Hx | []]]; discriminate.
Qed.

(** On volumes without NaN: the entry under key 0 when no label is
    discovered, one entry per discovered label otherwise. *)
Lemma compute_metrics_single_subject_ok_nan_free (w : World) :
  shape prediction_data = shape reference_data ->
  nan_free prediction_data -> nan_free reference_data ->
  compute_metrics_single_subject prediction reference metrics w
  = match unique_labels reference_data prediction_data with
    | [] =>
        (Ok (tagged ++ [(KNum 0, PDict (dict_seg_of
               (fst (BPM prediction_data reference_data metrics w))))]),
         snd (BPM prediction_data reference_data metrics w))
    | L => (Ok (tagged ++ fst (entries L w)), snd (entries L w))
    end.
Proof using Type reference_loaded prediction_loaded.
  intros Hshape Hp Hr. rewrite (compute_metrics_single_subject_ok w Hshape).
  pose proof (unique_labels_nan_free _ _ Hr Hp) as Hnan. cbv zeta.
  rewrite (numbers_nan_free _ Hnan), (has_number_nan_free _ Hnan).
  now destruct (unique_labels reference_data prediction_data).
Qed.

Lemma compute_metrics_single_subject_shape_error (w : World) :
  shape prediction_data <> shape reference_data ->
  compute_metrics_single_subject prediction reference metrics w
  = (Err (ValueError (shape_mismatch_message prediction_data reference_data)), w).
Proof using Type reference_loaded prediction_loaded.
  intro Hshape. unfold compute_metrics_single_subject.
  rewrite (bind_Ok _ _ _ _ _ (load_nifti_image_Some _ _ w prediction_loaded)).
  rewrite (bind_Ok _ _ _ _ _ (load_nifti_image_Some _ _ w reference_loaded)).
  destruct (shape_eqb (shape prediction_data) (shape reference_data)) eqn:E.
  - apply shape_eqb_eq in E. contradiction.
  - reflexivity.
Qed.

Lemma label_entries_In (labels : list float64) (label : float64) :
  forall w : World,
    In label labels ->
    exists w0 : World,
      In (KNum label,
          PDict (dict_seg_of (fst (BPM (eq_mask prediction_data label)
                                       (eq_mask reference_data label) metrics w0))))
         (fst (entries labels w)).
Proof.
  induction labels as [|l rest IH]; intros w Hin; [contradiction|].
  simpl. destruct (BPM (eq_mask prediction_data l) (eq_mask reference_data l)
                     metrics w) as [bpm w1] eqn:E.
  destruct Hin as [-> | Hin].
  - exists w. rewrite E. destruct (entries rest w1). now left.
  - destruct (IH w1 Hin) as [w0 H0]. exists w0.
    destruct (entries rest w1). now right.
Qed.

Lemma result_keys_NoDup (labels : list float64) (w : World) :
  NoDup labels -> NoDup (dict_keys (tagged ++ fst (entries labels w))).
Proof.
  intro Hnd. rewrite dict_keys_app, label_entries_keys. simpl.
  assert (NoDup (map KNum labels)) as Hk.
  { induction Hnd as [|x t Hx Hnd IH]; simpl; constructor; [|assumption].
    intro Hin. apply in_map_iff in Hin. destruct Hin as [y [Hy Hin]].
    inversion Hy; subst. contradiction. }
  constructor.
  - intros [H | H]; [discriminate|].
    apply in_map_iff in H. destruct H as [y [Hy _]]. discriminate.
  - constructor; [|assumption].
    intro H. apply in_map_iff in H. destruct H as [y [Hy _]]. discriminate.
Qed.

(** C1: when both volumes of a same-shaped pair are all background, the
    result holds the two identifying fields and exactly one metric entry,
    under key 0, computed by the engine on the whole volumes; the label loop
    adds nothing and does not invoke the engine. *)
Theorem all_background_single_entry (w : World) :
  shape prediction_data = shape reference_data ->
  all_background reference_data ->
  all_background prediction_data ->
  compute_metrics_single_subject prediction reference metrics w
  = (Ok [(KStr "reference", PStr reference);
         (KStr "prediction", PStr prediction);
         (KNum 0, PDict (dict_seg_of
                    (fst (BPM prediction_data reference_data metrics w))))],
     snd (BPM prediction_data reference_data metrics w))
  /\ (forall record : PyVal,
        item_labels [(KStr "reference", PStr reference);
                     (KStr "prediction", PStr prediction);
                     (KNum 0, record)] = [KNum 0])
  /\ for_labels prediction_data reference_data metrics
        (unique_labels reference_data prediction_data)
        (unique_labels reference_data prediction_data) tagged w
      = (Ok (tagged, false), w).
Proof using Type reference_loaded prediction_loaded.
  intros Hshape Href Hpred.
  rewrite (compute_metrics_single_subject_ok w Hshape).
  rewrite (unique_labels_background _ _ Href Hpred).
  repeat split.
Qed.

Section Coverage.
(** The engine's documented flags: a flag tells that the corresponding binary
    mask has no true voxel. *)
Hypothesis BPM_flags :
  forall (pv rv : ndarray) (label : float64) (m : list string) (w : World),
    flag_empty_ref (fst (BPM (eq_mask pv label) (eq_mask rv label) m w))
    = empty_mask (eq_mask rv label)
    /\ flag_empty_pred (fst (BPM (eq_mask pv label) (eq_mask rv label) m w))
       = empty_mask (eq_mask pv label).

(** C2, amended: every non-zero number present in the reference or in the
    prediction of a same-shaped pair is the key of exactly one entry of the
    result, whatever else the volumes hold; the entry is the record of an
    engine invocation on the two masks of that label, its [EmptyRef] and
    [EmptyPred] fields are the engine's flags, and a flag is set exactly
    when the label does not occur on that side. *)
Theorem every_label_has_one_record (w : World) (label : Z) :
  shape prediction_data = shape reference_data ->
  label <> 0 ->
  In (Num label) (data reference_data) \/ In (Num label) (data prediction_data) ->
  exists (result : Dict) (w' w0 : World) (bpm : BPMObj Scalar),
    compute_metrics_single_subject prediction reference metrics w = (Ok result, w')
    /\ bpm = fst (BPM (eq_mask prediction_data label)
                      (eq_mask reference_data label) metrics w0)
    /\ List.length (filter (key_eqb (KNum label)) (dict_keys result)) = 1%nat
    /\ dict_get (KNum label) result = Some (PDict (dict_seg_of bpm))
    /\ dict_get (KStr "EmptyRef") (dict_seg_of bpm) = Some (PBool (flag_empty_ref bpm))
    /\ dict_get (KStr "EmptyPred") (dict_seg_of bpm) = Some (PBool (flag_empty_pred bpm))
    /\ (flag_empty_ref bpm = true <-> ~ In (Num label) (data reference_data))
    /\ (flag_empty_pred bpm = true <-> ~ In (Num label) (data prediction_data)).
Proof using Type reference_loaded prediction_loaded BPM_flags.
  intros Hshape Hnz Hpresent.
  assert (In (Num label) (unique_labels reference_data prediction_data)) as Hin.
  { apply unique_labels_In. split; [|assumption].
    intro H. inversion H. contradiction. }
  pose proof (StronglySorted_lt_NoDup _
                (unique_labels_sorted reference_data prediction_data)) as Hnd.
  rewrite (compute_metrics_single_subject_ok w Hshape). cbv zeta.
  set (L := unique_labels reference_data prediction_data) in *.
  rewrite (proj2 (has_number_In L)) by (now exists label).
  assert (In (Num label) (numbers L)) as Hnum
    by (apply numbers_In; split; [assumption | discriminate]).
  destruct (label_entries_In (numbers L) label w Hnum) as [w0 Hentry].
  pose proof (result_keys_NoDup (numbers L) w (NoDup_numbers L Hnd)) as Hkeys.
  destruct (BPM_flags prediction_data reference_data label metrics w0)
    as [Hfr Hfp].
  eexists; exists (snd (entries (numbers L) w)), w0; eexists.
  split; [reflexivity|]. split; [reflexivity|].
  split.
  { apply filter_key_once; [assumption|].
    change (KNum label) with (fst (KNum label,
      PDict (dict_seg_of (fst (BPM (eq_mask prediction_data label)
                                   (eq_mask reference_data label) metrics w0))))).
    apply in_map. apply in_or_app. now right. }
  split.
  { apply dict_get_In; [assumption|]. apply in_or_app. now right. }
  split; [apply dict_seg_of_flags|].
  split; [apply dict_seg_of_flags|].
  rewrite Hfr, Hfp. split; apply empty_mask_eq_mask.
Qed.

End Coverage.

End OneSubject.

(** C7, amended: on every input whose volumes hold no NaN voxel, the
    evaluator written with the sentinel [break]/[else] loop and the
    evaluator written as an explicit conditional on the emptiness of the
    discovered label set return the same result (and leave the engine in the
    same state), also when a file is missing or the shapes differ. *)
Theorem sentinel_loop_refines_explicit_conditional
  (prediction reference : string) (metrics : list string) (w : World) :
  nan_free_subject (prediction, reference) ->
  compute_metrics_single_subject prediction reference metrics w
  = evaluate_subject_explicit prediction reference metrics w.
Proof. apply sentinel_loop_explicit. Qed.

(** C3: the discovered labels are ascending without duplicates, never contain
    the background 0, and are exactly the non-zero values of either volume;
    on twice the same volume they are its sorted distinct non-zero values,
    and on two all-background volumes there is none. *)
Theorem unique_labels_is_sorted_union (R P : ndarray) :
  StronglySorted float_lt (unique_labels R P)
  /\ NoDup (unique_labels R P)
  /\ ~ In (Num 0) (unique_labels R P)
  /\ (forall x, In x (unique_labels R P)
                <-> x <> 0 /\ (In x (data R) \/ In x (data P)))
  /\ unique_labels R R = remove_background (np_unique (data R))
  /\ (all_background R -> all_background P -> unique_labels R P = []).
Proof.
  split; [apply unique_labels_sorted|].
  split; [apply StronglySorted_lt_NoDup, unique_labels_sorted|].
  split; [intro H; apply unique_labels_In in H; now destruct H|].
  split; [apply unique_labels_In|].
  split; [|apply unique_labels_background].
  apply StronglySorted_lt_ext.
  - apply unique_labels_sorted.
  - apply remove_background_sorted, np_unique_sorted.
  - intro x. rewrite unique_labels_In, remove_background_In, np_unique_In.
    split.
    + intros [Hx [H | H]]; split; assumption.
    + intros [H Hx]. split; [assumption | now left].
Qed.

Section Determinism.
Hypothesis BPM_deterministic :
  forall (p r : ndarray) (m : list string) (w1 w2 : World),
    fst (BPM p r m w1) = fst (BPM p r m w2).

Lemma for_labels_deterministic (pv rv : ndarray) (metrics : list string)
  (all_labels labels : list float64) :
  forall (d : Dict) (w1 w2 : World),
    fst (for_labels pv rv metrics all_labels labels d w1)
    = fst (for_labels pv rv metrics all_labels labels d w2).
Proof using Type BPM_deterministic.
  induction labels as [|label rest IH]; intros d w1 w2; simpl; [reflexivity|].
  unfold bind, call_BPM.
  pose proof (BPM_deterministic (eq_mask pv label) (eq_mask rv label) metrics w1 w2)
    as Hdet.
  destruct (BPM (eq_mask pv label) (eq_mask rv label) metrics w1) as [b1 w1'].
  destruct (BPM (eq_mask pv label) (eq_mask rv label) metrics w2) as [b2 w2'].
  simpl in Hdet. subst b2.
  destruct (py_max all_labels) as [m|]; [|reflexivity].
  destruct (float_eqb label m); [reflexivity | apply IH].
Qed.

Lemma compute_metrics_single_subject_state_independent
  (prediction reference : string) (metrics : list string) (w1 w2 : World) :
  fst (compute_metrics_single_subject prediction reference metrics w1)
  = fst (compute_metrics_single_subject prediction reference metrics w2).
Proof using Type BPM_deterministic.
  unfold compute_metrics_single_subject, load_nifti_image.
  destruct (nib_files (abspath prediction)) as [pv|]; [|reflexivity].
  destruct (nib_files (abspath reference)) as [rv|]; [|reflexivity].
  cbv beta iota zeta delta [bind ret raise].
  destruct (negb (shape_eqb (shape pv) (shape rv))); [reflexivity|].
  pose proof (for_labels_deterministic pv rv metrics
                (unique_labels rv pv) (unique_labels rv pv)
                [(KStr "reference", PStr reference); (KStr "prediction", PStr prediction)]
                w1 w2) as Hloop.
  destruct (for_labels pv rv metrics (unique_labels rv pv) (unique_labels rv pv) _ w1)
    as [[[d1 b1]|e1] w1'];
    destruct (for_labels pv rv metrics (unique_labels rv pv) (unique_labels rv pv) _ w2)
      as [[[d2 b2]|e2] w2'];
    simpl in Hloop; try discriminate; inversion Hloop; subst; [|reflexivity].
  cbn [fst]. destruct b2; [reflexivity|].
  unfold for_else, bind, call_BPM, ret.
  pose proof (BPM_deterministic pv rv metrics w1' w2') as Hdet.
  destruct (BPM pv rv metrics w1') as [c1 w1''].
  destruct (BPM pv rv metrics w2') as [c2 w2''].
  simpl in Hdet. now subst c2.
Qed.

(** C9: when the engine's answer is a function of its masks and metric list
    alone, the evaluator's result does not depend on the engine state it
    starts from; in particular a second invocation, run after the first,
    returns the same result. *)
Theorem compute_metrics_single_subject_deterministic
  (prediction reference : string) (metrics : list string) (w1 w2 : World) :
  fst (compute_metrics_single_subject prediction reference metrics w1)
  = fst (compute_metrics_single_subject prediction reference metrics w2)
  /\ fst (compute_metrics_single_subject prediction reference metrics
            (snd (compute_metrics_single_subject prediction reference metrics w1)))
     = fst (compute_metrics_single_subject prediction reference metrics w1).
Proof using Type BPM_deterministic.
  split; apply compute_metrics_single_subject_state_independent.
Qed.

End Determinism.

(* ------------------------------------------------------------------ *)
(** ** Masks *)

Lemma assign_where_eq_mask (V : ndarray) (label : float64) (g : float64 -> float64) :
  assign_where (data (eq_mask V label)) label (map g (data V))
  = map (fun x => if float_eqb x label then label else g x) (data V).
Proof.
  unfold assign_where, eq_mask. simpl.
  induction (data V) as [|x xs IH]; simpl; [reflexivity|].
  rewrite IH. f_equal. now destruct (float_eqb x label).
Qed.

Lemma reconstruct_fold (V : ndarray) (labels : list float64) :
  forall g : float64 -> float64,
    fold_left (fun acc label => assign_where (data (eq_mask V label)) label acc)
              labels (map g (data V))
    = map (fun x => fold_left (fun a l => if float_eqb x l then l else a) labels (g x))
          (data V).
Proof.
  induction labels as [|l rest IH]; intro g; cbn [fold_left]; [reflexivity|].
  rewrite assign_where_eq_mask. apply (IH (fun x => if float_eqb x l then l else g x)).
Qed.

Lemma paint_spec (x : float64) (labels : list float64) :
  forall a : float64,
    fold_left (fun a l => if float_eqb x l then l else a) labels a
    = if existsb (float_eqb x) labels then x else a.
Proof.
  induction labels as [|l rest IH]; intro a; simpl; [reflexivity|].
  rewrite IH. destruct (float_eqb x l) eqn:E; simpl.
  - apply float_eqb_eq in E. destruct E as [E _]. subst l.
    now destruct (existsb (float_eqb x) rest).
  - reflexivity.
Qed.

(** Painting every label of a list that covers the non-zero values of a
    volume, and not the background, gives the numbers of the volume back: a
    NaN voxel is equal to no label, its mask is empty and it stays
    background. *)
Lemma reconstruct_covering (V : ndarray) (labels : list float64) :
  ~ In (Num 0) labels ->
  (forall x, In x (data V) -> x <> Num 0 -> In x labels) ->
  reconstruct V labels = map (fun x => if is_nan x then Num 0 else x) (data V).
Proof.
  intros Hzero Hcover. unfold reconstruct.
  rewrite (reconstruct_fold V labels (fun _ => Num 0)).
  apply map_ext_in. intros x Hx.
  rewrite paint_spec. destruct x as [z|]; simpl.
  - destruct (existsb (float_eqb (Num z)) labels) eqn:E; [reflexivity|].
    destruct (Z.eq_dec z 0) as [-> | Hnz]; [reflexivity|].
    exfalso.
    assert (In (Num z) labels) as Hin
      by (apply Hcover; [assumption | intro H; inversion H; contradiction]).
    assert (existsb (float_eqb (Num z)) labels = true) as Ht
      by (apply existsb_exists; exists (Num z); split;
          [assumption | simpl; apply Z.eqb_refl]).
    congruence.
  - assert (existsb (float_eqb NaN) labels = false) as ->; [|reflexivity].
    clear. induction labels as [|l rest IH]; simpl; [reflexivity | exact IH].
Qed.

Lemma map_nan_free (V : ndarray) :
  nan_free V -> map (fun x => if is_nan x then Num 0 else x) (data V) = data V.
Proof.
  unfold nan_free. induction (data V) as [|x xs IH]; simpl; intro H; [reflexivity|].
  destruct x as [z|]; simpl.
  - f_equal. apply IH. intro Hin. apply H. now right.
  - exfalso. apply H. now left.
Qed.

(** C8, amended: the mask of a label has the shape and size of the volume
    and is 1 exactly at the voxels equal to the label, 0 elsewhere (NaN is
    equal to nothing, so the mask of NaN is empty); assigning every
    discovered label at its mask, over a background volume, gives back every
    voxel that is a number and leaves the NaN voxels background, whichever
    side of the pair the volume is; a volume without NaN comes back whole. *)
Theorem eq_mask_exact_and_round_trip (V P : ndarray) (label : float64) :
  shape (eq_mask V label) = shape V
  /\ List.length (data (eq_mask V label)) = List.length (data V)
  /\ (forall (i : nat) (x : float64),
        nth_error (data V) i = Some x ->
        exists v : float64,
          nth_error (data (eq_mask V label)) i = Some v
          /\ (v = Num 1 \/ v = Num 0)
          /\ (v = Num 1 <-> x = label /\ x <> NaN))
  /\ reconstruct V (unique_labels V P)
     = map (fun x => if is_nan x then Num 0 else x) (data V)
  /\ reconstruct V (unique_labels P V)
     = map (fun x => if is_nan x then Num 0 else x) (data V)
  /\ (nan_free V ->
      reconstruct V (unique_labels V P) = data V
      /\ reconstruct V (unique_labels P V) = data V).
Proof.
  assert (forall A B : ndarray,
             (forall x, In x (data V) -> In x (data A) \/ In x (data B)) ->
             reconstruct V (unique_labels A B)
             = map (fun x => if is_nan x then Num 0 else x) (data V)) as Hround.
  { intros A B Hsub. apply reconstruct_covering.
    - intro H. apply unique_labels_In in H. now destruct H.
    - intros x Hx Hnz. apply unique_labels_In. split; [assumption | now apply Hsub]. }
  split; [reflexivity|].
  split; [apply length_map|].
  split.
  { intros i x Hx. simpl. rewrite nth_error_map, Hx. simpl.
    destruct (float_eqb x label) eqn:E; eexists; (split; [reflexivity|]).
    - split; [now left|]. split; [intros _; now apply float_eqb_eq | reflexivity].
    - split; [now right|]. split; [discriminate|].
      intro H. apply float_eqb_eq in H. congruence. }
  split; [apply Hround; auto|].
  split; [apply Hround; auto|].
  intro Hfree. rewrite !Hround by auto. split; now apply map_nan_free.
Qed.

(* ------------------------------------------------------------------ *)
(** ** The run *)

Lemma main_loop_app (pre post : list (string * string)) (metrics : list string) :
  forall (acc : list Dict) (w : World),
    main_loop (pre ++ post) metrics acc w
    = match main_loop pre metrics acc w with
      | (Ok outs, w1) => main_loop post metrics outs w1
      | (Err e, w1) => (Err e, w1)
      end.
Proof.
  induction pre as [|[p r] pre IH]; intros acc w; simpl; [reflexivity|].
  unfold bind.
  destruct (compute_metrics_single_subject p r metrics w) as [[d|e] w1];
    [apply IH | reflexivity].
Qed.

(** C4: a pair whose volumes differ in shape makes the evaluator raise the
    shape error, whose message prints the prediction shape and the reference
    shape, without invoking the engine (its state is unchanged); in a run the
    error ends the loop over the subjects, so that no table is built,
    whatever was computed for the subjects before. *)
Theorem shape_mismatch_aborts_run
  (prediction reference : string) (metrics : list string) (pv rv : ndarray) :
  nib_files (abspath prediction) = Some pv ->
  nib_files (abspath reference) = Some rv ->
  shape pv <> shape rv ->
  (forall w : World,
      compute_metrics_single_subject prediction reference metrics w
      = (Err (ValueError (shape_mismatch_message pv rv)), w))
  /\ shape_mismatch_message pv rv
     = ("The prediction and reference (ground truth) images must have the same shape. The prediction image has shape "
        ++ repr_shape (shape pv)
        ++ " and the ground truth image has shape "
        ++ repr_shape (shape rv) ++ ".")%string
  /\ (forall (pre post : list (string * string)) (outs : list Dict) (w0 w1 : World),
        main_loop pre metrics [] w0 = (Ok outs, w1) ->
        main (pre ++ (prediction, reference) :: post) metrics w0
        = (Err (ValueError (shape_mismatch_message pv rv)), w1))
  /\ (forall (subjects : list (string * string)) (w0 : World),
        In (prediction, reference) subjects ->
        exists (e : PyError) (w' : World), main subjects metrics w0 = (Err e, w')).
Proof.
  intros Hp Hr Hshape.
  pose proof (fun w => compute_metrics_single_subject_shape_error
                         prediction reference metrics pv rv Hp Hr w Hshape) as Herr.
  split; [exact Herr|].
  split; [reflexivity|].
  assert (forall pre post outs w0 w1,
             main_loop pre metrics [] w0 = (Ok outs, w1) ->
             main (pre ++ (prediction, reference) :: post) metrics w0
             = (Err (ValueError (shape_mismatch_message pv rv)), w1)) as Hrun.
  { intros pre post outs w0 w1 Hpre. unfold main, bind at 1.
    rewrite main_loop_app, Hpre. simpl. unfold bind. now rewrite Herr. }
  split; [exact Hrun|].
  intros subjects w0 Hin. apply in_split in Hin. destruct Hin as [pre [post ->]].
  destruct (main_loop pre metrics [] w0) as [[outs|e] w1] eqn:Hpre.
  - eexists; eexists. now apply (Hrun pre post outs w0 w1).
  - exists e, w1. unfold main, bind at 1. now rewrite main_loop_app, Hpre.
Qed.

(* ------------------------------------------------------------------ *)
(** ** The table builder *)

Lemma rows_of_item_ok (item : Dict) (labels : list Key) :
  forall rows : list Dict,
    (forall label, In label labels -> build_row item label = Ok (table_row item label)) ->
    rows_of_item item labels rows = Ok (rows ++ map (table_row item) labels).
Proof.
  induction labels as [|label rest IH]; intros rows Hrow; simpl.
  - now rewrite app_nil_r.
  - rewrite (Hrow label) by now left.
    rewrite IH by (intros l Hl; apply Hrow; now right).
    now rewrite <- app_assoc.
Qed.

Lemma build_rows_ok (output_list : list Dict) :
  forall rows : list Dict,
    Forall (fun item => forall label, In label (item_labels item) ->
                        build_row item label = Ok (table_row item label))
           output_list ->
    build_rows output_list rows = Ok (rows ++ table_rows output_list).
Proof.
  induction output_list as [|item rest IH]; intros rows Hall; simpl.
  - now rewrite app_nil_r.
  - inversion Hall as [|? ? Hitem Hrest]; subst.
    rewrite rows_of_item_ok by assumption.
    rewrite IH by assumption. now rewrite <- app_assoc.
Qed.

Lemma table_rows_length (output_list : list Dict) :
  List.length (table_rows output_list)
  = list_sum (map (fun item => List.length (item_labels item)) output_list).
Proof.
  unfold table_rows. induction output_list as [|item rest IH]; simpl; [reflexivity|].
  now rewrite length_app, length_map, IH.
Qed.

Section Items.
Variables reference prediction : string.
Variable entries : list (float64 * Dict).
Hypothesis labels_distinct : NoDup (map fst entries).

Local Notation item :=
  ((KStr "reference", PStr reference)
   :: (KStr "prediction", PStr prediction)
   :: map (fun e => (KNum (fst e), PDict (snd e))) entries).

Lemma item_labels_entries : item_labels item = map (fun e => KNum (fst e)) entries.
Proof using Type labels_distinct.
  unfold item_labels. simpl.
  induction entries as [|[l r] t IH]; simpl; [reflexivity|].
  f_equal. apply IH. now inversion labels_distinct.
Qed.

Lemma item_dict_get (l : float64) (record : Dict) :
  In (l, record) entries -> dict_get (KNum l) item = Some (PDict record).
Proof using Type labels_distinct.
  intro Hin. simpl. revert Hin labels_distinct.
  induction entries as [|[l' r'] t IH]; simpl; intros Hin Hnd; [contradiction|].
  inversion Hnd as [|? ? Hnotin Hnd']; subst.
  destruct Hin as [Heq | Hin].
  - inversion Heq; subst. now rewrite (proj2 (same_value_eq l l) eq_refl).
  - destruct (same_value l l') eqn:E; [|now apply IH].
    apply same_value_eq in E. subst l'. exfalso. apply Hnotin.
    change l with (fst (l, record)). now apply in_map.
Qed.

Lemma item_build_row (l : float64) (record : Dict) :
  In (l, record) entries -> MetricRecord record ->
  build_row item (KNum l) = Ok (table_row item (KNum l))
  /\ table_row item (KNum l)
     = (KStr "reference", PStr reference)
       :: (KStr "prediction", PStr prediction)
       :: (KStr "label", PNum l) :: record.
Proof using Type labels_distinct.
  intros Hin [fields [er [ep [Hrec [Hnd Hfresh]]]]].
  unfold build_row, table_row, record_of, field_of.
  rewrite (item_dict_get l record Hin).
  change (dict_get (KStr "reference") item) with (Some (PStr (Scalar := Scalar) reference)).
  change (dict_get (KStr "prediction") item) with (Some (PStr (Scalar := Scalar) prediction)).
  split; [|reflexivity].
  unfold row_update. f_equal. apply dict_update_fresh; [assumption|].
  intros k Hk. apply (Hfresh k Hk).
Qed.

End Items.

Lemma SubjectResult_build_row (item : Dict) :
  SubjectResult item ->
  forall label, In label (item_labels item) ->
                build_row item label = Ok (table_row item label).
Proof.
  intros [reference [prediction [entries [-> [Hnd Hrec]]]]] label Hin.
  rewrite (item_labels_entries reference prediction entries Hnd) in Hin.
  apply in_map_iff in Hin. destruct Hin as [[l record] [<- Hin]].
  rewrite Forall_forall in Hrec.
  apply (item_build_row reference prediction entries Hnd l record Hin (Hrec _ Hin)).
Qed.

Lemma SubjectResult_build_rows (output_list : list Dict) :
  Forall SubjectResult output_list ->
  build_rows output_list [] = Ok (table_rows output_list).
Proof.
  intro Hall. apply (build_rows_ok output_list []).
  eapply Forall_impl; [|exact Hall]. exact SubjectResult_build_row.
Qed.

(** The rows of well-formed results: the identifying fields, then the fields
    of the record, the two flags last. *)
Lemma SubjectResult_table_rows (output_list : list Dict) :
  Forall SubjectResult output_list ->
  Forall (fun row =>
            exists (reference prediction : string) (label : float64) (fields : Dict)
                   (empty_ref empty_pred : bool),
              row = (KStr "reference", PStr reference)
                    :: (KStr "prediction", PStr prediction)
                    :: (KStr "label", PNum label)
                    :: fields ++ [(KStr "EmptyRef", PBool empty_ref);
                                  (KStr "EmptyPred", PBool empty_pred)]
              /\ NoDup (dict_keys row))
         (table_rows output_list).
Proof.
  intro Hall. apply Forall_forall. intros row Hrow.
  unfold table_rows in Hrow. apply in_flat_map in Hrow.
  destruct Hrow as [item [Hitem Hrow]].
  rewrite Forall_forall in Hall. specialize (Hall item Hitem).
  destruct Hall as [reference [prediction [entries [-> [Hnd Hrec]]]]].
  rewrite (item_labels_entries reference prediction entries Hnd) in Hrow.
  apply in_map_iff in Hrow. destruct Hrow as [label [<- Hlabel]].
  apply in_map_iff in Hlabel. destruct Hlabel as [[l record] [<- Hin]].
  rewrite Forall_forall in Hrec. pose proof (Hrec _ Hin) as Hmr.
  cbn [fst snd] in *.
  destruct (item_build_row reference prediction entries Hnd l record Hin Hmr)
    as [_ ->].
  destruct Hmr as [fields [er [ep [Hfields [Hndr Hfresh]]]]]. simpl in Hfields.
  exists reference, prediction, l, fields, er, ep.
  split; [now rewrite Hfields|].
  simpl. unfold reserved_fields in Hfresh.
  repeat constructor; try assumption; simpl.
  - intros [H | [H | H]]; try discriminate.
    apply (Hfresh _ H). simpl. auto.
  - intros [H | H]; try discriminate. apply (Hfresh _ H). simpl. auto.
  - intro H. apply (Hfresh _ H). simpl. auto.
Qed.

(** A Subject Result given by its content is one of the data model, and its
    rows are the expected ones. *)
Lemma well_formed_SubjectResult (content : string * string * list (float64 * Dict)) :
  well_formed content -> SubjectResult (subject_result content).
Proof.
  destruct content as [[reference prediction] entries]. intros [Hnd Hrec].
  exists reference, prediction, entries. now repeat split.
Qed.

Lemma SubjectResult_content (item : Dict) :
  SubjectResult item ->
  exists content : string * string * list (float64 * Dict),
    item = subject_result content /\ well_formed content.
Proof.
  intros [reference [prediction [entries [-> [Hnd Hrec]]]]].
  exists (reference, prediction, entries). now repeat split.
Qed.

Lemma table_rows_expected (contents : list (string * string * list (float64 * Dict))) :
  Forall well_formed contents ->
  table_rows (map subject_result contents) = expected_rows contents.
Proof.
  unfold table_rows, expected_rows.
  induction 1 as [|[[reference prediction] entries] rest [Hnd Hrec] _ IH];
    cbn [map flat_map]; [reflexivity|].
  f_equal; [|exact IH]. simpl in Hnd, Hrec.
  unfold subject_result.
  rewrite (item_labels_entries reference prediction entries Hnd), map_map.
  apply map_ext_in. intros [l record] Hin. rewrite Forall_forall in Hrec.
  apply (item_build_row reference prediction entries Hnd l record Hin (Hrec _ Hin)).
Qed.

Lemma well_formed_SubjectResults
  (contents : list (string * string * list (float64 * Dict))) :
  Forall well_formed contents -> Forall SubjectResult (map subject_result contents).
Proof.
  intro Hall. apply Forall_forall. intros item Hitem. apply in_map_iff in Hitem.
  destruct Hitem as [content [<- Hc]]. apply well_formed_SubjectResult.
  rewrite Forall_forall in Hall. now apply Hall.
Qed.

Lemma build_table_rows_expected
  (contents : list (string * string * list (float64 * Dict))) :
  Forall well_formed contents ->
  build_rows (map subject_result contents) [] = Ok (expected_rows contents)
  /\ build_output_dataframe (map subject_result contents)
     = Ok (pd_DataFrame (expected_rows contents)).
Proof.
  intro Hall.
  pose proof (SubjectResult_build_rows _ (well_formed_SubjectResults contents Hall))
    as Hrows.
  rewrite (table_rows_expected contents Hall) in Hrows.
  split; [exact Hrows|]. unfold build_output_dataframe. now rewrite Hrows.
Qed.

Lemma expected_rows_length (contents : list (string * string * list (float64 * Dict))) :
  List.length (expected_rows contents)
  = list_sum (map (fun content => List.length (snd content)) contents).
Proof.
  unfold expected_rows.
  induction contents as [|[[reference prediction] entries] rest IH];
    simpl; [reflexivity|].
  rewrite length_app, length_map. f_equal. exact IH.
Qed.

(* ------------------------------------------------------------------ *)
(** ** The data frame *)

Local Notation add_key :=
  (fun (cols : list Key) (k : Key) => if key_in k cols then cols else cols ++ [k]).

Lemma add_keys_In (ks : list Key) :
  forall (cols : list Key) (c : Key),
    In c (fold_left add_key ks cols) <-> In c cols \/ In c ks.
Proof.
  induction ks as [|k ks IH]; intros cols c; simpl; [intuition|].
  rewrite IH. destruct (key_in k cols) eqn:E.
  - apply key_in_In in E. intuition. subst. auto.
  - rewrite in_app_iff. simpl. intuition.
Qed.


Lemma add_keys_subset (ks : list Key) :
  forall cols : list Key,
    (forall k, In k ks -> In k cols) -> fold_left add_key ks cols = cols.
Proof.
  induction ks as [|k ks IH]; intros cols Hsub; simpl; [reflexivity|].
  rewrite (proj2 (key_in_In k cols)) by (apply Hsub; now left).
  apply IH. intros k' Hk'. apply Hsub. now right.
Qed.

Lemma add_keys_fresh (ks : list Key) :
  forall cols : list Key,
    NoDup ks -> (forall k, In k ks -> ~ In k cols) ->
    fold_left add_key ks cols = cols ++ ks.
Proof.
  induction ks as [|k ks IH]; intros cols Hnd Hfresh; simpl.
  - now rewrite app_nil_r.
  - inversion Hnd as [|? ? Hnotin Hnd']; subst.
    rewrite (proj2 (key_in_false k cols)) by (apply Hfresh; now left).
    rewrite IH; [now rewrite <- app_assoc | assumption |].
    intros k' Hk' Hin. apply in_app_or in Hin. destruct Hin as [Hin | [<- | []]].
    + apply (Hfresh k'); [now right | assumption].
    + contradiction.
Qed.

Lemma columns_In (rows : list Dict) :
  forall (cols : list Key) (c : Key),
    In c (fold_left add_columns rows cols)
    <-> In c cols \/ exists row, In row rows /\ In c (dict_keys row).
Proof.
  induction rows as [|row rows IH]; intros cols c; simpl.
  - split; [auto | intros [H | [row [[] _]]]; assumption].
  - rewrite IH. unfold add_columns at 1. rewrite add_keys_In. split.
    + intros [[H | H] | [r [Hr Hc]]]; [now left | right | right].
      * exists row. split; [now left | assumption].
      * exists r. split; [now right | assumption].
    + intros [H | [r [[<- | Hr] Hc]]]; [left; now left | left; now right | right].
      exists r. split; assumption.
Qed.


Lemma columns_uniform (rows : list Dict) (ks : list Key) :
  NoDup ks -> rows <> [] -> Forall (fun row => dict_keys row = ks) rows ->
  fold_left add_columns rows [] = ks.
Proof.
  intros Hnd Hne Hall. destruct rows as [|row rows]; [congruence|].
  inversion Hall as [|? ? Hrow Hrest]; subst. simpl.
  unfold add_columns at 2. rewrite add_keys_fresh by (auto using in_nil). simpl.
  clear Hne Hall. induction rows as [|r rows IH]; simpl; [reflexivity|].
  inversion Hrest as [|? ? Hr Hrest']; subst.
  unfold add_columns at 2. rewrite Hr.
  rewrite add_keys_subset by auto. now apply IH.
Qed.

Lemma index_of_In (c : Key) (cols : list Key) :
  In c cols -> exists j, index_of c cols = Some j /\ nth_error cols j = Some c.
Proof.
  induction cols as [|c' rest IH]; simpl; intro Hin; [contradiction|].
  destruct (key_eqb c c') eqn:E.
  - apply key_eqb_eq in E. subst. now exists O.
  - destruct Hin as [-> | Hin]; [now rewrite key_eqb_refl in E|].
    destruct (IH Hin) as [j [Hj Hn]]. exists (S j). now rewrite Hj.
Qed.

(** A column every row has a value for reads, top to bottom, the row values. *)
Lemma df_column_pd_DataFrame (rows : list Dict) (c : Key) :
  Forall (fun row => In c (dict_keys row)) rows ->
  df_column (pd_DataFrame rows) c = map (dict_get c) rows.
Proof.
  intro Hall. unfold df_column, pd_DataFrame. simpl.
  destruct rows as [|row rows]; [reflexivity|].
  set (cols := fold_left add_columns (row :: rows) []).
  assert (In c cols) as Hc.
  { apply columns_In. right. exists row. inversion Hall; subst.
    split; [now left | assumption]. }
  destruct (index_of_In c cols Hc) as [j [-> Hj]].
  rewrite map_map. apply map_ext. intro r.
  apply nth_error_nth. now rewrite nth_error_map, Hj.
Qed.

(** When every record has the same field names, every expected row has the
    same keys: the identifying fields, then those names. *)
Lemma expected_rows_uniform (contents : list (string * string * list (float64 * Dict)))
  (fields : list Key) :
  Forall (fun content => Forall (fun e => dict_keys (snd e) = fields) (snd content))
         contents ->
  Forall (fun row => dict_keys row = reserved_fields ++ fields) (expected_rows contents).
Proof.
  intro Hall. apply Forall_forall. intros row Hrow.
  unfold expected_rows in Hrow. apply in_flat_map in Hrow.
  destruct Hrow as [[[reference prediction] entries] [Hc Hrow]].
  apply in_map_iff in Hrow. destruct Hrow as [[l record] [<- Hin]].
  rewrite Forall_forall in Hall. specialize (Hall _ Hc). simpl in Hall.
  rewrite Forall_forall in Hall. specialize (Hall _ Hin). simpl in *.
  now rewrite Hall.
Qed.

(** C5: for Subject Results given by their content -- reference, prediction
    and, label by label, the records, with distinct labels and records that
    are Metric Records -- the builder makes exactly the expected rows: for
    every subject and every label it holds, in this order, the row of
    reference, prediction, label and then the record's fields in their
    order; the table is made of these rows, as many as the subjects have
    labels together, and when the records share their field names its
    columns are reference, prediction, label and those names, its cells the
    values of the rows. *)
Theorem build_table_one_row_per_label
  (contents : list (string * string * list (float64 * Dict))) :
  Forall well_formed contents ->
  build_rows (map subject_result contents) [] = Ok (expected_rows contents)
  /\ build_output_dataframe (map subject_result contents)
     = Ok (pd_DataFrame (expected_rows contents))
  /\ List.length (expected_rows contents)
     = list_sum (map (fun content => List.length (snd content)) contents)
  /\ List.length (values (pd_DataFrame (expected_rows contents)))
     = list_sum (map (fun content => List.length (snd content)) contents)
  /\ (forall fields : list Key,
        expected_rows contents <> [] ->
        Forall (fun content =>
                  Forall (fun e => dict_keys (snd e) = fields) (snd content))
               contents ->
        columns (pd_DataFrame (expected_rows contents)) = reserved_fields ++ fields
        /\ values (pd_DataFrame (expected_rows contents))
           = map (map (fun kv => Some (snd kv))) (expected_rows contents)).
Proof.
  intro Hall.
  pose proof (well_formed_SubjectResults contents Hall) as Hwf.
  pose proof (SubjectResult_table_rows _ Hwf) as Hshape.
  rewrite (table_rows_expected contents Hall) in Hshape.
  destruct (build_table_rows_expected contents Hall) as [Hrows Hbuild].
  split; [exact Hrows|].
  split; [exact Hbuild|].
  split; [apply expected_rows_length|].
  split; [simpl; rewrite length_map; apply expected_rows_length|].
  intros fields Hne Hfields.
  pose proof (expected_rows_uniform contents fields Hfields) as Hks.
  assert (NoDup (reserved_fields ++ fields)) as Hnd.
  { destruct (expected_rows contents) as [|row rest]; [congruence|].
    inversion Hks as [|? ? Hk _]; subst.
    inversion Hshape as [|? ? [? [? [? [? [? [? [_ H]]]]]]] _]; subst.
    now rewrite Hk in H. }
  assert (columns (pd_DataFrame (expected_rows contents)) = reserved_fields ++ fields)
    as Hcols by (simpl; now apply columns_uniform).
  split; [assumption|].
  unfold pd_DataFrame in *. simpl in *. rewrite Hcols.
  apply map_ext_in. intros row Hrow.
  rewrite Forall_forall in Hks, Hshape.
  destruct (Hshape row Hrow) as [? [? [? [? [? [? [_ Hndr]]]]]]].
  rewrite <- (Hks row Hrow). clear - Hndr.
  unfold dict_keys. rewrite map_map. apply map_ext_in. intros [k v] Hkv. simpl.
  now apply dict_get_In.
Qed.


(* ------------------------------------------------------------------ *)
(** ** Row order *)

Lemma table_rows_column (output_list : list Dict) (c : Key) (f : Dict -> Key -> PyVal) :
  (forall item label, dict_get c (table_row item label) = Some (f item label)) ->
  map (dict_get c) (table_rows output_list)
  = flat_map (fun item => map (fun label => Some (f item label)) (item_labels item))
             output_list.
Proof.
  intro Hget. unfold table_rows.
  induction output_list as [|item rest IH]; cbn [flat_map]; [reflexivity|].
  rewrite map_app, map_map.
  f_equal; [apply map_ext; intro label; apply Hget | exact IH].
Qed.

Lemma table_rows_have (output_list : list Dict) (c : Key) :
  In c reserved_fields ->
  Forall (fun row => In c (dict_keys row)) (table_rows output_list).
Proof.
  intro Hc. apply Forall_forall. intros row Hrow.
  unfold table_rows in Hrow. apply in_flat_map in Hrow.
  destruct Hrow as [item [_ Hrow]]. apply in_map_iff in Hrow.
  destruct Hrow as [label [<- _]]. unfold table_row. rewrite dict_keys_app.
  apply in_or_app. left. exact Hc.
Qed.

Lemma expected_rows_have (contents : list (string * string * list (float64 * Dict)))
  (c : Key) :
  In c reserved_fields ->
  Forall (fun row => In c (dict_keys row)) (expected_rows contents).
Proof.
  intro Hc. apply Forall_forall. intros row Hrow.
  unfold expected_rows in Hrow. apply in_flat_map in Hrow.
  destruct Hrow as [[[reference prediction] entries] [_ Hrow]].
  apply in_map_iff in Hrow. destruct Hrow as [e [<- _]].
  simpl in *. destruct Hc as [<- | [<- | [<- | []]]]; auto.
Qed.

Lemma expected_rows_column (contents : list (string * string * list (float64 * Dict)))
  (c : Key) (f : string * string * list (float64 * Dict) -> float64 * Dict -> PyVal) :
  (forall reference prediction entries e,
      dict_get c ((KStr "reference", PStr reference)
                  :: (KStr "prediction", PStr prediction)
                  :: (KStr "label", PNum (fst e)) :: snd e)
      = Some (f (reference, prediction, entries) e)) ->
  map (dict_get c) (expected_rows contents)
  = flat_map (fun content => map (fun e => Some (f content e)) (snd content)) contents.
Proof.
  intro Hget. unfold expected_rows.
  induction contents as [|[[reference prediction] entries] rest IH];
    cbn [flat_map]; [reflexivity|].
  rewrite map_app, map_map.
  f_equal; [apply map_ext; intro e; apply Hget | exact IH].
Qed.

Section EngineFields.
(** The engine's response is a dictionary of metric names: its keys are
    distinct and none is a field the program adds itself. *)
Hypothesis BPM_fields :
  forall (p r : ndarray) (m : list string) (w : World),
    NoDup (dict_keys (to_dict_meas (fst (BPM p r m w))))
    /\ (forall k, In k (dict_keys (to_dict_meas (fst (BPM p r m w)))) ->
                  ~ In k (reserved_fields ++ [KStr "EmptyRef"; KStr "EmptyPred"])).

Lemma dict_seg_of_MetricRecord (p r : ndarray) (m : list string) (w : World) :
  MetricRecord (dict_seg_of (fst (BPM p r m w))).
Proof using Type BPM_fields.
  destruct (BPM_fields p r m w) as [Hnd Hfresh].
  set (bpm := fst (BPM p r m w)) in *.
  assert (dict_seg_of bpm
          = to_dict_meas bpm ++ [(KStr "EmptyRef", PBool (flag_empty_ref bpm));
                                 (KStr "EmptyPred", PBool (flag_empty_pred bpm))])
    as Hseg.
  { unfold dict_seg_of.
    rewrite (dict_set_fresh _ (KStr "EmptyRef"))
      by (intro H; apply (Hfresh _ H); simpl; auto).
    rewrite dict_set_fresh; [now rewrite <- app_assoc|].
    rewrite dict_keys_app. intro H. apply in_app_or in H.
    destruct H as [H | [H | []]]; [|discriminate].
    apply (Hfresh _ H). simpl. auto 6. }
  exists (to_dict_meas bpm), (flag_empty_ref bpm), (flag_empty_pred bpm).
  split; [assumption|]. rewrite Hseg, dict_keys_app. split.
  - apply NoDup_app; [assumption | |].
    + simpl. repeat constructor; simpl; [intros [H | []]; discriminate | auto].
    + intros k Hk Hin. apply (Hfresh k Hk). simpl in *. intuition.
  - intros k Hk Hres. apply in_app_or in Hk. destruct Hk as [Hk | Hk].
    + apply (Hfresh k Hk). apply in_or_app. now left.
    + simpl in Hk, Hres. intuition; subst; discriminate.
Qed.

Lemma label_entries_records (pv rv : ndarray) (metrics : list string)
  (labels : list float64) :
  forall w : World,
    exists es : list (float64 * Dict),
      fst (label_entries pv rv metrics labels w)
      = map (fun e => (KNum (fst e), PDict (snd e))) es
      /\ map fst es = labels
      /\ Forall (fun e => MetricRecord (snd e)) es.
Proof using Type BPM_fields.
  induction labels as [|label rest IH]; intro w; simpl.
  - exists []. repeat split. constructor.
  - pose proof (dict_seg_of_MetricRecord (eq_mask pv label) (eq_mask rv label)
                  metrics w) as Hrec.
    destruct (BPM (eq_mask pv label) (eq_mask rv label) metrics w) as [bpm w1].
    destruct (IH w1) as [es [Hes [Hfst Hall]]].
    destruct (label_entries pv rv metrics rest w1) as [es' w2]. simpl in *.
    exists ((label, dict_seg_of bpm) :: es). simpl.
    rewrite Hes, Hfst. repeat split. now constructor.
Qed.

(** What a same-shaped pair without NaN evaluates to is a well-formed
    Subject Result whose label keys are [result_labels], in that order. *)
Lemma compute_metrics_single_subject_SubjectResult
  (prediction reference : string) (metrics : list string) (pv rv : ndarray) (w : World) :
  nib_files (abspath prediction) = Some pv ->
  nib_files (abspath reference) = Some rv ->
  shape pv = shape rv ->
  nan_free pv -> nan_free rv ->
  exists (item : Dict) (w' : World),
    compute_metrics_single_subject prediction reference metrics w = (Ok item, w')
    /\ SubjectResult item
    /\ item_labels item = map KNum (result_labels rv pv)
    /\ field_of item (KStr "reference") = PStr reference
    /\ field_of item (KStr "prediction") = PStr prediction.
Proof using Type BPM_fields.
  intros Hp Hr Hshape Hfp Hfr.
  rewrite (compute_metrics_single_subject_ok_nan_free
             prediction reference metrics pv rv Hp Hr w Hshape Hfp Hfr).
  unfold result_labels.
  pose proof (StronglySorted_lt_NoDup _ (unique_labels_sorted rv pv)) as Hnd.
  destruct (unique_labels rv pv) as [|l L].
  - eexists; eexists. split; [reflexivity|].
    split; [|repeat split].
    exists reference, prediction,
      [(Num 0, dict_seg_of (fst (BPM pv rv metrics w)))].
    split; [reflexivity|]. split; [repeat constructor; auto|].
    constructor; [apply dict_seg_of_MetricRecord | constructor].
  - destruct (label_entries_records pv rv metrics (l :: L) w)
      as [es [Hes [Hfst Hall]]].
    eexists; eexists. split; [reflexivity|]. rewrite Hes.
    split; [|split; [|split; reflexivity]].
    + exists reference, prediction, es. rewrite Hfst. repeat split; assumption.
    + change (item_labels
                ((KStr "reference", PStr reference)
                 :: (KStr "prediction", PStr prediction)
                 :: map (fun e => (KNum (fst e), PDict (snd e))) es)
              = map KNum (l :: L)).
      rewrite item_labels_entries by (now rewrite Hfst).
      rewrite <- Hfst, map_map. reflexivity.
Qed.

Lemma main_loop_ok (subjects : list (string * string)) (metrics : list string) :
  Forall same_shaped subjects ->
  Forall nan_free_subject subjects ->
  forall (acc : list Dict) (w : World),
    exists (outs : list Dict) (w' : World),
      main_loop subjects metrics acc w = (Ok (acc ++ outs), w')
      /\ Forall2 (fun subject item =>
                    SubjectResult item
                    /\ item_labels item
                       = map KNum (subject_labels (fst subject) (snd subject))
                    /\ field_of item (KStr "reference") = PStr (snd subject)
                    /\ field_of item (KStr "prediction") = PStr (fst subject))
                 subjects outs.
Proof using Type BPM_fields.
  induction 1 as [|[p r] rest [pv [rv [Hp [Hr Hshape]]]] Hrest IH];
    intros Hfree acc w.
  - exists [], w. simpl. rewrite app_nil_r. split; [reflexivity | constructor].
  - simpl in Hp, Hr. inversion Hfree as [|? ? Hfree1 Hfree2]; subst.
    destruct (compute_metrics_single_subject_SubjectResult p r metrics pv rv w
                Hp Hr Hshape (Hfree1 pv (or_introl Hp)) (Hfree1 rv (or_intror Hr)))
      as [item [w1 [Hrun [Hsr [Hlabels [Href Hpred]]]]]].
    destruct (IH Hfree2 (acc ++ [item]) w1) as [outs [w' [Hloop Hall]]].
    exists (item :: outs), w'. split.
    + simpl. unfold bind. rewrite Hrun, Hloop. now rewrite <- app_assoc.
    + constructor; [|assumption]. simpl. unfold subject_labels. rewrite Hp, Hr.
      repeat split; assumption.
Qed.

Lemma flat_map_Forall2 {A B C : Type} (R : A -> B -> Prop)
  (g : B -> list C) (h : A -> list C) (xs : list A) (ys : list B) :
  Forall2 R xs ys -> (forall x y, R x y -> g y = h x) ->
  flat_map g ys = flat_map h xs.
Proof.
  intros Hall Hgh. induction Hall as [|x y xs ys Hxy _ IH]; simpl; [reflexivity|].
  now rewrite IH, (Hgh x y Hxy).
Qed.

Lemma result_labels_sorted (rv pv : ndarray) :
  nan_free pv -> nan_free rv ->
  StronglySorted float_lt (result_labels rv pv)
  /\ ~ In NaN (result_labels rv pv)
  /\ (In (Num 0) (result_labels rv pv) -> result_labels rv pv = [Num 0]).
Proof.
  intros Hfp Hfr. unfold result_labels.
  pose proof (unique_labels_sorted rv pv) as Hs.
  pose proof (proj1 (unique_labels_In rv pv 0)) as Hz.
  pose proof (unique_labels_nan_free rv pv Hfr Hfp) as Hnan.
  destruct (unique_labels rv pv) as [|l L].
  - split; [repeat constructor|]. split; [|reflexivity].
    intros [H | []]. discriminate.
  - split; [assumption|]. split; [assumption|].
    intro H0. apply Hz in H0. now destruct H0.
Qed.

(** C6, amended: the table lists the subjects in the order of the sequence
    and, within a subject, the labels in the order in which the Subject
    Result holds them -- the builder does not sort: the reference,
    prediction and label columns read, top to bottom, subject after subject
    and entry after entry.  In a run over same-shaped subjects whose volumes
    hold no NaN the Subject Results hold their labels in ascending order:
    the label keys of a subject are strictly ascending numbers, and the
    reserved key 0 occurs only as the single key of a subject without
    labels. *)
Theorem rows_follow_subject_then_label_order :
  (forall contents : list (string * string * list (float64 * Dict)),
      Forall well_formed contents ->
      exists df : DataFrame,
        build_output_dataframe (map subject_result contents) = Ok df
        /\ df_column df (KStr "reference")
           = flat_map (fun content =>
                         map (fun _ => Some (PStr (fst (fst content)))) (snd content))
                      contents
        /\ df_column df (KStr "prediction")
           = flat_map (fun content =>
                         map (fun _ => Some (PStr (snd (fst content)))) (snd content))
                      contents
        /\ df_column df (KStr "label")
           = flat_map (fun content =>
                         map (fun e => Some (PNum (fst e))) (snd content))
                      contents)
  /\ (forall (subjects : list (string * string)) (metrics : list string) (w : World),
        Forall same_shaped subjects ->
        Forall nan_free_subject subjects ->
        exists (df : DataFrame) (w' : World),
          main subjects metrics w = (Ok df, w')
          /\ df_column df (KStr "reference")
             = flat_map (fun subject =>
                           map (fun _ => Some (PStr (snd subject)))
                               (subject_labels (fst subject) (snd subject)))
                        subjects
          /\ df_column df (KStr "prediction")
             = flat_map (fun subject =>
                           map (fun _ => Some (PStr (fst subject)))
                               (subject_labels (fst subject) (snd subject)))
                        subjects
          /\ df_column df (KStr "label")
             = flat_map (fun subject =>
                           map (fun label => Some (PNum label))
                               (subject_labels (fst subject) (snd subject)))
                        subjects
          /\ Forall (fun subject =>
                       StronglySorted float_lt
                         (subject_labels (fst subject) (snd subject))
                       /\ ~ In NaN (subject_labels (fst subject) (snd subject))
                       /\ (In (Num 0) (subject_labels (fst subject) (snd subject)) ->
                           subject_labels (fst subject) (snd subject) = [Num 0]))
                    subjects).
Proof using Type BPM_fields.
  split.
  { intros contents Hall.
    destruct (build_table_rows_expected contents Hall) as [_ Hbuild].
    exists (pd_DataFrame (expected_rows contents)). split; [exact Hbuild|].
    split; [|split].
    - rewrite df_column_pd_DataFrame by (apply expected_rows_have; simpl; auto).
      apply (expected_rows_column contents (KStr "reference")
               (fun content _ => PStr (fst (fst content)))).
      reflexivity.
    - rewrite df_column_pd_DataFrame by (apply expected_rows_have; simpl; auto).
      apply (expected_rows_column contents (KStr "prediction")
               (fun content _ => PStr (snd (fst content)))).
      reflexivity.
    - rewrite df_column_pd_DataFrame by (apply expected_rows_have; simpl; auto).
      apply (expected_rows_column contents (KStr "label")
               (fun _ e => PNum (fst e))).
      reflexivity. }
  intros subjects metrics w Hsubjects Hfree.
  destruct (main_loop_ok subjects metrics Hsubjects Hfree [] w)
    as [outs [w' [Hloop Hall]]].
  simpl in Hloop.
  assert (Forall SubjectResult outs) as Hwf.
  { clear Hloop Hsubjects Hfree.
    induction Hall as [|s item ss items [Hsr _] _ IH]; constructor; assumption. }
  exists (pd_DataFrame (table_rows outs)), w'.
  split.
  { unfold main, bind, lift, build_output_dataframe.
    now rewrite Hloop, (SubjectResult_build_rows outs Hwf). }
  split; [|split; [|split]].
  - rewrite df_column_pd_DataFrame by (apply table_rows_have; simpl; auto).
    rewrite (table_rows_column outs (KStr "reference")
               (fun item _ => field_of item (KStr "reference")))
      by reflexivity.
    apply (flat_map_Forall2 _ _ _ subjects outs Hall).
    intros s item [_ [Hlabels [Href _]]]. now rewrite Hlabels, Href, map_map.
  - rewrite df_column_pd_DataFrame by (apply table_rows_have; simpl; auto).
    rewrite (table_rows_column outs (KStr "prediction")
               (fun item _ => field_of item (KStr "prediction")))
      by reflexivity.
    apply (flat_map_Forall2 _ _ _ subjects outs Hall).
    intros s item [_ [Hlabels [_ Hpred]]]. now rewrite Hlabels, Hpred, map_map.
  - rewrite df_column_pd_DataFrame by (apply table_rows_have; simpl; auto).
    rewrite (table_rows_column outs (KStr "label") (fun _ label => value_of_key label))
      by reflexivity.
    apply (flat_map_Forall2 _ _ _ subjects outs Hall).
    intros s item [_ [Hlabels _]]. now rewrite Hlabels, map_map.
  - clear Hloop Hall Hwf.
    induction Hsubjects as [|[p r] rest [pv [rv [Hp [Hr _]]]] _ IH];
      constructor.
    + inversion Hfree as [|? ? Hfree1 _]; subst. simpl in *.
      unfold subject_labels. rewrite Hp, Hr.
      apply result_labels_sorted; apply Hfree1; auto.
    + apply IH. now inversion Hfree.
Qed.

End EngineFields.

(* ------------------------------------------------------------------ *)
(** ** Facts about strings, paths and sorting *)

Lemma endswith_eq (s suffix : string) :
  endswith s suffix
  = if String.eqb s suffix then true
    else match s with
         | EmptyString => false
         | String _ t => endswith t suffix
         end.
Proof. now destruct s. Qed.

Lemma endswith_spec (s suffix : string) :
  endswith s suffix = true <-> exists p : string, s = (p ++ suffix)%string.
Proof.
  induction s as [|a s IH]; rewrite endswith_eq.
  - destruct (String.eqb "" suffix) eqn:E.
    + apply String.eqb_eq in E. subst. split; [exists ""%string; reflexivity | reflexivity].
    + split; [discriminate|]. intros [p Hp].
      destruct p; simpl in Hp; [|discriminate].
      subst. now rewrite String.eqb_refl in E.
  - destruct (String.eqb (String a s) suffix) eqn:E.
    + apply String.eqb_eq in E. subst.
      split; [exists ""%string; reflexivity | reflexivity].
    + rewrite IH. split; intros [p Hp].
      * exists (String a p). simpl. now rewrite Hp.
      * destruct p; simpl in Hp.
        -- subst. now rewrite String.eqb_refl in E.
        -- inversion Hp. now exists p.
Qed.

Lemma ascii_compare_refl (a : ascii) : Ascii.compare a a = Eq.
Proof. unfold Ascii.compare. apply N.compare_refl. Qed.

Lemma ascii_compare_lt_trans (a b c : ascii) :
  Ascii.compare a b = Lt -> Ascii.compare b c = Lt -> Ascii.compare a c = Lt.
Proof.
  unfold Ascii.compare. rewrite !N.compare_lt_iff. apply N.lt_trans.
Qed.

Lemma string_compare_refl (s : string) : String.compare s s = Eq.
Proof. induction s as [|a s IH]; simpl; [reflexivity|]. now rewrite ascii_compare_refl. Qed.

Lemma str_le_refl (s : string) : str_le s s.
Proof. unfold str_le, String.leb. now rewrite string_compare_refl. Qed.

Lemma str_le_trans (s1 s2 s3 : string) : str_le s1 s2 -> str_le s2 s3 -> str_le s1 s3.
Proof.
  unfold str_le, String.leb. revert s2 s3.
  induction s1 as [|a s1 IH]; intros [|b s2] [|c s3]; simpl; try easy.
  destruct (Ascii.compare a b) eqn:Hab; try easy;
    destruct (Ascii.compare b c) eqn:Hbc; try easy.
  - apply Ascii.compare_eq_iff in Hab, Hbc. subst.
    rewrite ascii_compare_refl. apply IH.
  - apply Ascii.compare_eq_iff in Hab. subst. now rewrite Hbc.
  - apply Ascii.compare_eq_iff in Hbc. subst. now rewrite Hab.
  - now rewrite (ascii_compare_lt_trans a b c Hab Hbc).
Qed.

Lemma str_le_total (a b : string) : str_le a b \/ str_le b a.
Proof. apply String.leb_total. Qed.

Lemma str_le_antisym (a b : string) : str_le a b -> str_le b a -> a = b.
Proof. apply String.leb_antisym. Qed.

Lemma leb_append_prefix (p x y : string) :
  String.leb (p ++ x) (p ++ y) = String.leb x y.
Proof.
  unfold String.leb. induction p as [|a p IH]; simpl; [reflexivity|].
  now rewrite ascii_compare_refl.
Qed.

Lemma path_join_relative (a b : string) :
  startswith b "/" = false -> path_join a b = (dir_prefix a ++ b)%string.
Proof.
  intro Hb. unfold path_join, dir_prefix. rewrite Hb.
  destruct (String.eqb a "" || endswith a "/")%bool; [reflexivity|].
  clear. induction a as [|c a IH]; simpl; [reflexivity | now f_equal].
Qed.

Lemma insert_sorted_perm (x : string) (l : list string) :
  Permutation (x :: l) (insert_sorted x l).
Proof.
  induction l as [|y t IH]; simpl; [reflexivity|].
  destruct (String.leb x y); [reflexivity|].
  rewrite perm_swap. now constructor.
Qed.

Lemma py_sort_perm (l : list string) : Permutation l (py_sort l).
Proof.
  induction l as [|x t IH]; simpl; [constructor|].
  rewrite <- insert_sorted_perm. now constructor.
Qed.

Lemma insert_sorted_Sorted (x : string) (l : list string) :
  Sorted str_le l -> Sorted str_le (insert_sorted x l).
Proof.
  induction l as [|y t IH]; simpl; intro Hs; [repeat constructor|].
  inversion Hs as [|? ? Hs' Hhd]; subst.
  destruct (String.leb x y) eqn:E.
  - constructor; [assumption | now constructor].
  - assert (str_le y x) as Hyx
      by (destruct (str_le_total x y) as [H | H]; [unfold str_le in H; congruence | exact H]).
    constructor; [now apply IH|].
    destruct t as [|z t]; simpl; [now constructor|].
    inversion Hhd; subst. destruct (String.leb x z); now constructor.
Qed.

Lemma py_sort_sorted (l : list string) : StronglySorted str_le (py_sort l).
Proof.
  apply Sorted_StronglySorted; [exact str_le_trans|].
  induction l as [|x t IH]; simpl; [constructor | now apply insert_sorted_Sorted].
Qed.

(** A sorted list is determined by its elements with their multiplicities. *)
Lemma sorted_perm_unique (l1 l2 : list string) :
  StronglySorted str_le l1 -> StronglySorted str_le l2 ->
  Permutation l1 l2 -> l1 = l2.
Proof.
  intro H1. revert l2.
  induction H1 as [|a t1 Hs1 IH Hall1]; intros l2 H2 Hperm.
  - now apply Permutation_nil in Hperm.
  - destruct l2 as [|b t2]; [now apply Permutation_sym, Permutation_nil in Hperm|].
    inversion H2 as [|? ? Hs2 Hall2]; subst.
    rewrite Forall_forall in Hall1, Hall2.
    assert (a = b) as ->.
    { assert (In a (b :: t2)) as Ha
          by (apply (Permutation_in _ Hperm); now left).
      assert (In b (a :: t1)) as Hb
          by (apply (Permutation_in _ (Permutation_sym Hperm)); now left).
      destruct Ha as [Ha | Ha]; [now symmetry|].
      destruct Hb as [Hb | Hb]; [assumption|].
      apply str_le_antisym; [now apply Hall1 | now apply Hall2]. }
    f_equal. apply IH; [assumption|]. now apply Permutation_cons_inv in Hperm.
Qed.

Lemma py_sort_Permutation (l1 l2 : list string) :
  Permutation l1 l2 -> py_sort l1 = py_sort l2.
Proof.
  intro Hperm. apply sorted_perm_unique; try apply py_sort_sorted.
  now rewrite <- !py_sort_perm.
Qed.

Lemma py_sort_map (g : string -> string) (l : list string) :
  (forall x y, String.leb (g x) (g y) = String.leb x y) ->
  py_sort (map g l) = map g (py_sort l).
Proof.
  intro Hg. induction l as [|x t IH]; simpl; [reflexivity|].
  rewrite IH. generalize (py_sort t). intro u.
  induction u as [|y u IHu]; simpl; [reflexivity|].
  rewrite Hg. destruct (String.leb x y); simpl; [reflexivity | now rewrite IHu].
Qed.

(* ------------------------------------------------------------------ *)
(** ** Listing the folders of a run *)

Lemma combine_map_same {A B C : Type} (f : A -> B) (g : A -> C) (l : list A) :
  combine (map f l) (map g l) = map (fun x => (f x, g x)) l.
Proof. induction l as [|x t IH]; simpl; [reflexivity | now rewrite IH]. Qed.

Lemma nii_gz_files_In (folder f : string) :
  In f (nii_gz_files folder)
  <-> In f (listdir folder) /\ exists stem : string, f = (stem ++ ".nii.gz")%string.
Proof. unfold nii_gz_files. now rewrite filter_In, endswith_spec. Qed.

(** X1: when the two folders hold the same number of [.nii.gz] names the
    listing succeeds with two lists of that same length, each sorted
    ascending and holding, with multiplicity, exactly the joined paths of
    the folder's names that end in [.nii.gz]; no other name is returned. *)
Theorem get_images_in_folder_sorted_listing (prediction reference : string) :
  List.length (nii_gz_files prediction) = List.length (nii_gz_files reference) ->
  exists prediction_files reference_files : list string,
    get_images_in_folder prediction reference = Ok (prediction_files, reference_files)
    /\ List.length prediction_files = List.length reference_files
    /\ StronglySorted str_le prediction_files
    /\ StronglySorted str_le reference_files
    /\ Permutation (map (path_join prediction) (nii_gz_files prediction))
                   prediction_files
    /\ Permutation (map (path_join reference) (nii_gz_files reference))
                   reference_files
    /\ (forall path : string,
          In path prediction_files
          <-> exists f : string,
                In f (listdir prediction)
                /\ (exists stem : string, f = (stem ++ ".nii.gz")%string)
                /\ path = path_join prediction f)
    /\ (forall path : string,
          In path reference_files
          <-> exists f : string,
                In f (listdir reference)
                /\ (exists stem : string, f = (stem ++ ".nii.gz")%string)
                /\ path = path_join reference f).
Proof.
  intro Hlen.
  assert (forall folder path,
             In path (py_sort (map (path_join folder) (nii_gz_files folder)))
             <-> exists f, In f (listdir folder)
                           /\ (exists stem, f = (stem ++ ".nii.gz")%string)
                           /\ path = path_join folder f) as Hin.
  { intros folder path. split.
    - intro H. apply (Permutation_in _ (Permutation_sym (py_sort_perm _))) in H.
      apply in_map_iff in H. destruct H as [f [<- Hf]].
      apply nii_gz_files_In in Hf. destruct Hf as [Hf Hstem]. now exists f.
    - intros [f [Hf [Hstem ->]]]. apply (Permutation_in _ (py_sort_perm _)).
      apply in_map. apply nii_gz_files_In. now split. }
  exists (py_sort (map (path_join prediction) (nii_gz_files prediction))),
         (py_sort (map (path_join reference) (nii_gz_files reference))).
  split.
  { unfold get_images_in_folder. fold (nii_gz_files prediction) (nii_gz_files reference).
    rewrite !length_map, Hlen, Nat.eqb_refl. reflexivity. }
  split.
  { rewrite <- !(Permutation_length (py_sort_perm _)), !length_map. exact Hlen. }
  repeat split; try apply py_sort_sorted; try apply py_sort_perm; apply Hin.
Qed.

Section FolderMode.
Variables prediction reference : string.
Hypothesis prediction_is_folder : isdir prediction = true.
Hypothesis reference_is_folder : isdir reference = true.

(** X2: in folder mode, when the two folders hold different numbers of
    [.nii.gz] names, the listing raises the [ValueError] that prints both
    counts, and the run ends with that error before any file is loaded and
    before the engine is invoked (its state is unchanged). *)
Theorem count_mismatch_aborts_run (metrics : list string) (w : World) :
  List.length (nii_gz_files prediction) <> List.length (nii_gz_files reference) ->
  get_images_in_folder prediction reference
  = Err (ValueError
           ("The number of files in the directories is different. Prediction files: "
            ++ repr_nat (List.length (nii_gz_files prediction))
            ++ ", Reference files: "
            ++ repr_nat (List.length (nii_gz_files reference)))%string)
  /\ main_args prediction reference metrics w
     = (Err (ValueError
               ("The number of files in the directories is different. Prediction files: "
                ++ repr_nat (List.length (nii_gz_files prediction))
                ++ ", Reference files: "
                ++ repr_nat (List.length (nii_gz_files reference)))%string), w).
Proof using Type prediction_is_folder reference_is_folder.
  intro Hlen.
  assert (get_images_in_folder prediction reference
          = Err (ValueError
                   ("The number of files in the directories is different. Prediction files: "
                    ++ repr_nat (List.length (nii_gz_files prediction))
                    ++ ", Reference files: "
                    ++ repr_nat (List.length (nii_gz_files reference)))%string))
    as Herr.
  { unfold get_images_in_folder, count_mismatch_message.
    fold (nii_gz_files prediction) (nii_gz_files reference).
    rewrite !length_map. apply Nat.eqb_neq in Hlen. now rewrite Hlen. }
  split; [exact Herr|].
  unfold main_args. rewrite prediction_is_folder, reference_is_folder. simpl andb.
  cbv iota. unfold bind, lift. now rewrite Herr.
Qed.

(** X3: in folder mode, when the two folders hold the same [.nii.gz] names
    (listed in whatever order), every subject of the run pairs the two files
    of one name, and the subjects come in the ascending order of the
    names. *)
Theorem same_names_are_paired (metrics : list string) (w : World) :
  Permutation (nii_gz_files prediction) (nii_gz_files reference) ->
  (forall f, In f (nii_gz_files prediction) -> startswith f "/" = false) ->
  get_images_in_folder prediction reference
  = Ok (map (path_join prediction) (py_sort (nii_gz_files prediction)),
        map (path_join reference) (py_sort (nii_gz_files prediction)))
  /\ main_args prediction reference metrics w
     = main (map (fun f => (path_join prediction f, path_join reference f))
                 (py_sort (nii_gz_files prediction)))
            metrics w.
Proof using Type prediction_is_folder reference_is_folder.
  intros Hperm Hrel.
  assert (forall folder names,
             (forall f, In f names -> startswith f "/" = false) ->
             py_sort (map (path_join folder) names)
             = map (path_join folder) (py_sort names)) as Hsort.
  { intros folder names Hnames.
    rewrite (map_ext_in (path_join folder) (fun f => (dir_prefix folder ++ f)%string))
      by (intros f Hf; apply path_join_relative; now apply Hnames).
    rewrite py_sort_map by (intros; apply leb_append_prefix).
    apply map_ext_in. intros f Hf. symmetry. apply path_join_relative.
    apply Hnames. now apply (Permutation_in _ (Permutation_sym (py_sort_perm names))). }
  assert (get_images_in_folder prediction reference
          = Ok (map (path_join prediction) (py_sort (nii_gz_files prediction)),
                map (path_join reference) (py_sort (nii_gz_files prediction))))
    as Hok.
  { unfold get_images_in_folder.
    fold (nii_gz_files prediction) (nii_gz_files reference).
    rewrite !length_map, (Permutation_length Hperm), Nat.eqb_refl. simpl negb.
    cbv iota.
    rewrite (Hsort prediction) by assumption.
    rewrite (Hsort reference)
      by (intros f Hf; apply Hrel;
          now apply (Permutation_in _ (Permutation_sym Hperm))).
    now rewrite (py_sort_Permutation _ _ (Permutation_sym Hperm)). }
  split; [exact Hok|].
  unfold main_args. rewrite prediction_is_folder, reference_is_folder. simpl andb.
  cbv iota. unfold bind at 1. unfold lift. rewrite Hok.
  now rewrite combine_map_same.
Qed.

End FolderMode.

(* ------------------------------------------------------------------ *)
(** ** Missing files *)

(** X4: when the prediction file or the reference file does not exist, the
    evaluator raises [FileNotFoundError] naming the absolute path of the
    missing file -- the prediction's when both are missing, since it is
    loaded first -- without invoking the engine; a run that contains such a
    subject ends with an error and builds no table. *)
Theorem missing_file_is_fatal
  (prediction reference : string) (metrics : list string) :
  nib_files (abspath prediction) = None \/ nib_files (abspath reference) = None ->
  (exists path : string,
      nib_files path = None
      /\ (path = abspath prediction
          \/ (nib_files (abspath prediction) <> None /\ path = abspath reference))
      /\ forall w : World,
          compute_metrics_single_subject prediction reference metrics w
          = (Err (FileNotFoundError ("File " ++ path ++ " does not exist.")%string), w))
  /\ (forall (subjects : list (string * string)) (w0 : World),
        In (prediction, reference) subjects ->
        exists (e : PyError) (w' : World), main subjects metrics w0 = (Err e, w')).
Proof.
  intro Hmissing.
  assert (exists path : string,
             nib_files path = None
             /\ (path = abspath prediction
                 \/ (nib_files (abspath prediction) <> None /\ path = abspath reference))
             /\ forall w : World,
                 compute_metrics_single_subject prediction reference metrics w
                 = (Err (FileNotFoundError ("File " ++ path ++ " does not exist.")%string), w))
    as Hone.
  { destruct (nib_files (abspath prediction)) as [pv|] eqn:Hp.
    - destruct Hmissing as [Hm | Hr]; [discriminate|].
      exists (abspath reference). split; [assumption|].
      split; [right; split; [discriminate | reflexivity]|].
      intro w. unfold compute_metrics_single_subject, bind, load_nifti_image.
      rewrite Hp, Hr. reflexivity.
    - exists (abspath prediction). split; [assumption|]. split; [now left|].
      intro w. unfold compute_metrics_single_subject, bind, load_nifti_image.
      rewrite Hp. reflexivity. }
  split; [exact Hone|].
  destruct Hone as [path [_ [_ Herr]]].
  intros subjects w0 Hin. apply in_split in Hin. destruct Hin as [pre [post ->]].
  unfold main, bind at 1. rewrite main_loop_app.
  destruct (main_loop pre metrics [] w0) as [[outs|e] w1].
  - simpl. unfold bind. rewrite Herr. now eexists; eexists.
  - now exists e, w1.
Qed.

(* ------------------------------------------------------------------ *)
(** ** Edge cases of the table builder *)

Lemma build_rows_app (l1 l2 : list Dict) :
  forall rows : list Dict,
    build_rows (l1 ++ l2) rows
    = match build_rows l1 rows with
      | Ok rows' => build_rows l2 rows'
      | Err e => Err e
      end.
Proof.
  induction l1 as [|item l1 IH]; intro rows; simpl; [reflexivity|].
  destruct (rows_of_item item (item_labels item) rows); [apply IH | reflexivity].
Qed.

Lemma dict_get_Some (V : Type) (k : Key) (d : list (Key * V)) :
  In k (dict_keys d) -> exists v, dict_get k d = Some v.
Proof.
  induction d as [|[k' v'] t IH]; simpl; intro Hin; [contradiction|].
  destruct (key_eqb k k') eqn:E; [now exists v'|].
  destruct Hin as [-> | Hin]; [now rewrite key_eqb_refl in E | now apply IH].
Qed.

Lemma dict_keys_set (V : Type) (k : Key) (v : V) (d : list (Key * V)) :
  exists rest, dict_keys (dict_set k v d) = dict_keys d ++ rest.
Proof.
  induction d as [|[k' v'] t IH]; simpl.
  - now exists [k].
  - destruct (key_eqb k k'); simpl.
    + exists []. now rewrite app_nil_r.
    + destruct IH as [rest IH]. exists rest. f_equal. exact IH.
Qed.

Lemma dict_keys_update (V : Type) (other : list (Key * V)) :
  forall d, exists rest, dict_keys (dict_update d other) = dict_keys d ++ rest.
Proof.
  unfold dict_update.
  induction other as [|[k v] t IH]; intro d; simpl.
  - exists []. now rewrite app_nil_r.
  - destruct (IH (dict_set k v d)) as [rest1 H1].
    destruct (dict_keys_set V k v d) as [rest2 H2].
    exists (rest2 ++ rest1). simpl in H1. now rewrite H1, H2, <- app_assoc.
Qed.

(** Looking a key up after [d.update(other)]: the value of [other] when it
    has the key, the value of [d] otherwise. *)
Lemma dict_get_update (V : Type) (k : Key) (other : list (Key * V)) :
  NoDup (dict_keys other) ->
  forall d,
    dict_get k (dict_update d other)
    = match dict_get k other with
      | Some v => Some v
      | None => dict_get k d
      end.
Proof.
  unfold dict_update.
  induction other as [|[k0 v0] t IH]; intros Hnd d; simpl; [reflexivity|].
  inversion Hnd as [|? ? Hnotin Hnd']; subst.
  rewrite (IH Hnd'). destruct (key_eqb k k0) eqn:E.
  - apply key_eqb_eq in E. subst k0.
    rewrite (dict_get_None V k t Hnotin). apply dict_get_set_same.
  - apply key_eqb_neq in E. now rewrite (dict_get_set_other V k k0 v0 d E).
Qed.

(** X5: an item that has a label key but no [reference] entry makes the
    builder raise [KeyError] for ['reference'], and one that has
    [reference] but no [prediction] raises it for ['prediction'], whatever
    well-formed items came before and whatever follows: no table is
    returned. *)
Theorem missing_tag_raises_KeyError (pre post : list Dict) (item : Dict) :
  Forall SubjectResult pre ->
  item_labels item <> [] ->
  (dict_get (KStr "reference") item = None ->
   build_output_dataframe (pre ++ item :: post) = Err (KeyError (KStr "reference")))
  /\ (dict_get (KStr "reference") item <> None ->
      dict_get (KStr "prediction") item = None ->
      build_output_dataframe (pre ++ item :: post) = Err (KeyError (KStr "prediction"))).
Proof.
  intros Hpre Hlabels.
  destruct (item_labels item) as [|label rest] eqn:El; [congruence|].
  assert (In label (dict_keys item)) as Hkey.
  { assert (In label (item_labels item)) as H by (rewrite El; now left).
    unfold item_labels in H. now apply filter_In in H. }
  destruct (dict_get_Some _ label item Hkey) as [metrics Hmetrics].
  assert (forall e, build_row item label = Err e ->
                    build_output_dataframe (pre ++ item :: post) = Err e) as Hraise.
  { intros e He. unfold build_output_dataframe.
    rewrite build_rows_app, (build_rows_ok pre []).
    - simpl. rewrite El. simpl. now rewrite He.
    - eapply Forall_impl; [|exact Hpre]. exact SubjectResult_build_row. }
  split.
  - intro Href. apply Hraise. unfold build_row. now rewrite Hmetrics, Href.
  - intros Href Hpred. apply Hraise. unfold build_row. rewrite Hmetrics.
    destruct (dict_get (KStr "reference") item); [|congruence]. now rewrite Hpred.
Qed.

(** X6: an item without label keys -- nothing but [reference] and
    [prediction], or nothing at all -- is skipped unread: the builder
    returns what it returns without the item, and the empty list gives the
    table without rows and columns. *)
Theorem item_without_labels_is_skipped (pre post : list Dict) (item : Dict) :
  item_labels item = [] ->
  build_output_dataframe (pre ++ item :: post) = build_output_dataframe (pre ++ post)
  /\ build_output_dataframe [] = Ok {| columns := []; values := [] |}.
Proof.
  intro Hlabels. split; [|reflexivity].
  unfold build_output_dataframe. rewrite !build_rows_app.
  destruct (build_rows pre []) as [rows|e]; [|reflexivity].
  simpl. now rewrite Hlabels.
Qed.

(** X7: the row of a label is the three identifying fields updated with the
    label's record: under every key the row holds the record's value when
    the record has the key -- also under [reference], [prediction] or
    [label], which a record field of that name replaces -- and the
    identifying value otherwise; the three identifying keys stay the first
    three columns of the row. *)
Theorem record_fields_override_row_cells
  (item : Dict) (label : Key) (record row : Dict) :
  dict_get label item = Some (PDict record) ->
  NoDup (dict_keys record) ->
  build_row item label = Ok row ->
  (forall k : Key,
      dict_get k row
      = match dict_get k record with
        | Some v => Some v
        | None =>
            dict_get k [(KStr "reference", field_of item (KStr "reference"));
                        (KStr "prediction", field_of item (KStr "prediction"));
                        (KStr "label", value_of_key label)]
        end)
  /\ exists rest : list Key,
       dict_keys row = [KStr "reference"; KStr "prediction"; KStr "label"] ++ rest.
Proof.
  intros Hrecord Hnd Hrow. unfold build_row in Hrow. rewrite Hrecord in Hrow.
  unfold field_of.
  destruct (dict_get (KStr "reference") item) as [reference|]; [|discriminate].
  destruct (dict_get (KStr "prediction") item) as [prediction|]; [|discriminate].
  simpl in Hrow. inversion Hrow; subst row. split.
  - intro k. now apply dict_get_update.
  - apply (dict_keys_update _ record
             [(KStr "reference", reference); (KStr "prediction", prediction);
              (KStr "label", value_of_key label)]).
Qed.

(* ------------------------------------------------------------------ *)
(** ** Label discovery and the voxel values *)

(** X8: the discovered labels depend only on which values occur in the two
    volumes -- not on where, how often or in what shape -- and are the same
    when reference and prediction are exchanged. *)
Theorem unique_labels_value_sets (R R' P P' : ndarray) :
  (forall x, In x (data R) <-> In x (data R')) ->
  (forall x, In x (data P) <-> In x (data P')) ->
  unique_labels R P = unique_labels R' P'
  /\ unique_labels R P = unique_labels P R.
Proof.
  intros HR HP.
  split; apply StronglySorted_lt_ext; try apply unique_labels_sorted;
    intro x; rewrite !unique_labels_In.
  - rewrite (HR x), (HP x). reflexivity.
  - split; intros [Hx [H | H]]; auto.
Qed.

End Metrics.

(* ------------------------------------------------------------------ *)
(** ** The scenarios of the specification, run on the concrete engine *)

Local Notation demo_compute :=
  (compute_metrics_single_subject demo_abspath demo_files demo_BPM).

Lemma demo_BPM_flags :
  forall (pv rv : ndarray) (label : float64) (m : list string) (w : nat),
    flag_empty_ref (fst (demo_BPM (eq_mask pv label) (eq_mask rv label) m w))
    = empty_mask (eq_mask rv label)
    /\ flag_empty_pred (fst (demo_BPM (eq_mask pv label) (eq_mask rv label) m w))
       = empty_mask (eq_mask pv label).
Proof. intros. split; reflexivity. Defined.

Lemma demo_BPM_fields :
  forall (p r : ndarray) (m : list string) (w : nat),
    NoDup (dict_keys (to_dict_meas (fst (demo_BPM p r m w))))
    /\ (forall k, In k (dict_keys (to_dict_meas (fst (demo_BPM p r m w)))) ->
                  ~ In k (reserved_fields ++ [KStr "EmptyRef"; KStr "EmptyPred"])).
Proof.
  intros p r m w. unfold demo_BPM. cbn [fst to_dict_meas filter].
  destruct (existsb (String.eqb "dsc") m), (existsb (String.eqb "nsd") m);
    cbn [map dict_keys fst];
    (split;
     [ repeat constructor; simpl; intuition discriminate
     | intros k H1 H2; simpl in H1, H2; intuition (subst; discriminate) ]).
Defined.

Lemma demo_BPM_deterministic :
  forall (p r : ndarray) (m : list string) (w1 w2 : nat),
    fst (demo_BPM p r m w1) = fst (demo_BPM p r m w2).
Proof. reflexivity. Defined.

Lemma all_background_single_entry_witness :
  demo_compute (fst demo_B) (snd demo_B) demo_metrics 0%nat
  = (Ok [(KStr "reference", PStr "B_ref.nii.gz");
         (KStr "prediction", PStr "B_pred.nii.gz");
         (KNum 0, PDict [(KStr "dsc", PFloat 0); (KStr "nsd", PFloat 0);
                         (KStr "EmptyRef", PBool true);
                         (KStr "EmptyPred", PBool true)])],
     1%nat).
Proof.
  refine (proj1 (all_background_single_entry
                   Z nat demo_abspath demo_files demo_BPM
                   "B_pred.nii.gz" "B_ref.nii.gz" demo_metrics
                   demo_B_pred demo_B_ref
                   eq_refl eq_refl 0%nat eq_refl _ _));
    unfold all_background; simpl; repeat constructor.
Defined.

Lemma every_label_has_one_record_witness :
  exists (result : Dict Z) (w' w0 : nat) (bpm : BPMObj Z),
    demo_compute (fst demo_A) (snd demo_A) demo_metrics 0%nat = (Ok result, w')
    /\ bpm = fst (demo_BPM (eq_mask demo_A_pred 2) (eq_mask demo_A_ref 2)
                           demo_metrics w0)
    /\ List.length (filter (key_eqb (KNum 2)) (dict_keys result)) = 1%nat
    /\ dict_get (KNum 2) result = Some (PDict (dict_seg_of bpm))
    /\ dict_get (KStr "EmptyRef") (dict_seg_of bpm) = Some (PBool (flag_empty_ref bpm))
    /\ dict_get (KStr "EmptyPred") (dict_seg_of bpm) = Some (PBool (flag_empty_pred bpm))
    /\ (flag_empty_ref bpm = true <-> ~ In (Num 2) (data demo_A_ref))
    /\ (flag_empty_pred bpm = true <-> ~ In (Num 2) (data demo_A_pred)).
Proof.
  refine (every_label_has_one_record
            Z nat demo_abspath demo_files demo_BPM
            "A_pred.nii.gz" "A_ref.nii.gz" demo_metrics demo_A_pred demo_A_ref
            eq_refl eq_refl demo_BPM_flags 0%nat 2 eq_refl _ _).
  - discriminate.
  - left. simpl. auto.
Defined.

(** The claim C2 as it is stated fails on a reference that holds NaN beside
    the label 1: NaN is a non-zero value of the reference and a discovered
    label, the loop leaves at 1, the maximum, and NaN gets no entry.  On a
    reference whose only non-zero voxel is NaN, the NaN entry says that the
    reference mask is empty although the reference holds NaN. *)
Lemma nan_label_gets_no_record :
  shape demo_M_pred = shape demo_M_ref
  /\ In NaN (data demo_M_ref)
  /\ NaN <> Num 0
  /\ unique_labels demo_M_ref demo_M_pred = [Num 1; NaN]
  /\ demo_compute (fst demo_M) (snd demo_M) demo_metrics 0%nat
     = (Ok [(KStr "reference", PStr "M_ref.nii.gz");
            (KStr "prediction", PStr "M_pred.nii.gz");
            (KNum 1, PDict [(KStr "dsc", PFloat 0); (KStr "nsd", PFloat 0);
                            (KStr "EmptyRef", PBool false);
                            (KStr "EmptyPred", PBool true)])],
        1%nat)
  /\ (forall (result : Dict Z) (w' : nat),
        demo_compute (fst demo_M) (snd demo_M) demo_metrics 0%nat = (Ok result, w') ->
        dict_get (KNum NaN) result = None)
  /\ In NaN (data demo_N_ref)
  /\ demo_compute (fst demo_N) (snd demo_N) demo_metrics 0%nat
     = (Ok [(KStr "reference", PStr "N_ref.nii.gz");
            (KStr "prediction", PStr "N_pred.nii.gz");
            (KNum NaN, PDict [(KStr "dsc", PFloat 0); (KStr "nsd", PFloat 0);
                              (KStr "EmptyRef", PBool true);
                              (KStr "EmptyPred", PBool true)]);
            (KNum 0, PDict [(KStr "dsc", PFloat 0); (KStr "nsd", PFloat 0);
                            (KStr "EmptyRef", PBool false);
                            (KStr "EmptyPred", PBool true)])],
        2%nat).
Proof.
  split; [reflexivity|]. split; [now left|]. split; [discriminate|].
  split; [reflexivity|]. split; [reflexivity|].
  split; [|split; [now left | reflexivity]].
  intros result w' H. inversion H. reflexivity.
Qed.

Lemma demo_A_nan_free : nan_free_subject demo_abspath demo_files demo_A.
Proof.
  intros V [H | H]; inversion H; unfold nan_free; simpl;
    intuition discriminate.
Defined.

Lemma demo_B_nan_free : nan_free_subject demo_abspath demo_files demo_B.
Proof.
  intros V [H | H]; inversion H; unfold nan_free; intro Hin;
    apply repeat_spec in Hin; discriminate.
Defined.

Lemma sentinel_loop_refines_explicit_conditional_witness :
  demo_compute (fst demo_A) (snd demo_A) demo_metrics 0%nat
  = evaluate_subject_explicit demo_abspath demo_files demo_BPM
      (fst demo_A) (snd demo_A) demo_metrics 0%nat.
Proof.
  exact (sentinel_loop_refines_explicit_conditional
           Z nat demo_abspath demo_files demo_BPM
           "A_pred.nii.gz" "A_ref.nii.gz" demo_metrics 0%nat demo_A_nan_free).
Defined.

(** The claim C7 as it is stated fails on the same-shaped pair whose
    reference holds NaN as its only non-zero voxel: NaN is not equal to the
    maximum, itself, so the loop does not leave through [break] and the
    [else] block adds the entry of key 0, which the explicit conditional,
    having found a label, does not add.  It also fails when NaN comes after
    the label 1: the loop leaves at 1 and the conditional goes on to NaN. *)
Lemma sentinel_loop_differs_on_nan :
  shape demo_N_pred = shape demo_N_ref
  /\ demo_compute (fst demo_N) (snd demo_N) demo_metrics 0%nat
     = (Ok [(KStr "reference", PStr "N_ref.nii.gz");
            (KStr "prediction", PStr "N_pred.nii.gz");
            (KNum NaN, PDict [(KStr "dsc", PFloat 0); (KStr "nsd", PFloat 0);
                              (KStr "EmptyRef", PBool true);
                              (KStr "EmptyPred", PBool true)]);
            (KNum 0, PDict [(KStr "dsc", PFloat 0); (KStr "nsd", PFloat 0);
                            (KStr "EmptyRef", PBool false);
                            (KStr "EmptyPred", PBool true)])],
        2%nat)
  /\ evaluate_subject_explicit demo_abspath demo_files demo_BPM
       (fst demo_N) (snd demo_N) demo_metrics 0%nat
     = (Ok [(KStr "reference", PStr "N_ref.nii.gz");
            (KStr "prediction", PStr "N_pred.nii.gz");
            (KNum NaN, PDict [(KStr "dsc", PFloat 0); (KStr "nsd", PFloat 0);
                              (KStr "EmptyRef", PBool true);
                              (KStr "EmptyPred", PBool true)])],
        1%nat)
  /\ demo_compute (fst demo_N) (snd demo_N) demo_metrics 0%nat
     <> evaluate_subject_explicit demo_abspath demo_files demo_BPM
          (fst demo_N) (snd demo_N) demo_metrics 0%nat
  /\ shape demo_M_pred = shape demo_M_ref
  /\ demo_compute (fst demo_M) (snd demo_M) demo_metrics 0%nat
     <> evaluate_subject_explicit demo_abspath demo_files demo_BPM
          (fst demo_M) (snd demo_M) demo_metrics 0%nat.
Proof.
  split; [reflexivity|]. split; [reflexivity|]. split; [reflexivity|].
  split; [discriminate|]. split; [reflexivity | discriminate].
Qed.

(** The claim C8 as it is stated fails on a volume with a NaN voxel: the
    voxel is not background, NaN is a discovered label, its mask is empty
    and the reconstruction has background where the volume has NaN. *)
Lemma round_trip_loses_nan :
  data demo_N_ref = [NaN; Num 0; Num 0; Num 0]
  /\ In NaN (unique_labels demo_N_ref demo_N_pred)
  /\ data (eq_mask demo_N_ref NaN) = [Num 0; Num 0; Num 0; Num 0]
  /\ reconstruct demo_N_ref (unique_labels demo_N_ref demo_N_pred)
     = [Num 0; Num 0; Num 0; Num 0]
  /\ reconstruct demo_N_ref (unique_labels demo_N_ref demo_N_pred)
     <> data demo_N_ref.
Proof.
  split; [reflexivity|]. split; [now left|]. split; [reflexivity|].
  split; [reflexivity | discriminate].
Qed.

Lemma shape_mismatch_aborts_run_witness :
  (forall w : nat,
      demo_compute (fst demo_C) (snd demo_C) demo_metrics w
      = (Err (ValueError
                "The prediction and reference (ground truth) images must have the same shape. The prediction image has shape (4, 4, 5) and the ground truth image has shape (4, 4, 4)."),
         w))
  /\ main demo_abspath demo_files demo_BPM [demo_A; demo_C; demo_B] demo_metrics 0%nat
     = (Err (ValueError (shape_mismatch_message demo_C_pred demo_C_ref)), 3%nat).
Proof.
  destruct (shape_mismatch_aborts_run
              Z nat demo_abspath demo_files demo_BPM
              "C_pred.nii.gz" "C_ref.nii.gz" demo_metrics demo_C_pred demo_C_ref
              eq_refl eq_refl ltac:(discriminate)) as [Hone [_ [Hrun _]]].
  split; [exact Hone|].
  refine (Hrun [demo_A] [demo_B] _ 0%nat 3%nat _). reflexivity.
Defined.

Lemma demo_output_list_run :
  main_loop demo_abspath demo_files demo_BPM [demo_A; demo_B] demo_metrics [] 0%nat
  = (Ok demo_output_list, 4%nat).
Proof. reflexivity. Qed.

Lemma demo_contents_results : map (@subject_result Z) demo_contents = demo_output_list.
Proof. reflexivity. Qed.

(** Tactics that check a concrete dictionary against the data model. *)

Ltac solve_keys :=
  repeat constructor; simpl;
  try (intros H; repeat (destruct H as [H | H]; try discriminate H); contradiction).

Ltac solve_record :=
  cbn [snd];
  match goal with
  | |- MetricRecord ?r =>
      let fields := eval cbv in (firstn (List.length r - 2) r) in
      exists fields
  end;
  eexists; eexists; split; [reflexivity|]; split;
  [ solve_keys
  | intros k H1 H2; simpl in H1, H2;
    repeat (destruct H1 as [H1 | H1]; [subst k; intuition discriminate|]);
    contradiction ].

Ltac solve_subject_result :=
  eexists; eexists;
  match goal with
  | |- exists entries, _ :: _ :: ?tl = _ /\ _ =>
      let es := eval cbv in
        (map (fun kv => match kv with
                        | (KNum l, PDict r) => (l, r)
                        | _ => (Num 0, [])
                        end) tl)
      in exists es
  end;
  split; [reflexivity|]; split; [solve_keys|];
  repeat (constructor; [solve_record|]); constructor.

Ltac solve_well_formed :=
  split; [solve_keys | repeat (constructor; [solve_record|]); constructor].

Lemma demo_output_list_wf : Forall (@SubjectResult Z) demo_output_list.
Proof. repeat (constructor; [solve_subject_result|]). constructor. Qed.


Lemma demo_contents_wf : Forall (@well_formed Z) demo_contents.
Proof. repeat (constructor; [solve_well_formed|]). constructor. Defined.

Lemma demo_unsorted_wf : Forall (@well_formed Z) [demo_unsorted].
Proof. repeat (constructor; [solve_well_formed|]). constructor. Defined.

Lemma build_table_one_row_per_label_witness :
  build_rows demo_output_list []
  = Ok [ [(KStr "reference", PStr "A_ref.nii.gz");
          (KStr "prediction", PStr "A_pred.nii.gz"); (KStr "label", PNum 1);
          (KStr "dsc", PFloat 2%Z); (KStr "nsd", PFloat 2%Z);
          (KStr "EmptyRef", PBool false); (KStr "EmptyPred", PBool false)];
         [(KStr "reference", PStr "A_ref.nii.gz");
          (KStr "prediction", PStr "A_pred.nii.gz"); (KStr "label", PNum 2);
          (KStr "dsc", PFloat 0%Z); (KStr "nsd", PFloat 0%Z);
          (KStr "EmptyRef", PBool false); (KStr "EmptyPred", PBool true)];
         [(KStr "reference", PStr "A_ref.nii.gz");
          (KStr "prediction", PStr "A_pred.nii.gz"); (KStr "label", PNum 3);
          (KStr "dsc", PFloat 0%Z); (KStr "nsd", PFloat 0%Z);
          (KStr "EmptyRef", PBool true); (KStr "EmptyPred", PBool false)];
         [(KStr "reference", PStr "B_ref.nii.gz");
          (KStr "prediction", PStr "B_pred.nii.gz"); (KStr "label", PNum 0);
          (KStr "dsc", PFloat 0%Z); (KStr "nsd", PFloat 0%Z);
          (KStr "EmptyRef", PBool true); (KStr "EmptyPred", PBool true)] ]
  /\ List.length (values (pd_DataFrame (expected_rows demo_contents))) = 4%nat
  /\ columns (pd_DataFrame (expected_rows demo_contents))
     = [KStr "reference"; KStr "prediction"; KStr "label";
        KStr "dsc"; KStr "nsd"; KStr "EmptyRef"; KStr "EmptyPred"].
Proof.
  destruct (build_table_one_row_per_label Z demo_contents demo_contents_wf)
    as [Hrows [_ [_ [Hlen Hcols]]]].
  split; [exact Hrows|]. split; [exact Hlen|].
  refine (proj1 (Hcols [KStr "dsc"; KStr "nsd"; KStr "EmptyRef"; KStr "EmptyPred"]
                       _ _)).
  - discriminate.
  - repeat constructor.
Defined.


(** The table of the heterogeneous results: the union of the fields, the
    missing marker where a row lacks a field. *)
Lemma demo_heterogeneous_table :
  build_output_dataframe demo_heterogeneous
  = Ok {| columns := [KStr "reference"; KStr "prediction"; KStr "label";
                      KStr "dsc"; KStr "EmptyRef"; KStr "EmptyPred"; KStr "nsd"];
          values := [ [Some (PStr "A_ref.nii.gz"); Some (PStr "A_pred.nii.gz");
                       Some (PNum 1); Some (PFloat 2); Some (PBool false);
                       Some (PBool false); None];
                      [Some (PStr "B_ref.nii.gz"); Some (PStr "B_pred.nii.gz");
                       Some (PNum 0); None; Some (PBool true);
                       Some (PBool true); Some (PFloat 0)] ] |}.
Proof. reflexivity. Qed.

Lemma demo_same_shaped :
  Forall (same_shaped demo_abspath demo_files) [demo_A; demo_B].
Proof.
  constructor; [exists demo_A_pred, demo_A_ref; repeat split|].
  constructor; [exists demo_B_pred, demo_B_ref; repeat split|].
  constructor.
Defined.

Lemma demo_nan_free :
  Forall (nan_free_subject demo_abspath demo_files) [demo_A; demo_B].
Proof.
  constructor; [exact demo_A_nan_free|].
  constructor; [exact demo_B_nan_free | constructor].
Defined.

Lemma rows_follow_subject_then_label_order_witness :
  (exists df : DataFrame Z,
      build_output_dataframe [subject_result demo_unsorted] = Ok df
      /\ df_column df (KStr "label") = [Some (PNum 2); Some (PNum 1)])
  /\ exists (df : DataFrame Z) (w' : nat),
       main demo_abspath demo_files demo_BPM [demo_A; demo_B] demo_metrics 0%nat
       = (Ok df, w')
       /\ df_column df (KStr "reference")
          = [Some (PStr "A_ref.nii.gz"); Some (PStr "A_ref.nii.gz");
             Some (PStr "A_ref.nii.gz"); Some (PStr "B_ref.nii.gz")]
       /\ df_column df (KStr "label")
          = [Some (PNum 1); Some (PNum 2); Some (PNum 3); Some (PNum 0)].
Proof.
  destruct (rows_follow_subject_then_label_order
              Z nat demo_abspath demo_files demo_BPM demo_BPM_fields)
    as [Hbuilder Hrun].
  split.
  - destruct (Hbuilder [demo_unsorted] demo_unsorted_wf)
      as [df [Hbuild [_ [_ Hlabel]]]].
    exists df. split; [exact Hbuild | exact Hlabel].
  - destruct (Hrun [demo_A; demo_B] demo_metrics 0%nat demo_same_shaped demo_nan_free)
      as [df [w' [Hmain [Href [_ [Hlabel _]]]]]].
    exists df, w'. split; [exact Hmain|]. split; [exact Href | exact Hlabel].
Defined.

(** The claim C6 as it is stated fails on a Subject Result that holds the
    label 2 before the label 1: the builder keeps that order, so the label
    column reads 2, 1.  It also fails on what the evaluator returns for the
    pair whose reference holds NaN as its only non-zero voxel: the reserved
    key 0 comes last, after NaN. *)
Lemma rows_keep_insertion_order :
  well_formed demo_unsorted
  /\ SubjectResult (subject_result demo_unsorted)
  /\ (exists df : DataFrame Z,
        build_output_dataframe [subject_result demo_unsorted] = Ok df
        /\ df_column df (KStr "label") = [Some (PNum 2); Some (PNum 1)])
  /\ ~ StronglySorted float_lt [Num 2; Num 1]
  /\ same_shaped demo_abspath demo_files demo_N
  /\ (exists (df : DataFrame Z) (w' : nat),
        main demo_abspath demo_files demo_BPM [demo_N] demo_metrics 0%nat = (Ok df, w')
        /\ df_column df (KStr "label") = [Some (PNum NaN); Some (PNum 0)]).
Proof.
  split; [solve_well_formed|].
  split; [apply well_formed_SubjectResult; solve_well_formed|].
  split.
  { exists (pd_DataFrame (expected_rows [demo_unsorted])). split; reflexivity. }
  split.
  { intro H. inversion H as [|? ? _ Hall]; subst.
    inversion Hall as [|? ? Hlt _]; subst. discriminate Hlt. }
  split; [exists demo_N_pred, demo_N_ref; repeat split|].
  exists (pd_DataFrame
            (table_rows
               [[(KStr "reference", PStr "N_ref.nii.gz");
                 (KStr "prediction", PStr "N_pred.nii.gz");
                 (KNum NaN, PDict [(KStr "dsc", PFloat 0%Z); (KStr "nsd", PFloat 0%Z);
                                   (KStr "EmptyRef", PBool true);
                                   (KStr "EmptyPred", PBool true)]);
                 (KNum 0, PDict [(KStr "dsc", PFloat 0%Z); (KStr "nsd", PFloat 0%Z);
                                 (KStr "EmptyRef", PBool false);
                                 (KStr "EmptyPred", PBool true)])]])),
         2%nat.
  split; reflexivity.
Qed.

Lemma compute_metrics_single_subject_deterministic_witness :
  fst (demo_compute (fst demo_A) (snd demo_A) demo_metrics 0%nat)
  = fst (demo_compute (fst demo_A) (snd demo_A) demo_metrics 7%nat)
  /\ fst (demo_compute (fst demo_A) (snd demo_A) demo_metrics
            (snd (demo_compute (fst demo_A) (snd demo_A) demo_metrics 0%nat)))
     = fst (demo_compute (fst demo_A) (snd demo_A) demo_metrics 0%nat).
Proof.
  exact (compute_metrics_single_subject_deterministic
           Z nat demo_abspath demo_files demo_BPM demo_BPM_deterministic
           "A_pred.nii.gz" "A_ref.nii.gz" demo_metrics 0%nat 7%nat).
Defined.

(* ------------------------------------------------------------------ *)
(** ** Folders, missing files and ill-formed results, on the concrete store *)

Lemma get_images_in_folder_sorted_listing_witness :
  exists prediction_files reference_files : list string,
    get_images_in_folder demo_listdir "preds" "refs"
    = Ok (prediction_files, reference_files)
    /\ List.length prediction_files = List.length reference_files
    /\ StronglySorted str_le prediction_files.
Proof.
  destruct (get_images_in_folder_sorted_listing demo_listdir "preds" "refs" eq_refl)
    as [pf [rf [Hok [Hlen [Hsorted _]]]]].
  exists pf, rf. split; [exact Hok|]. split; [exact Hlen | exact Hsorted].
Defined.

Lemma count_mismatch_aborts_run_witness :
  main_args demo_abspath demo_files demo_BPM demo_isdir demo_listdir
            "preds" "refs_short" demo_metrics 0%nat
  = (Err (ValueError
            "The number of files in the directories is different. Prediction files: 2, Reference files: 1"),
     0%nat).
Proof.
  refine (proj2 (count_mismatch_aborts_run
                   Z nat demo_abspath demo_files demo_BPM demo_isdir demo_listdir
                   "preds" "refs_short" eq_refl eq_refl demo_metrics 0%nat _)).
  discriminate.
Defined.

Lemma same_names_are_paired_witness :
  get_images_in_folder demo_listdir "preds" "refs"
  = Ok (["preds/sub-01.nii.gz"; "preds/sub-02.nii.gz"],
        ["refs/sub-01.nii.gz"; "refs/sub-02.nii.gz"]).
Proof.
  refine (proj1 (same_names_are_paired
                   Z nat demo_abspath demo_files demo_BPM demo_isdir demo_listdir
                   "preds" "refs" eq_refl eq_refl demo_metrics 0%nat _ _)).
  - apply perm_swap.
  - intros f [<- | [<- | []]]; reflexivity.
Defined.

Lemma missing_file_is_fatal_witness :
  exists (e : PyError) (w' : nat),
    main demo_abspath demo_files demo_BPM
         [demo_A; ("X_pred.nii.gz", "A_ref.nii.gz"); demo_B] demo_metrics 0%nat
    = (Err e, w').
Proof.
  refine (proj2 (missing_file_is_fatal
                   Z nat demo_abspath demo_files demo_BPM
                   "X_pred.nii.gz" "A_ref.nii.gz" demo_metrics (or_introl eq_refl))
                _ 0%nat _).
  right. now left.
Defined.

Lemma missing_tag_raises_KeyError_witness :
  build_output_dataframe (demo_output_list ++ [demo_untagged])
  = Err (KeyError (KStr "reference")).
Proof.
  refine (proj1 (missing_tag_raises_KeyError
                   Z demo_output_list [] demo_untagged demo_output_list_wf _)
                eq_refl).
  discriminate.
Defined.

Lemma item_without_labels_is_skipped_witness :
  build_output_dataframe
    (demo_output_list ++ [[(KStr "reference", PStr "A_ref.nii.gz");
                           (KStr "prediction", PStr "A_pred.nii.gz")]])
  = build_output_dataframe (demo_output_list ++ []).
Proof.
  exact (proj1 (item_without_labels_is_skipped
                  Z demo_output_list []
                  [(KStr "reference", PStr "A_ref.nii.gz");
                   (KStr "prediction", PStr "A_pred.nii.gz")] eq_refl)).
Defined.

Lemma record_fields_override_row_cells_witness :
  exists row : Dict Z,
    build_row demo_label_field (KNum 1) = Ok row
    /\ dict_get (KStr "label") row = Some (PStr "cord")
    /\ dict_get (KStr "reference") row = Some (PStr "A_ref.nii.gz").
Proof.
  eexists. split; [reflexivity|].
  destruct (record_fields_override_row_cells
              Z demo_label_field (KNum 1)
              [(KStr "dsc", PFloat 2); (KStr "label", PStr "cord")] _
              eq_refl ltac:(solve_keys) eq_refl) as [Hcells _].
  split; [exact (Hcells (KStr "label")) | exact (Hcells (KStr "reference"))].
Defined.

Lemma unique_labels_value_sets_witness :
  unique_labels demo_A_ref demo_A_pred
  = unique_labels {| shape := [3]%nat; data := [Num 2; Num 1; Num 0] |}
                  {| shape := [3]%nat; data := [Num 3; Num 0; Num 1] |}
  /\ unique_labels demo_A_ref demo_A_pred = unique_labels demo_A_pred demo_A_ref.
Proof.
  apply unique_labels_value_sets; intro x; simpl; split; intro H;
    repeat (destruct H as [H | H]; [subst x; auto 6|]); contradiction.
Defined.

(* ------------------------------------------------------------------ *)
(** ** Properties of nnUNetV2_to_bids.py *)

Module BidsFacts.
Import Bids.

Lemma split_char_nonempty (sep : ascii) (s : string) : split_char sep s <> [].
Proof.
  induction s as [|c t IH]; simpl; [discriminate|].
  destruct (Ascii.eqb c sep); [discriminate|].
  now destruct (split_char sep t).
Qed.

Lemma split_char_no_sep (sep : ascii) (s : string) :
  contains_char sep s = false -> split_char sep s = [s].
Proof.
  induction s as [|c t IH]; simpl; intro H; [reflexivity|].
  apply orb_false_iff in H. destruct H as [Hc Ht].
  now rewrite Hc, (IH Ht).
Qed.

Lemma split_char_append (sep : ascii) (a b : string) :
  contains_char sep a = false ->
  split_char sep (a ++ String sep b) = a :: split_char sep b.
Proof.
  induction a as [|c t IH]; simpl; intro H.
  - now rewrite Ascii.eqb_refl.
  - apply orb_false_iff in H. destruct H as [Hc Ht]. now rewrite Hc, (IH Ht).
Qed.

Lemma split_char_length (sep : ascii) (s : string) :
  contains_char sep s = true -> (2 <= List.length (split_char sep s))%nat.
Proof.
  induction s as [|c t IH]; simpl; intro H; [discriminate|].
  destruct (Ascii.eqb c sep); simpl in *.
  - pose proof (split_char_nonempty sep t).
    destruct (split_char sep t); [congruence | simpl; lia].
  - specialize (IH H). destruct (split_char sep t); simpl in *; lia.
Qed.

(** Joining the fields of a split gives the string back. *)
Lemma concat_split_char (sep : ascii) (s : string) :
  String.concat (String sep EmptyString) (split_char sep s) = s.
Proof.
  induction s as [|c t IH]; simpl; [reflexivity|].
  pose proof (split_char_nonempty sep t) as Hne.
  destruct (Ascii.eqb c sep) eqn:E.
  - apply Ascii.eqb_eq in E. subst c.
    destruct (split_char sep t) as [|f fs]; [congruence|].
    simpl in *. now rewrite IH.
  - destruct (split_char sep t) as [|f fs]; [congruence|].
    destruct fs; simpl in *; now rewrite IH.
Qed.

(** Splitting the join of fields that do not contain the separator gives the
    fields back. *)
Lemma split_char_concat (sep : ascii) (fields : list string) :
  fields <> [] ->
  Forall (fun f => contains_char sep f = false) fields ->
  split_char sep (String.concat (String sep EmptyString) fields) = fields.
Proof.
  induction fields as [|f fs IH]; intros Hne Hall; [congruence|].
  inversion Hall as [|? ? Hf Hfs]; subst.
  destruct fs as [|g fs]; simpl.
  - now apply split_char_no_sep.
  - change (f ++ String sep EmptyString ++ String.concat (String sep EmptyString) (g :: fs))%string
      with (f ++ String sep (String.concat (String sep EmptyString) (g :: fs)))%string.
    rewrite split_char_append by assumption.
    f_equal. apply IH; [discriminate | assumption].
Qed.

Lemma contains_char_append (c : ascii) (a b : string) :
  contains_char c (a ++ b) = (contains_char c a || contains_char c b)%bool.
Proof.
  induction a as [|x t IH]; simpl; [reflexivity|].
  now rewrite IH, orb_assoc.
Qed.

Lemma contains_char_concat (c sep : ascii) (fields : list string) :
  Ascii.eqb sep c = false ->
  Forall (fun f => contains_char c f = false) fields ->
  contains_char c (String.concat (String sep EmptyString) fields) = false.
Proof.
  intros Hsep Hall. induction Hall as [|f fs Hf Hfs IH]; [reflexivity|].
  destruct fs as [|g fs]; [exact Hf|].
  change (String.concat (String sep EmptyString) (f :: g :: fs))
    with (f ++ (String sep EmptyString
                ++ String.concat (String sep EmptyString) (g :: fs)))%string.
  rewrite !contains_char_append, Hf, IH. simpl. now rewrite Hsep.
Qed.

Lemma lstrip_char_head (c : ascii) (s : string) :
  lstrip_char c s = EmptyString
  \/ exists a t, lstrip_char c s = String a t /\ a <> c.
Proof.
  induction s as [|a t IH]; simpl; [now left|].
  destruct (Ascii.eqb a c) eqn:E; [exact IH|].
  right. exists a, t. split; [reflexivity|]. now apply Ascii.eqb_neq.
Qed.

Lemma nth_error_rev_1 (l : list string) :
  (2 <= List.length l)%nat ->
  nth_error (rev l) 1 = Some (nth (List.length l - 2) l EmptyString).
Proof.
  intro Hlen.
  rewrite (nth_error_nth' (rev l) EmptyString) by (rewrite length_rev; lia).
  f_equal. rewrite rev_nth by lia. reflexivity.
Qed.

Lemma hd_rev (l : list string) :
  (1 <= List.length l)%nat ->
  hd EmptyString (rev l) = nth (List.length l - 1) l EmptyString.
Proof.
  intro Hlen.
  transitivity (nth 0 (rev l) EmptyString); [now destruct (rev l)|].
  rewrite rev_nth by lia. reflexivity.
Qed.

(** X9: [get_subject_info] raises [IndexError] exactly when the part of the
    file name before its first dot contains no underscore, whatever the
    contrast dictionary is. *)
Theorem get_subject_info_IndexError {V : Type}
  (file_name : string) (contrast_dict : list (Key * V)) :
  get_subject_info file_name contrast_dict
  = Raise (IndexError "list index out of range")
  <-> contains_char "_" (hd EmptyString (split_char "." file_name)) = false.
Proof.
  unfold get_subject_info.
  set (name := hd EmptyString (split_char "." file_name)).
  split.
  - intro H. destruct (contains_char "_" name) eqn:E; [|reflexivity].
    apply split_char_length in E.
    rewrite (nth_error_rev_1 _ E) in H.
    match type of H with
    | match ?x with _ => _ end = _ => destruct x; discriminate
    end.
  - intro E. now rewrite (split_char_no_sep _ _ E).
Qed.

(** The key under which the contrast is looked up. *)
Lemma contrast_key_normal (raw : string) :
  let key := if String.eqb (lstrip_char "0" raw) "" then "0"%string
             else lstrip_char "0" raw in
  key <> EmptyString /\ (key = "0"%string \/ startswith key "0" = false).
Proof.
  simpl. destruct (lstrip_char_head "0" raw) as [-> | [a [t [-> Ha]]]]; simpl.
  - split; [discriminate | now left].
  - split; [discriminate|]. right. cbn [startswith].
    apply Ascii.eqb_neq in Ha. now rewrite Ha.
Qed.

(** X10: on a file name made of at least two fields joined by underscores,
    followed by a dot and anything, where no field contains an underscore or
    a dot, [get_subject_info] reads the fields back: the last field, without
    its leading zeros, is the contrast key, the one before is the number;
    with exactly four fields the first is the subject and the second the
    session, with any other number of fields there is no session and the
    subject is the join of all fields but the last two.  It raises
    [KeyError] with the contrast key when the dictionary lacks it. *)
Theorem get_subject_info_reads_fields {V : Type}
  (fields : list string) (ext : string) (contrast_dict : list (Key * V)) :
  (2 <= List.length fields)%nat ->
  Forall (fun f => contains_char "_" f = false /\ contains_char "." f = false) fields ->
  get_subject_info (String.concat "_" fields ++ "." ++ ext) contrast_dict
  = let raw := nth (List.length fields - 1) fields EmptyString in
    let key := if String.eqb (lstrip_char "0" raw) "" then "0"%string
               else lstrip_char "0" raw in
    match dict_get (KStr key) contrast_dict with
    | None => Raise (KeyError key)
    | Some contrast_bids =>
        Return (if Nat.eqb (List.length fields) 4 then nth 0 fields EmptyString
                else String.concat "_" (firstn (List.length fields - 2) fields),
                if Nat.eqb (List.length fields) 4 then Some (nth 1 fields EmptyString)
                else None,
                nth (List.length fields - 2) fields EmptyString,
                key, contrast_bids)
    end.
Proof.
  intros Hlen Hall.
  assert (Forall (fun f => contains_char "_" f = false) fields) as Hus
    by (eapply Forall_impl; [|exact Hall]; now intros f [H _]).
  assert (Forall (fun f => contains_char "." f = false) fields) as Hdot
    by (eapply Forall_impl; [|exact Hall]; now intros f [_ H]).
  assert (fields <> []) as Hne by (destruct fields; [simpl in Hlen; lia | discriminate]).
  unfold get_subject_info.
  change (String.concat "_" fields ++ "." ++ ext)%string
    with (String.concat "_" fields ++ String "." ext)%string.
  rewrite split_char_append by (now apply contains_char_concat).
  cbn [hd]. rewrite (split_char_concat "_" fields Hne Hus).
  rewrite (nth_error_rev_1 fields Hlen), (hd_rev fields) by lia.
  cbv zeta.
  destruct (dict_get _ contrast_dict) as [cb|]; [|reflexivity].
  destruct (Nat.eqb (List.length fields) 4) eqn:E4; [|reflexivity].
  apply Nat.eqb_eq in E4.
  destruct fields as [|f0 [|f1 [|f2 [|f3 [|f4 rest]]]]]; simpl in E4; try lia.
  reflexivity.
Qed.

(** X11: whenever [get_subject_info] returns, the contrast key it returns is
    not empty, has no leading zero unless it is ["0"] itself, and is a key
    of the contrast dictionary with the returned value; a session is only
    returned for a name of exactly four fields. *)
Theorem get_subject_info_returns {V : Type}
  (file_name : string) (contrast_dict : list (Key * V))
  (sub_name : string) (ses : option string) (bids_nb contrast : string)
  (contrast_bids : V) :
  get_subject_info file_name contrast_dict
  = Return (sub_name, ses, bids_nb, contrast, contrast_bids) ->
  dict_get (KStr contrast) contrast_dict = Some contrast_bids
  /\ contrast <> EmptyString
  /\ (contrast = "0"%string \/ startswith contrast "0" = false)
  /\ (ses <> None ->
      List.length (split_char "_" (hd EmptyString (split_char "." file_name))) = 4%nat).
Proof.
  unfold get_subject_info.
  set (info := split_char "_" (hd EmptyString (split_char "." file_name))).
  destruct (nth_error (rev info) 1) as [nb|]; [|discriminate].
  cbv zeta.
  pose proof (contrast_key_normal (hd EmptyString (rev info))) as Hkey.
  cbv zeta in Hkey.
  set (key := if String.eqb (lstrip_char "0" (hd EmptyString (rev info))) ""
              then "0"%string else lstrip_char "0" (hd EmptyString (rev info))) in *.
  destruct (dict_get (KStr key) contrast_dict) as [cb|] eqn:Hget; [|discriminate].
  intro H. inversion H; subst. clear H.
  split; [assumption|]. split; [apply Hkey|]. split; [apply Hkey|].
  destruct (Nat.eqb (List.length info) 4) eqn:E4.
  - intros _. now apply Nat.eqb_eq.
  - simpl. congruence.
Qed.

(** *** separate_labels *)

Lemma label_value_eqb_eq (a b : LabelValue) : label_value_eqb a b = true <-> a = b.
Proof.
  destruct a as [x|x], b as [y|y]; simpl; split; intro H; try discriminate.
  - apply Z.eqb_eq in H. now subst.
  - inversion H. apply Z.eqb_refl.
  - destruct (list_eq_dec Z.eq_dec x y); [now subst | discriminate].
  - inversion H; subst. now destruct (list_eq_dec Z.eq_dec y y).
Qed.

Lemma label_value_eqb_refl (a : LabelValue) : label_value_eqb a a = true.
Proof. now apply label_value_eqb_eq. Qed.

Lemma label_value_eqb_neq (a b : LabelValue) : label_value_eqb a b = false <-> a <> b.
Proof.
  rewrite <- label_value_eqb_eq. destruct (label_value_eqb a b); split; congruence.
Qed.

Lemma value_label_get_set_same (v : LabelValue) (n : string) (d : list (LabelValue * string)) :
  value_label_get v (value_label_set v n d) = Some n.
Proof.
  induction d as [|[v' n'] t IH]; simpl.
  - now rewrite label_value_eqb_refl.
  - destruct (label_value_eqb v v') eqn:E; simpl; rewrite E; [reflexivity | exact IH].
Qed.

Lemma value_label_get_set_other (v v' : LabelValue) (n : string)
  (d : list (LabelValue * string)) :
  v <> v' -> value_label_get v (value_label_set v' n d) = value_label_get v d.
Proof.
  intro Hne. apply label_value_eqb_neq in Hne.
  induction d as [|[v0 n0] t IH]; simpl.
  - now rewrite Hne.
  - destruct (label_value_eqb v' v0) eqn:E; simpl.
    + apply label_value_eqb_eq in E. subst v0. now rewrite Hne.
    + now rewrite IH.
Qed.

Lemma value_label_set_keys (v : LabelValue) (n : string) (d : list (LabelValue * string)) :
  map fst (value_label_set v n d)
  = if existsb (label_value_eqb v) (map fst d) then map fst d else map fst d ++ [v].
Proof.
  induction d as [|[v' n'] t IH]; simpl; [reflexivity|].
  destruct (label_value_eqb v v'); simpl; [reflexivity|].
  rewrite IH. now destruct (existsb (label_value_eqb v) (map fst t)).
Qed.

Lemma value_label_set_NoDup (v : LabelValue) (n : string) (d : list (LabelValue * string)) :
  NoDup (map fst d) -> NoDup (map fst (value_label_set v n d)).
Proof.
  intro Hnd. rewrite value_label_set_keys.
  destruct (existsb (label_value_eqb v) (map fst d)) eqn:E; [assumption|].
  apply NoDup_app; [assumption | repeat constructor; auto |].
  intros x Hx [Heq | []]. subst x.
  assert (existsb (label_value_eqb v) (map fst d) = true) as Ht
    by (apply existsb_exists; exists v; split; [assumption | apply label_value_eqb_refl]).
  congruence.
Qed.

Lemma value_label_set_ints (v : LabelValue) (n : string) (d : list (LabelValue * string)) :
  (exists z, v = LInt z) ->
  Forall (fun vn => exists z, fst vn = LInt z) d ->
  Forall (fun vn => exists z, fst vn = LInt z) (value_label_set v n d).
Proof.
  intros Hv Hall. induction Hall as [|[v' n'] t Hx Ht IH]; simpl.
  - now repeat constructor.
  - destruct (label_value_eqb v v'); constructor; assumption.
Qed.

Lemma value_label_get_In (v : LabelValue) (d : list (LabelValue * string)) :
  In v (map fst d) -> exists n, value_label_get v d = Some n.
Proof.
  induction d as [|[v' n'] t IH]; simpl; intro Hin; [contradiction|].
  destruct (label_value_eqb v v') eqn:E; [now exists n'|].
  destruct Hin as [-> | Hin]; [now rewrite label_value_eqb_refl in E | now apply IH].
Qed.

Lemma value_label_get_pair (v : LabelValue) (n : string) (d : list (LabelValue * string)) :
  NoDup (map fst d) -> In (v, n) d -> value_label_get v d = Some n.
Proof.
  induction d as [|[v' n'] t IH]; simpl; intros Hnd Hin; [contradiction|].
  inversion Hnd as [|? ? Hnotin Hnd']; subst.
  destruct Hin as [Heq | Hin].
  - inversion Heq; subst. now rewrite label_value_eqb_refl.
  - destruct (label_value_eqb v v') eqn:E; [|now apply IH].
    apply label_value_eqb_eq in E. subst v'. exfalso. apply Hnotin.
    change v with (fst (v, n)). now apply in_map.
Qed.

Lemma invert_labels_app (l1 l2 : list (string * LabelValue)) :
  forall acc,
    invert_labels (l1 ++ l2) acc
    = match invert_labels l1 acc with
      | Return value_label => invert_labels l2 value_label
      | Raise e => Raise e
      end.
Proof.
  induction l1 as [|[k v] l1 IH]; intro acc; simpl; [reflexivity|].
  destruct v; [apply IH | reflexivity].
Qed.

Lemma invert_labels_ints (items : list (string * LabelValue)) :
  Forall (fun kv => exists z, snd kv = LInt z) items ->
  forall acc,
    NoDup (map fst acc) ->
    Forall (fun vn => exists z, fst vn = LInt z) acc ->
    exists value_label,
      invert_labels items acc = Return value_label
      /\ NoDup (map fst value_label)
      /\ Forall (fun vn => exists z, fst vn = LInt z) value_label.
Proof.
  induction 1 as [|[k v] rest [z Hz] Hrest IH]; intros acc Hnd Hints; simpl.
  - now exists acc.
  - simpl in Hz. subst v. apply IH.
    + now apply value_label_set_NoDup.
    + apply value_label_set_ints; [now exists z | assumption].
Qed.

Lemma invert_labels_keeps (items : list (string * LabelValue)) (v : LabelValue) :
  (forall n, ~ In (n, v) items) ->
  forall acc value_label,
    invert_labels items acc = Return value_label ->
    value_label_get v value_label = value_label_get v acc.
Proof.
  induction items as [|[k v'] rest IH]; intros Hnot acc value_label; simpl.
  - intro H. now inversion H.
  - destruct v' as [z|l]; [|discriminate]. intro H.
    rewrite (IH (fun n Hin => Hnot n (or_intror Hin)) _ _ H).
    apply value_label_get_set_other. intros ->. apply (Hnot k). now left.
Qed.

Lemma set_where_zeros (data : list float64) (z : Z) :
  set_where data z (map (fun _ => Num 0) data)
  = map (fun x => if float_eqb x z then Num 1 else Num 0) data.
Proof.
  unfold set_where. induction data as [|x t IH]; simpl; [reflexivity | now rewrite IH].
Qed.

Lemma saved_masks_app (a b : list FsEvent) :
  saved_masks (a ++ b) = saved_masks a ++ saved_masks b.
Proof. unfold saved_masks. apply flat_map_app. Qed.

Lemma app_snoc_split {A : Type} (log pre post : list A) (e x : A) :
  log ++ [e] = pre ++ x :: post ->
  (post = [] /\ pre = log /\ x = e)
  \/ exists post', post = post' ++ [e] /\ log = pre ++ x :: post'.
Proof.
  intro H. destruct (exists_last (l := x :: post)) as [l' [a Hl]]; [discriminate|].
  destruct post as [|y post].
  - left. apply app_inj_tail in H. destruct H as [-> ->]. now repeat split.
  - right. destruct (exists_last (l := y :: post)) as [post' [b Hp]]; [discriminate|].
    rewrite Hp in H. change (pre ++ x :: post' ++ [b]) with (pre ++ (x :: post') ++ [b]) in H.
    rewrite app_assoc in H. apply app_inj_tail in H. destruct H as [-> ->].
    exists post'. now split.
Qed.

Section SeparateFacts.
Variable nib_files : string -> option ndarray.
Variable now : list FsEvent -> string.
Variables label_file original_label label_new_dir dataset_name : string.

(** What [write_json] dumps, for a date. *)
Local Notation sidecar date :=
  [("Author"%string,
    ("nnUNetV2_to_bids.py from nnUNet dataset " ++ dataset_name)%string);
   ("Date"%string, date);
   ("Reviewer"%string, "NAME"%string);
   ("Review_Date"%string, "YYYY-MM-DD, HH:MM:SS"%string)].

(** The two files of a value and its name: the mask and its JSON file. *)
Local Notation files_of img :=
  (fun vd : LabelValue * string * string =>
     [NiftiSave (path_join label_new_dir
                           (label_file ++ "-" ++ snd (fst vd) ++ "_seg.nii.gz")%string)
                (label_mask img (fst (fst vd))) original_label;
      JsonDump (path_join label_new_dir
                          (label_file ++ "-" ++ snd (fst vd) ++ "_seg.json")%string)
               (sidecar (snd vd))]).

(** Every JSON file of a log written after its first [from] events carries
    the reading of the clock at the moment it was written. *)
Local Notation dated from log :=
  (forall (pre : list FsEvent) (path : string) (content : list (string * string))
          (post : list FsEvent),
      log = pre ++ JsonDump path content :: post ->
      (from <= List.length pre)%nat ->
      In ("Date"%string, now pre) content).

Lemma dated_start (fs : list FsEvent) : dated (List.length fs) fs.
Proof.
  intros pre path content post H Hlen. exfalso.
  apply (f_equal (@List.length FsEvent)) in H.
  rewrite length_app in H. simpl in H. lia.
Qed.

Lemma dated_save (from : nat) (log : list FsEvent) (path : string) (v : ndarray)
  (h : string) :
  dated from log -> dated from (log ++ [NiftiSave path v h]).
Proof.
  intros Hd pre p c post H Hlen. apply app_snoc_split in H.
  destruct H as [[_ [_ H]] | [post' [_ H]]]; [discriminate|].
  now apply (Hd pre p c post').
Qed.

Lemma dated_copy (from : nat) (log : list FsEvent) (src dst : string) :
  dated from log -> dated from (log ++ [Copy2 src dst]).
Proof.
  intros Hd pre p c post H Hlen. apply app_snoc_split in H.
  destruct H as [[_ [_ H]] | [post' [_ H]]]; [discriminate|].
  now apply (Hd pre p c post').
Qed.

Lemma dated_write_json (from : nat) (log : list FsEvent) (filename : string) :
  dated from log -> dated from (write_json now filename dataset_name log).
Proof.
  unfold write_json. intros Hd pre p c post H Hlen. apply app_snoc_split in H.
  destruct H as [[_ [-> H]] | [post' [_ H]]].
  - inversion H; subst. simpl. auto.
  - now apply (Hd pre p c post').
Qed.

Lemma separate_loop_ok (img : ndarray) (value_label entries : list (LabelValue * string)) :
  (forall v n, In (v, n) entries -> value_label_get v value_label = Some n) ->
  forall fs : list FsEvent,
    exists dates : list string,
      List.length dates = List.length (filter (fun vn => is_nonzero (fst vn)) entries)
      /\ separate_loop now label_file original_label label_new_dir dataset_name
                       img value_label (map fst entries) fs
         = (Return tt,
            fs ++ flat_map (files_of img)
                           (combine (filter (fun vn => is_nonzero (fst vn)) entries)
                                    dates))
      /\ (forall from : nat,
            dated from fs ->
            dated from
              (fs ++ flat_map (files_of img)
                              (combine (filter (fun vn => is_nonzero (fst vn)) entries)
                                       dates))).
Proof.
  induction entries as [|[v n] rest IH]; intros Hget fs.
  - exists []. simpl. rewrite app_nil_r. now repeat split.
  - cbn [map fst separate_loop filter].
    assert (forall v0 n0, In (v0, n0) rest -> value_label_get v0 value_label = Some n0)
      as Hrest by (intros v0 n0 Hin; apply Hget; now right).
    destruct (is_nonzero v) eqn:Env.
    + rewrite (Hget v n) by now left.
      set (save := NiftiSave
                     (path_join label_new_dir
                                (label_file ++ "-" ++ n ++ "_seg.nii.gz")%string)
                     (label_mask img v) original_label).
      destruct (IH Hrest
                  (write_json now
                     (path_join label_new_dir
                                (label_file ++ "-" ++ n ++ "_seg.json")%string)
                     dataset_name (fs ++ [save])))
        as [dates [Hlen [Hrun Hdated]]].
      exists (now (fs ++ [save]) :: dates).
      split; [simpl; now rewrite Hlen|].
      cbn [combine flat_map fst snd].
      assert (forall tail : list FsEvent,
                 fs ++ ([save;
                         JsonDump (path_join label_new_dir
                                     (label_file ++ "-" ++ n ++ "_seg.json")%string)
                                  (sidecar (now (fs ++ [save])))] ++ tail)
                 = write_json now
                     (path_join label_new_dir
                                (label_file ++ "-" ++ n ++ "_seg.json")%string)
                     dataset_name (fs ++ [save]) ++ tail) as Hlog.
      { intro tail. unfold write_json. now rewrite <- !app_assoc. }
      rewrite Hlog. split; [exact Hrun|].
      intros from Hfs. apply Hdated. apply dated_write_json. now apply dated_save.
    + destruct (IH Hrest fs) as [dates [Hlen [Hrun Hdated]]].
      exists dates. now repeat split.
Qed.

(** X12: when a label of [dataset.json] has a list as its value (a region),
    [separate_labels] raises [TypeError] while inverting the label
    dictionary: before reading the label file and without writing,
    copying or saving anything. *)
Theorem separate_labels_region_TypeError
  (dataset_label : list (string * LabelValue)) (name : string) (region : list Z)
  (fs : list FsEvent) :
  In (name, LList region) dataset_label ->
  separate_labels nib_files now label_file original_label dataset_label
                  label_new_dir dataset_name fs
  = (Raise (TypeError "unhashable type: 'list'"), fs).
Proof.
  intro Hin.
  assert (forall acc, invert_labels dataset_label acc
                      = Raise (TypeError "unhashable type: 'list'")) as Hraise.
  { induction dataset_label as [|[k v] rest IH]; intro acc; [contradiction|].
    simpl. destruct v as [z|l]; [|reflexivity].
    apply IH. destruct Hin as [Heq | Hin]; [discriminate | assumption]. }
  unfold separate_labels. now rewrite Hraise.
Qed.

(** X13: when every label has an integer value and the label file exists,
    [separate_labels] succeeds and only appends to the log: for every
    distinct non-zero value, in the order the values first occur, first the
    saved volume [<label_file>-<name>_seg.nii.gz], with the header of the
    label file, that has the shape of the label volume and is 1 exactly at
    the voxels equal to the value and 0 elsewhere, then the JSON file
    [<label_file>-<name>_seg.json] with the author line of the dataset, a
    date and the two reviewer placeholders; after them the copy of the label
    file as the soft segmentation and its JSON file.  The date of every
    JSON file is the reading of the clock at the moment the file is
    written.  Nothing is saved for the value 0. *)
Theorem separate_labels_one_mask_per_value
  (dataset_label : list (string * LabelValue)) (img : ndarray) (fs : list FsEvent) :
  Forall (fun kv => exists z, snd kv = LInt z) dataset_label ->
  nib_files original_label = Some img ->
  exists (value_label : list (LabelValue * string)) (dates : list string)
         (date : string),
    invert_labels dataset_label [] = Return value_label
    /\ NoDup (map fst value_label)
    /\ List.length dates
       = List.length (filter (fun vn => is_nonzero (fst vn)) value_label)
    /\ separate_labels nib_files now label_file original_label dataset_label
                       label_new_dir dataset_name fs
       = (Return tt,
          fs ++ flat_map
                  (fun vd : LabelValue * string * string =>
                     [NiftiSave
                        (path_join label_new_dir
                           (label_file ++ "-" ++ snd (fst vd) ++ "_seg.nii.gz")%string)
                        (label_mask img (fst (fst vd))) original_label;
                      JsonDump
                        (path_join label_new_dir
                           (label_file ++ "-" ++ snd (fst vd) ++ "_seg.json")%string)
                        [("Author"%string,
                          ("nnUNetV2_to_bids.py from nnUNet dataset "
                           ++ dataset_name)%string);
                         ("Date"%string, snd vd);
                         ("Reviewer"%string, "NAME"%string);
                         ("Review_Date"%string, "YYYY-MM-DD, HH:MM:SS"%string)]])
                  (combine (filter (fun vn => is_nonzero (fst vn)) value_label) dates)
             ++ [Copy2 original_label
                       (path_join label_new_dir (label_file ++ "-softseg.nii.gz")%string);
                 JsonDump (path_join label_new_dir (label_file ++ "-softseg.json")%string)
                          [("Author"%string,
                            ("nnUNetV2_to_bids.py from nnUNet dataset "
                             ++ dataset_name)%string);
                           ("Date"%string, date);
                           ("Reviewer"%string, "NAME"%string);
                           ("Review_Date"%string, "YYYY-MM-DD, HH:MM:SS"%string)]])
    /\ (forall (pre : list FsEvent) (path : string)
               (content : list (string * string)) (post : list FsEvent),
          snd (separate_labels nib_files now label_file original_label dataset_label
                               label_new_dir dataset_name fs)
          = pre ++ JsonDump path content :: post ->
          (List.length fs <= List.length pre)%nat ->
          In ("Date"%string, now pre) content)
    /\ Forall (fun vn => exists z, fst vn = LInt z
                                   /\ label_mask img (fst vn) = eq_mask img z)
              value_label.
Proof.
  intros Hints Hfile.
  destruct (invert_labels_ints dataset_label Hints [] (NoDup_nil _) (Forall_nil _))
    as [value_label [Hinv [Hnd Hkeys]]].
  destruct (separate_loop_ok img value_label value_label
              (fun v n Hin => value_label_get_pair v n value_label Hnd Hin) fs)
    as [dates [Hlen [Hrun Hdated]]].
  exists value_label, dates. eexists.
  split; [exact Hinv|]. split; [exact Hnd|]. split; [exact Hlen|].
  assert (separate_labels nib_files now label_file original_label dataset_label
            label_new_dir dataset_name fs
          = (Return tt,
             write_json now
               (path_join label_new_dir (label_file ++ "-softseg.json")%string)
               dataset_name
               ((fs ++ flat_map (files_of img)
                         (combine (filter (fun vn => is_nonzero (fst vn)) value_label)
                                  dates))
                ++ [Copy2 original_label
                      (path_join label_new_dir
                                 (label_file ++ "-softseg.nii.gz")%string)])))
    as Hall.
  { unfold separate_labels. now rewrite Hinv, Hfile, Hrun. }
  split.
  { rewrite Hall. unfold write_json. rewrite <- !app_assoc. reflexivity. }
  split.
  { rewrite Hall. cbn [snd].
    apply dated_write_json, dated_copy, Hdated, dated_start. }
  eapply Forall_impl; [|exact Hkeys].
  intros [v n] [z Hz]. simpl in Hz. subst v. exists z. split; [reflexivity|].
  unfold label_mask, eq_mask. simpl. now rewrite set_where_zeros.
Qed.

(** X14: when several labels of [dataset.json] share a value, the inverted
    dictionary keeps one entry for the value, under the name of the label
    that comes last; the earlier names get no file. *)
Theorem invert_labels_last_name_wins
  (before after : list (string * LabelValue)) (name : string) (z : Z) :
  Forall (fun kv => exists z, snd kv = LInt z) (before ++ (name, LInt z) :: after) ->
  (forall n, ~ In (n, LInt z) after) ->
  exists value_label : list (LabelValue * string),
    invert_labels (before ++ (name, LInt z) :: after) [] = Return value_label
    /\ value_label_get (LInt z) value_label = Some name
    /\ NoDup (map fst value_label)
    /\ (forall n, In (LInt z, n) value_label -> n = name).
Proof using Type.
  intros Hints Hlast.
  destruct (invert_labels_ints _ Hints [] (NoDup_nil _) (Forall_nil _))
    as [value_label [Hinv [Hnd Hkeys]]].
  exists value_label. split; [exact Hinv|].
  assert (value_label_get (LInt z) value_label = Some name) as Hget.
  { rewrite invert_labels_app in Hinv.
    destruct (invert_labels before []) as [acc|e]; [|discriminate].
    simpl in Hinv.
    rewrite (invert_labels_keeps after (LInt z) Hlast _ _ Hinv).
    apply value_label_get_set_same. }
  split; [exact Hget|]. split; [exact Hnd|].
  intros n Hin. rewrite (value_label_get_pair _ _ _ Hnd Hin) in Hget. congruence.
Qed.

End SeparateFacts.

(** *** The examples *)

Lemma get_subject_info_reads_fields_witness :
  get_subject_info "sub-001_ses-01_003_0000.nii.gz" demo_contrasts
  = Return ("sub-001"%string, Some "ses-01"%string, "003"%string, "0"%string,
            "T2w"%string).
Proof.
  refine (get_subject_info_reads_fields
            ["sub-001"; "ses-01"; "003"; "0000"]%string "nii.gz" demo_contrasts _ _).
  - simpl. lia.
  - repeat constructor.
Defined.

Lemma get_subject_info_returns_witness :
  dict_get (KStr "1") demo_contrasts = Some "T1w"%string
  /\ "1"%string <> EmptyString
  /\ ("1"%string = "0"%string \/ startswith "1" "0" = false)
  /\ (@None string <> None ->
      List.length (split_char "_" (hd EmptyString
                      (split_char "." "sub-001_003_0001.nii.gz"))) = 4%nat).
Proof.
  exact (get_subject_info_returns "sub-001_003_0001.nii.gz" demo_contrasts
           "sub-001" None "003" "1" "T1w" eq_refl).
Defined.

Lemma separate_labels_region_TypeError_witness :
  separate_labels demo_label_files demo_now "sub-01_T2w_seg"
                  "labelsTr/sub-01_003.nii.gz" demo_region_labels
                  "out/anat" "Dataset001" []
  = (Raise (TypeError "unhashable type: 'list'"), []).
Proof.
  refine (separate_labels_region_TypeError
            demo_label_files demo_now "sub-01_T2w_seg" "labelsTr/sub-01_003.nii.gz"
            "out/anat" "Dataset001" demo_region_labels "cord" [1; 2] [] _).
  right. now left.
Defined.

Lemma separate_labels_one_mask_per_value_witness :
  exists (dates : list string) (date : string),
    List.length dates = 2%nat
    /\ separate_labels demo_label_files demo_now "sub-01_T2w_seg"
                       "labelsTr/sub-01_003.nii.gz" demo_labels
                       "out/anat" "Dataset001" []
       = (Return tt,
          flat_map
            (fun vd : LabelValue * string * string =>
               [NiftiSave
                  (path_join "out/anat"
                     ("sub-01_T2w_seg" ++ "-" ++ snd (fst vd) ++ "_seg.nii.gz")%string)
                  (label_mask {| shape := [2; 2]%nat;
                                 data := [Num 0; Num 1; Num 2; Num 1] |}
                              (fst (fst vd)))
                  "labelsTr/sub-01_003.nii.gz";
                JsonDump
                  (path_join "out/anat"
                     ("sub-01_T2w_seg" ++ "-" ++ snd (fst vd) ++ "_seg.json")%string)
                  [("Author"%string,
                    "nnUNetV2_to_bids.py from nnUNet dataset Dataset001"%string);
                   ("Date"%string, snd vd);
                   ("Reviewer"%string, "NAME"%string);
                   ("Review_Date"%string, "YYYY-MM-DD, HH:MM:SS"%string)]])
            (combine [(LInt 1, "sc"%string); (LInt 2, "lesion"%string)] dates)
          ++ [Copy2 "labelsTr/sub-01_003.nii.gz" "out/anat/sub-01_T2w_seg-softseg.nii.gz";
              JsonDump "out/anat/sub-01_T2w_seg-softseg.json"
                       [("Author"%string,
                         "nnUNetV2_to_bids.py from nnUNet dataset Dataset001"%string);
                        ("Date"%string, date);
                        ("Reviewer"%string, "NAME"%string);
                        ("Review_Date"%string, "YYYY-MM-DD, HH:MM:SS"%string)]]).
Proof.
  destruct (separate_labels_one_mask_per_value
              demo_label_files demo_now "sub-01_T2w_seg" "labelsTr/sub-01_003.nii.gz"
              "out/anat" "Dataset001" demo_labels
              {| shape := [2; 2]%nat; data := [Num 0; Num 1; Num 2; Num 1] |} [])
    as [value_label [dates [date [Hinv [_ [Hlen [Hrun _]]]]]]].
  - repeat constructor; eexists; reflexivity.
  - reflexivity.
  - cbn in Hinv. inversion Hinv; subst value_label.
    exists dates, date. split; [exact Hlen | exact Hrun].
Defined.

Lemma invert_labels_last_name_wins_witness :
  exists value_label : list (LabelValue * string),
    invert_labels demo_labels [] = Return value_label
    /\ value_label_get (LInt 1) value_label = Some "sc"%string
    /\ NoDup (map fst value_label)
    /\ (forall n, In (LInt 1, n) value_label -> n = "sc"%string).
Proof.
  refine (invert_labels_last_name_wins
            [("background"%string, LInt 0); ("cord"%string, LInt 1);
             ("lesion"%string, LInt 2)] [] "sc" 1 _ _).
  - repeat constructor; eexists; reflexivity.
  - intros n [].
Defined.

(** The conversion of the example, event by event. *)
Lemma demo_separate_labels_log :
  separate_labels demo_label_files demo_now "sub-01_T2w_seg"
                  "labelsTr/sub-01_003.nii.gz" demo_labels
                  "out/anat" "Dataset001" []
  = (Return tt,
     [NiftiSave "out/anat/sub-01_T2w_seg-sc_seg.nii.gz"
                {| shape := [2; 2]%nat; data := [Num 0; Num 1; Num 0; Num 1] |}
                "labelsTr/sub-01_003.nii.gz";
      JsonDump "out/anat/sub-01_T2w_seg-sc_seg.json"
               [("Author"%string,
                 "nnUNetV2_to_bids.py from nnUNet dataset Dataset001"%string);
                ("Date"%string, "2024-01-01 00:00:00"%string);
                ("Reviewer"%string, "NAME"%string);
                ("Review_Date"%string, "YYYY-MM-DD, HH:MM:SS"%string)];
      NiftiSave "out/anat/sub-01_T2w_seg-lesion_seg.nii.gz"
                {| shape := [2; 2]%nat; data := [Num 0; Num 0; Num 1; Num 0] |}
                "labelsTr/sub-01_003.nii.gz";
      JsonDump "out/anat/sub-01_T2w_seg-lesion_seg.json"
               [("Author"%string,
                 "nnUNetV2_to_bids.py from nnUNet dataset Dataset001"%string);
                ("Date"%string, "2024-01-01 00:00:00"%string);
                ("Reviewer"%string, "NAME"%string);
                ("Review_Date"%string, "YYYY-MM-DD, HH:MM:SS"%string)];
      Copy2 "labelsTr/sub-01_003.nii.gz" "out/anat/sub-01_T2w_seg-softseg.nii.gz";
      JsonDump "out/anat/sub-01_T2w_seg-softseg.json"
               [("Author"%string,
                 "nnUNetV2_to_bids.py from nnUNet dataset Dataset001"%string);
                ("Date"%string, "2024-01-01 00:00:00"%string);
                ("Reviewer"%string, "NAME"%string);
                ("Review_Date"%string, "YYYY-MM-DD, HH:MM:SS"%string)]]).
Proof. reflexivity. Qed.

(** The masks the conversion of the example saves. *)
Lemma demo_separate_labels_run :
  saved_masks (snd (separate_labels demo_label_files demo_now "sub-01_T2w_seg"
                      "labelsTr/sub-01_003.nii.gz" demo_labels
                      "out/anat" "Dataset001" []))
  = [("out/anat/sub-01_T2w_seg-sc_seg.nii.gz"%string,
      {| shape := [2; 2]%nat; data := [Num 0; Num 1; Num 0; Num 1] |});
     ("out/anat/sub-01_T2w_seg-lesion_seg.nii.gz"%string,
      {| shape := [2; 2]%nat; data := [Num 0; Num 0; Num 1; Num 0] |})].
Proof. reflexivity. Qed.

End BidsFacts.
